(** * ai-trader: risk gate, opportunity scanner and execution orchestrator

  A shallow embedding of the TypeScript sources

    - [RiskManager]              (risk gate and position ledger),
    - [ArbitrageDetector]        (opportunity scanner),
    - [TradingExecutionEngine]   (execution orchestrator),
    - [UniswapV3Protocol]        (one venue client),

  together with the properties established about them.

  Modelling conventions.

  - A JavaScript [number] is [Js.number]: NaN, the two infinities, or a
    finite value held as an exact rational.  Rounding to binary64 and the
    sign of zero are not represented; a zero divisor counts as the positive
    zero, which is what [x || 0] and [Number(0n) / 100] produce.
  - Amounts travel through the program as decimal strings that are only
    ever read with [BigInt(...)]; the model holds the integer itself.
  - [Pool.liquidity] is a string that is only ever read with
    [parseFloat(...)]; the model holds the parsed number.
  - Integer-valued counters and risk scores (sums of integer literals) are
    integers.
  - [Date.now()] is an explicit argument [now], in milliseconds.
  - An [async] function is run to completion; a rejected promise is an
    uncaught exception of the call. *)

From Stdlib Require Import ZArith QArith Qround Lqa Lia List String Ascii Bool.
From Stdlib Require Import DecimalString.
From stdpp Require Import gmap strings.
Import ListNotations.
Local Open Scope Z_scope.

(** ** JavaScript values *)

Module Js.

Inductive number : Type :=
| NaN
| PosInf
| NegInf
| Fin (q : Q).

Definition ofZ (z : Z) : number := Fin (inject_Z z).

Definition Qltb (a b : Q) : bool := negb (Qle_bool b a).

(** [a < b] *)
Definition lt (a b : number) : bool :=
  match a, b with
  | NaN, _ | _, NaN => false
  | PosInf, _ => false
  | NegInf, NegInf => false
  | NegInf, _ => true
  | Fin _, PosInf => true
  | Fin _, NegInf => false
  | Fin x, Fin y => Qltb x y
  end.

(** [a <= b] *)
Definition le (a b : number) : bool :=
  match a, b with
  | NaN, _ | _, NaN => false
  | NegInf, _ => true
  | PosInf, PosInf => true
  | PosInf, _ => false
  | Fin _, PosInf => true
  | Fin _, NegInf => false
  | Fin x, Fin y => Qle_bool x y
  end.

(** [a > b] and [a >= b] *)
Definition gt (a b : number) : bool := lt b a.
Definition ge (a b : number) : bool := le b a.

Definition neg (a : number) : number :=
  match a with
  | NaN => NaN
  | PosInf => NegInf
  | NegInf => PosInf
  | Fin x => Fin (- x)
  end.

Definition add (a b : number) : number :=
  match a, b with
  | NaN, _ | _, NaN => NaN
  | PosInf, NegInf | NegInf, PosInf => NaN
  | PosInf, _ | _, PosInf => PosInf
  | NegInf, _ | _, NegInf => NegInf
  | Fin x, Fin y => Fin (x + y)
  end.

Definition sub (a b : number) : number := add a (neg b).

(** The infinity with the sign of [s * q]; NaN when [q] is zero. *)
Definition infTimes (positive : bool) (q : Q) : number :=
  if Qeq_bool q 0 then NaN
  else if xorb positive (Qltb 0 q) then NegInf else PosInf.

Definition mul (a b : number) : number :=
  match a, b with
  | NaN, _ | _, NaN => NaN
  | PosInf, PosInf | NegInf, NegInf => PosInf
  | PosInf, NegInf | NegInf, PosInf => NegInf
  | PosInf, Fin y | Fin y, PosInf => infTimes true y
  | NegInf, Fin y | Fin y, NegInf => infTimes false y
  | Fin x, Fin y => Fin (x * y)
  end.

(** [a / b]; a zero divisor is the positive zero. *)
Definition div (a b : number) : number :=
  match a, b with
  | NaN, _ | _, NaN => NaN
  | (PosInf | NegInf), (PosInf | NegInf) => NaN
  | PosInf, Fin y => if Qltb y 0 then NegInf else PosInf
  | NegInf, Fin y => if Qltb y 0 then PosInf else NegInf
  | Fin _, (PosInf | NegInf) => Fin 0
  | Fin x, Fin y =>
      if Qeq_bool y 0 then
        if Qltb 0 x then PosInf else if Qltb x 0 then NegInf else NaN
      else Fin (x / y)
  end.

(** [Math.min(a, b)] and [Math.max(a, b)] *)
Definition min (a b : number) : number :=
  match a, b with
  | NaN, _ | _, NaN => NaN
  | _, _ => if le a b then a else b
  end.

Definition max (a b : number) : number :=
  match a, b with
  | NaN, _ | _, NaN => NaN
  | _, _ => if le a b then b else a
  end.

(** [Math.floor(a)] *)
Definition floor (a : number) : number :=
  match a with
  | Fin q => Fin (inject_Z (Qfloor q))
  | _ => a
  end.

(** Truthiness of a number: NaN and zero are falsy. *)
Definition truthy (a : number) : bool :=
  match a with
  | NaN => false
  | Fin q => negb (Qeq_bool q 0)
  | _ => true
  end.

(** [a || 0] *)
Definition orZero (a : number) : number :=
  if truthy a then a else Fin 0.

(** [BigInt(a)] of a number: a RangeError ([None]) unless [a] is an
    integer. *)
Definition toBigInt (a : number) : option Z :=
  match a with
  | Fin q => if Qeq_bool q (inject_Z (Qfloor q)) then Some (Qfloor q) else None
  | _ => None
  end.

(** [s.toLowerCase()], on ASCII letters. *)
Definition lowerAscii (c : ascii) : ascii :=
  let n := nat_of_ascii c in
  if (andb (Nat.leb 65 n) (Nat.leb n 90)) then ascii_of_nat (n + 32) else c.

Fixpoint toLowerCase (s : string) : string :=
  match s with
  | EmptyString => EmptyString
  | String c r => String (lowerAscii c) (toLowerCase r)
  end.

(** [xs.includes(x)] on an array of strings. *)
Definition includes (xs : list string) (x : string) : bool :=
  existsb (String.eqb x) xs.

(** [s.includes(sub)] on strings. *)
Fixpoint strIncludes (s sub : string) : bool :=
  orb (String.prefix sub s)
      match s with
      | EmptyString => false
      | String _ r => strIncludes r sub
      end.

(** [z.toString()] of a bigint. *)
Definition bigintToString (z : Z) : string :=
  NilZero.string_of_int (Z.to_int z).

(** [Math.round(a)] *)
Definition round (a : number) : number :=
  match a with
  | Fin q => Fin (inject_Z (Qfloor (q + (1 # 2))))
  | _ => a
  end.

(** A thrown value: an [Error] with its message, or anything else. *)
Inductive thrown : Type :=
| ErrorObj (message : string)
| OtherValue.

(** How an evaluation ends: with a value, or with a thrown value (for an
    [async] function, a rejected promise). *)
Inductive completion (A : Type) : Type :=
| Return (a : A)
| Throw (e : thrown).
Arguments Return {A} a.
Arguments Throw {A} e.

(** [error instanceof Error ? error.message : fallback] *)
Definition messageOr (fallback : string) (e : thrown) : string :=
  match e with
  | ErrorObj m => m
  | OtherValue => fallback
  end.

End Js.

(** ** The data model ([types/index.ts]) *)

Module Token.
Record t : Type := mk {
  address : string;
  symbol : string;
  name : string;
  decimals : Z;
  chainId : Z
}.
End Token.

Module Pool.
Record t : Type := mk {
  id : string;
  protocol : string;
  tokenA : Token.t;
  tokenB : Token.t;
  reserve0 : Z;
  reserve1 : Z;
  fee : Js.number;
  liquidity : Js.number;
  chainId : Z
}.
End Pool.

Module TradeStep.
Record t : Type := mk {
  protocol : string;
  tokenIn : Token.t;
  tokenOut : Token.t;
  amountIn : Z;
  amountOutMin : Z;
  pool : Pool.t;
  route : list string
}.
End TradeStep.

Module Opportunity.
(** [ArbitrageOpportunity] *)
Record t : Type := mk {
  id : string;
  tokenA : Token.t;
  tokenB : Token.t;
  buyPool : Pool.t;
  sellPool : Pool.t;
  profitPercentage : Js.number;
  profitAmount : Z;
  inputAmount : Z;
  confidence : Js.number;
  timestamp : Z;
  gasEstimate : Z;
  executionPath : list TradeStep.t
}.
End Opportunity.

Module Prediction.
(** [AIModelPrediction]; the back-reference to the opportunity is not
    read by the modelled code. *)
Record t : Type := mk {
  confidence : Js.number;
  riskScore : Js.number;
  executionProbability : Js.number;
  timestamp : Z
}.
End Prediction.

Module Config.
(** [CONFIG.trading] and [CONFIG.ai.predictionConfidenceThreshold] *)
Record t : Type := mk {
  minProfitThreshold : Js.number;
  maxSlippage : Js.number;
  maxPositionSize : Js.number;
  tradingEnabled : bool;
  maxGasPrice : Z;
  predictionConfidenceThreshold : Js.number
}.
End Config.

(** ** The risk gate and its ledger ([RiskManager]) *)

Module RiskManager.

(** The fields of a [RiskManager] instance: the position ledger.  Events
    emitted to listeners ([risk-assessment], [trade-started], ...) are
    notifications and are not part of the instance. *)
Record t : Type := mk {
  dailyVolume : Z;
  dailyTrades : Z;
  activeTrades : Z;
  lastTradeTime : Z;
  dailyResetTime : Z;
  blacklistedTokens : gset string;
  blacklistedProtocols : gset string
}.

Inductive RiskLevel : Type := LOW | MEDIUM | HIGH | CRITICAL.

Record RiskAssessment : Type := mkAssessment {
  riskScore : Z;
  riskLevel : RiskLevel;
  shouldExecute : bool;
  reasons : list string;
  adjustedPositionSize : Z;
  maxSlippage : Js.number
}.

(** The [{ score, reasons }] pair every scoring dimension returns. *)
Record Partial : Type := mkPartial {
  score : Z;
  why : list string
}.

Definition msPerDay : Z := 86400000.

(** Midnight UTC of the day after [now]:
    [setUTCHours(0,0,0,0)] then [setUTCDate(getUTCDate() + 1)]. *)
Definition nextUtcMidnight (now : Z) : Z :=
  (now / msPerDay) * msPerDay + msPerDay.

Definition resetDailyLimits (now : Z) (this : t) : t :=
  mk 0 0 (activeTrades this) (lastTradeTime this) (nextUtcMidnight now)
     (blacklistedTokens this) (blacklistedProtocols this).

(** The instance a constructor call at time [now] yields. *)
Definition create (now : Z) : t :=
  resetDailyLimits now (mk 0 0 0 0 0 ∅ ∅).

Definition stablecoins : list string :=
  ["USDC"; "USDT"; "DAI"; "BUSD"]%string.
Definition majorTokens : list string :=
  ["WETH"; "WBTC"; "WMATIC"; "BNB"]%string.
Definition trustedProtocols : list string :=
  ["uniswap_v2"; "uniswap_v3"; "sushiswap"; "pancakeswap"]%string.

Definition tokenBlacklisted (this : t) (tok : Token.t) : bool :=
  bool_decide (Js.toLowerCase (Token.address tok) ∈ blacklistedTokens this).

Definition protocolBlacklisted (this : t) (p : Pool.t) : bool :=
  bool_decide (Pool.protocol p ∈ blacklistedProtocols this).

Definition assessTokenRisk (this : t) (o : Opportunity.t) : Partial :=
  let a := Opportunity.tokenA o in
  let b := Opportunity.tokenB o in
  let p0 :=
    if tokenBlacklisted this a || tokenBlacklisted this b
    then mkPartial 100 ["Token is blacklisted"%string]
    else mkPartial 0 [] in
  let isStablecoinPair :=
    Js.includes stablecoins (Token.symbol a) &&
    Js.includes stablecoins (Token.symbol b) in
  let isMajorTokenPair :=
    Js.includes majorTokens (Token.symbol a) ||
    Js.includes majorTokens (Token.symbol b) in
  if isStablecoinPair then
    mkPartial (score p0 - 5) (why p0 ++ ["Stablecoin pair - reduced risk"%string])
  else if isMajorTokenPair then
    mkPartial (score p0 - 2)
              (why p0 ++ ["Major token pair - slightly reduced risk"%string])
  else
    mkPartial (score p0 + 10)
              (why p0 ++ ["Unknown token pair - increased risk"%string]).

Definition assessProtocolRisk (this : t) (o : Opportunity.t) : Partial :=
  let buy := Opportunity.buyPool o in
  let sell := Opportunity.sellPool o in
  let p0 :=
    if protocolBlacklisted this buy || protocolBlacklisted this sell
    then mkPartial 50 ["Protocol is blacklisted"%string]
    else mkPartial 0 [] in
  let buyProtocolTrusted := Js.includes trustedProtocols (Pool.protocol buy) in
  let sellProtocolTrusted := Js.includes trustedProtocols (Pool.protocol sell) in
  let p1 :=
    if negb buyProtocolTrusted || negb sellProtocolTrusted
    then mkPartial (score p0 + 15)
                   (why p0 ++ ["Using less established protocol"%string])
    else p0 in
  if negb (String.eqb (Pool.protocol buy) (Pool.protocol sell))
  then mkPartial (score p1 + 5)
         (why p1 ++ ["Cross-protocol arbitrage - additional execution risk"%string])
  else p1.

Definition e18 : Js.number := Js.ofZ 1000000000000000000.

Definition assessLiquidityRisk (o : Opportunity.t) : Partial :=
  let buyLiquidity := Js.orZero (Pool.liquidity (Opportunity.buyPool o)) in
  let sellLiquidity := Js.orZero (Pool.liquidity (Opportunity.sellPool o)) in
  let minLiquidity := Js.min buyLiquidity sellLiquidity in
  let positionSize := Js.div (Js.ofZ (Opportunity.inputAmount o)) e18 in
  let liquidityUtilization := Js.div positionSize minLiquidity in
  let p0 :=
    if Js.lt minLiquidity (Js.ofZ 10000)
    then mkPartial 30 ["Very low liquidity pools"%string]
    else if Js.lt minLiquidity (Js.ofZ 100000)
    then mkPartial 15 ["Low liquidity pools"%string]
    else mkPartial 0 [] in
  if Js.gt liquidityUtilization (Js.Fin (5 # 100))
  then mkPartial (score p0 + 25)
         (why p0 ++ ["High liquidity utilization - increased slippage risk"%string])
  else if Js.gt liquidityUtilization (Js.Fin (2 # 100))
  then mkPartial (score p0 + 10)
         (why p0 ++ ["Moderate liquidity utilization"%string])
  else p0.

Definition assessProfitRisk (o : Opportunity.t) : Partial :=
  let p := Opportunity.profitPercentage o in
  let p0 :=
    if Js.gt p (Js.ofZ 5)
    then mkPartial 20 ["Unusually high profit margin - possible stale data"%string]
    else if Js.gt p (Js.ofZ 2)
    then mkPartial 5 ["High profit margin - verify data freshness"%string]
    else mkPartial 0 [] in
  if Js.lt p (Js.Fin (1 # 10))
  then mkPartial (score p0 + 25)
         (why p0 ++ ["Very low profit margin - high execution risk"%string])
  else if Js.lt p (Js.Fin (2 # 10))
  then mkPartial (score p0 + 10)
         (why p0 ++ ["Low profit margin - moderate execution risk"%string])
  else p0.

Definition assessAIPredictionRisk (ai : Prediction.t) : Partial :=
  let p0 :=
    if Js.lt (Prediction.confidence ai) (Js.Fin (5 # 10))
    then mkPartial 30 ["Low AI confidence in opportunity"%string]
    else if Js.lt (Prediction.confidence ai) (Js.Fin (7 # 10))
    then mkPartial 15 ["Moderate AI confidence"%string]
    else mkPartial (-5) ["High AI confidence - reduced risk"%string] in
  let p1 :=
    if Js.gt (Prediction.riskScore ai) (Js.Fin (8 # 10))
    then mkPartial (score p0 + 25) (why p0 ++ ["AI indicates high risk"%string])
    else if Js.gt (Prediction.riskScore ai) (Js.Fin (6 # 10))
    then mkPartial (score p0 + 10) (why p0 ++ ["AI indicates moderate risk"%string])
    else p0 in
  if Js.lt (Prediction.executionProbability ai) (Js.Fin (5 # 10))
  then mkPartial (score p1 + 20)
         (why p1 ++ ["Low execution probability predicted"%string])
  else p1.

Definition assessPositionSizeRisk (cfg : Config.t) (this : t)
    (o : Opportunity.t) : Partial :=
  let positionSizeUSD := Js.div (Js.ofZ (Opportunity.inputAmount o)) e18 in
  let maxPositionSize := Config.maxPositionSize cfg in
  let p0 :=
    if Js.gt positionSizeUSD (Js.mul maxPositionSize (Js.Fin (5 # 10)))
    then mkPartial 20 ["Large position size relative to limits"%string]
    else mkPartial 0 [] in
  let newDailyVolume := dailyVolume this + Opportunity.inputAmount o in
  let dailyVolumeUSD := Js.div (Js.ofZ newDailyVolume) e18 in
  if Js.gt dailyVolumeUSD (Js.mul maxPositionSize (Js.ofZ 10))
  then mkPartial (score p0 + 40)
         (why p0 ++ ["Would exceed daily volume limits"%string])
  else p0.

Definition assessMarketConditionsRisk (now : Z) (this : t)
    (o : Opportunity.t) : Partial :=
  let p0 :=
    if activeTrades this >=? 3
    then mkPartial 15 ["Multiple concurrent trades - increased risk"%string]
    else mkPartial 0 [] in
  let timeSinceLastTrade := now - lastTradeTime this in
  let p1 :=
    if (timeSinceLastTrade <? 30000) && (lastTradeTime this >? 0)
    then mkPartial (score p0 + 10)
           (why p0 ++ ["Recent trade execution - cooldown period"%string])
    else p0 in
  let opportunityAge := now - Opportunity.timestamp o in
  if opportunityAge >? 60000
  then mkPartial (score p1 + 15)
         (why p1 ++ ["Stale opportunity - data may be outdated"%string])
  else if opportunityAge >? 30000
  then mkPartial (score p1 + 5) (why p1 ++ ["Moderately aged opportunity"%string])
  else p1.

Definition shouldExecuteTrade (cfg : Config.t) (this : t) (riskScore : Z)
    (o : Opportunity.t) : bool :=
  if riskScore >? 70 then false
  else if dailyTrades this >=? 50 then false
  else if activeTrades this >=? 3 then false
  else
    let riskAdjustedMinProfit :=
      Js.mul (Config.minProfitThreshold cfg)
             (Js.add (Js.ofZ 1) (Js.div (Js.ofZ riskScore) (Js.ofZ 100))) in
    if Js.lt (Opportunity.profitPercentage o) riskAdjustedMinProfit then false
    else true.

Definition sizeMultiplier (riskScore : Z) : Q :=
  if riskScore >? 50 then 5 # 10
  else if riskScore >? 30 then 7 # 10
  else if riskScore >? 15 then 85 # 100
  else 1.

(** [basePositionSize * BigInt(Math.floor(sizeMultiplier * 100)) / 100n];
    bigint division truncates towards zero. *)
Definition calculateAdjustedPositionSize (o : Opportunity.t)
    (riskScore : Z) : Z :=
  let basePositionSize := Opportunity.inputAmount o in
  Z.quot (basePositionSize * Qfloor (sizeMultiplier riskScore * 100)) 100.

Definition calculateAdjustedSlippage (cfg : Config.t) (riskScore : Z)
    : Js.number :=
  let baseSlippage := Config.maxSlippage cfg in
  let baseSlippage :=
    if riskScore >? 50 then Js.mul baseSlippage (Js.Fin (5 # 10))
    else if riskScore >? 30 then Js.mul baseSlippage (Js.Fin (7 # 10))
    else baseSlippage in
  Js.max baseSlippage (Js.Fin (1 # 1000)).

Definition levelOf (riskScore : Z) : RiskLevel :=
  if riskScore <=? 20 then LOW
  else if riskScore <=? 40 then MEDIUM
  else if riskScore <=? 70 then HIGH
  else CRITICAL.

(** [assessRisk(opportunity, aiPrediction?)]: the assessment and the
    instance as the call leaves it. *)
Definition assessRisk (cfg : Config.t) (now : Z) (this : t)
    (o : Opportunity.t) (aiPrediction : option Prediction.t)
    : RiskAssessment * t :=
  let this := if now >? dailyResetTime this
              then resetDailyLimits now this else this in
  let tokenRisk := assessTokenRisk this o in
  let protocolRisk := assessProtocolRisk this o in
  let liquidityRisk := assessLiquidityRisk o in
  let profitRisk := assessProfitRisk o in
  let aiRisk := match aiPrediction with
                | Some ai => assessAIPredictionRisk ai
                | None => mkPartial 0 []
                end in
  let positionRisk := assessPositionSizeRisk cfg this o in
  let marketRisk := assessMarketConditionsRisk now this o in
  let riskScore :=
    0 + score tokenRisk + score protocolRisk + score liquidityRisk
      + score profitRisk + score aiRisk + score positionRisk
      + score marketRisk in
  let reasons :=
    why tokenRisk ++ why protocolRisk ++ why liquidityRisk
      ++ why profitRisk ++ why aiRisk ++ why positionRisk
      ++ why marketRisk in
  (mkAssessment riskScore (levelOf riskScore)
     (shouldExecuteTrade cfg this riskScore o) reasons
     (calculateAdjustedPositionSize o riskScore)
     (calculateAdjustedSlippage cfg riskScore),
   this).

Definition recordTradeStart (now : Z) (this : t) : t :=
  mk (dailyVolume this) (dailyTrades this + 1) (activeTrades this + 1) now
     (dailyResetTime this) (blacklistedTokens this)
     (blacklistedProtocols this).

Definition recordTradeEnd (inputAmount : Z) (success : bool) (this : t) : t :=
  mk (if success then dailyVolume this + inputAmount else dailyVolume this)
     (dailyTrades this) (Z.max 0 (activeTrades this - 1))
     (lastTradeTime this) (dailyResetTime this) (blacklistedTokens this)
     (blacklistedProtocols this).

Definition addTokenToBlacklist (tokenAddress : string) (this : t) : t :=
  mk (dailyVolume this) (dailyTrades this) (activeTrades this)
     (lastTradeTime this) (dailyResetTime this)
     ({[ Js.toLowerCase tokenAddress ]} ∪ blacklistedTokens this)
     (blacklistedProtocols this).

Definition addProtocolToBlacklist (protocolName : string) (this : t) : t :=
  mk (dailyVolume this) (dailyTrades this) (activeTrades this)
     (lastTradeTime this) (dailyResetTime this) (blacklistedTokens this)
     ({[ protocolName ]} ∪ blacklistedProtocols this).

Definition removeTokenFromBlacklist (tokenAddress : string) (this : t) : t :=
  mk (dailyVolume this) (dailyTrades this) (activeTrades this)
     (lastTradeTime this) (dailyResetTime this)
     (blacklistedTokens this ∖ {[ Js.toLowerCase tokenAddress ]})
     (blacklistedProtocols this).

Definition removeProtocolFromBlacklist (protocolName : string) (this : t) : t :=
  mk (dailyVolume this) (dailyTrades this) (activeTrades this)
     (lastTradeTime this) (dailyResetTime this) (blacklistedTokens this)
     (blacklistedProtocols this ∖ {[ protocolName ]}).

End RiskManager.

(** ** Venue clients ([BaseProtocol], [ProtocolManager]) *)

Module Protocol.
(** The abstract methods of [BaseProtocol] the scanner and the orchestrator
    call; each answers with a value or throws. *)
Record t : Type := mk {
  getName : string;
  getQuote : Token.t -> Token.t -> Z -> Pool.t -> Js.completion Z;
  estimateGas : TradeStep.t -> Js.completion Z;
  executeTrade : TradeStep.t -> string -> Js.completion string
}.
End Protocol.

(** [ProtocolManager.getProtocol(protocolName, chainId)]; [None] is
    [undefined]. *)
Definition ProtocolManager : Type := string -> Z -> option Protocol.t.

(** ** One venue client ([UniswapV3Protocol]) *)

Module UniswapV3Protocol.

(** The quoter contract behind the client: constructing the contract handle
    and the static call [quoteExactInputSingle(tokenIn, tokenOut, fee,
    amountIn, 0)] may each throw. *)
Record Quoter : Type := mkQuoter {
  newContract : Js.completion unit;
  quoteExactInputSingle :
    string -> string -> Js.number -> Z -> Js.completion Z
}.

Definition getQuote (quoter : Quoter) (tokenIn tokenOut : Token.t)
    (amountIn : Z) (pool : Pool.t) : Js.completion string :=
  let body :=
    match newContract quoter with
    | Js.Throw e => Js.Throw e
    | Js.Return _ =>
        let fee := Js.round (Js.mul (Pool.fee pool) (Js.ofZ 1000000)) in
        match quoteExactInputSingle quoter (Token.address tokenIn)
                (Token.address tokenOut) fee amountIn with
        | Js.Throw e => Js.Throw e
        | Js.Return amountOut => Js.Return (Js.bigintToString amountOut)
        end
    end in
  match body with
  | Js.Return s => Js.Return s
  | Js.Throw _ => Js.Return "0"%string
  end.

End UniswapV3Protocol.

(** ** The opportunity scanner ([ArbitrageDetector]) *)

Module ArbitrageDetector.

(** [BigInt(amount) * BigInt(Math.floor((1 - slippage) * 1000)) / 1000n];
    [BigInt] of a non-finite number throws a RangeError. *)
Definition calculateMinAmount (amount : Z) (slippage : Js.number)
    : Js.completion Z :=
  let slippageMultiplier := Js.sub (Js.ofZ 1) slippage in
  match Js.toBigInt (Js.floor (Js.mul slippageMultiplier (Js.ofZ 1000))) with
  | Some m => Js.Return (Z.quot (amount * m) 1000)
  | None => Js.Throw (Js.ErrorObj "RangeError"%string)
  end.

Definition calculateConfidence (buyPool sellPool : Pool.t)
    (profitPercentage : Js.number) : Js.number :=
  let confidence := Js.Fin (5 # 10) in
  let buyLiquidity := Js.orZero (Pool.liquidity buyPool) in
  let sellLiquidity := Js.orZero (Pool.liquidity sellPool) in
  let avgLiquidity := Js.div (Js.add buyLiquidity sellLiquidity) (Js.ofZ 2) in
  let confidence :=
    if Js.gt avgLiquidity (Js.ofZ 1000000)
    then Js.add confidence (Js.Fin (2 # 10))
    else if Js.gt avgLiquidity (Js.ofZ 100000)
    then Js.add confidence (Js.Fin (1 # 10))
    else confidence in
  let confidence :=
    if Js.gt profitPercentage (Js.ofZ 2)
    then Js.add confidence (Js.Fin (15 # 100))
    else if Js.gt profitPercentage (Js.ofZ 1)
    then Js.add confidence (Js.Fin (1 # 10))
    else if Js.gt profitPercentage (Js.Fin (5 # 10))
    then Js.add confidence (Js.Fin (5 # 100))
    else confidence in
  let confidence :=
    if negb (String.eqb (Pool.protocol buyPool) (Pool.protocol sellPool))
    then Js.sub confidence (Js.Fin (1 # 10))
    else confidence in
  Js.min (Js.max confidence (Js.ofZ 0)) (Js.ofZ 1).

(** [ethers.parseUnits('1', decimals)] *)
Definition parseUnitsOne (decimals : Z) : Js.completion Z :=
  if decimals <? 0 then Js.Throw (Js.ErrorObj "invalid unit"%string)
  else Js.Return (10 ^ decimals).

Definition bind {A B : Type} (c : Js.completion A)
    (k : A -> Js.completion B) : Js.completion B :=
  match c with
  | Js.Return a => k a
  | Js.Throw e => Js.Throw e
  end.

(** [Number(profit * 10000n / BigInt(amount)) / 100]; a zero divisor throws
    a RangeError. *)
Definition percentOf (profit amount : Z) : Js.completion Js.number :=
  if amount =? 0 then Js.Throw (Js.ErrorObj "Division by zero"%string)
  else Js.Return (Js.div (Js.ofZ (Z.quot (profit * 10000) amount)) (Js.ofZ 100)).

(** The body of [calculateArbitrage], inside its [try]. *)
Definition calculateArbitrageBody (cfg : Config.t) (pm : ProtocolManager)
    (now : Z) (tokenA tokenB : Token.t) (poolA poolB : Pool.t)
    : Js.completion (option Opportunity.t) :=
  bind (parseUnitsOne (Token.decimals tokenA)) (fun testAmount =>
  match pm (Pool.protocol poolA) (Token.chainId tokenA),
        pm (Pool.protocol poolB) (Token.chainId tokenA) with
  | Some protocolA, Some protocolB =>
    bind (Protocol.getQuote protocolA tokenA tokenB testAmount poolA)
      (fun quoteA_to_B =>
    bind (Protocol.getQuote protocolB tokenB tokenA quoteA_to_B poolB)
      (fun quoteB_back =>
    let profit1 := quoteB_back - testAmount in
    bind (percentOf profit1 testAmount) (fun profitPercent1 =>
    bind (Protocol.getQuote protocolB tokenA tokenB testAmount poolB)
      (fun quoteB_to_A =>
    bind (Protocol.getQuote protocolA tokenB tokenA quoteB_to_A poolA)
      (fun quoteA_back =>
    let profit2 := quoteA_back - testAmount in
    bind (percentOf profit2 testAmount) (fun profitPercent2 =>
    let chosen :=
      if Js.gt profitPercent1 profitPercent2 && Js.gt profitPercent1 (Js.ofZ 0)
      then Some (poolA, poolB, profitPercent1, profit1)
      else if Js.gt profitPercent2 (Js.ofZ 0)
      then Some (poolB, poolA, profitPercent2, profit2)
      else None in
    match chosen with
    | None => Js.Return None
    | Some (buyPool, sellPool, profitPercentage, profitAmount) =>
      let routeAB := [Token.address tokenA; Token.address tokenB] in
      let routeBA := [Token.address tokenB; Token.address tokenA] in
      bind (Protocol.estimateGas protocolA
              (TradeStep.mk (Pool.protocol buyPool) tokenA tokenB testAmount 0
                 buyPool routeAB)) (fun gasEstimateBuy =>
      bind (Protocol.estimateGas protocolB
              (TradeStep.mk (Pool.protocol sellPool) tokenB tokenA quoteA_to_B 0
                 sellPool routeBA)) (fun gasEstimateSell =>
      let totalGasEstimate := gasEstimateBuy + gasEstimateSell in
      bind (calculateMinAmount quoteA_to_B (Config.maxSlippage cfg))
        (fun minOut1 =>
      bind (calculateMinAmount quoteB_back (Config.maxSlippage cfg))
        (fun minOut2 =>
      let executionPath :=
        [ TradeStep.mk (Pool.protocol buyPool) tokenA tokenB testAmount minOut1
            buyPool routeAB;
          TradeStep.mk (Pool.protocol sellPool) tokenB tokenA quoteA_to_B
            minOut2 sellPool routeBA ] in
      Js.Return (Some (Opportunity.mk
        (Token.symbol tokenA +:+ "_" +:+ Token.symbol tokenB +:+ "_"
           +:+ Js.bigintToString now)
        tokenA tokenB buyPool sellPool profitPercentage profitAmount
        testAmount (calculateConfidence buyPool sellPool profitPercentage)
        now totalGasEstimate executionPath))))))
    end))))))
  | _, _ => Js.Return None
  end).

(** [calculateArbitrage]: any exception of the body is logged and turned
    into [null].  The display value [potentialEarningsUSD], computed by a
    helper that catches its own errors, is not a field of
    [ArbitrageOpportunity] and is left out. *)
Definition calculateArbitrage (cfg : Config.t) (pm : ProtocolManager)
    (now : Z) (tokenA tokenB : Token.t) (poolA poolB : Pool.t)
    : option Opportunity.t :=
  match calculateArbitrageBody cfg pm now tokenA tokenB poolA poolB with
  | Js.Return r => r
  | Js.Throw _ => None
  end.

(** What the venue of a trade leg quotes for that leg's own swap. *)
Definition quoteForLeg (pm : ProtocolManager) (chainId : Z)
    (leg : TradeStep.t) : option Z :=
  match pm (TradeStep.protocol leg) chainId with
  | Some protocol =>
      match Protocol.getQuote protocol (TradeStep.tokenIn leg)
              (TradeStep.tokenOut leg) (TradeStep.amountIn leg)
              (TradeStep.pool leg) with
      | Js.Return q => Some q
      | Js.Throw _ => None
      end
  | None => None
  end.

End ArbitrageDetector.

(** ** The execution orchestrator ([TradingExecutionEngine]) *)

Module TradingExecutionEngine.

Record ExecutionResult : Type := mkResult {
  success : bool;
  transactionHashes : list string;
  actualProfit : Z;
  gasUsed : Z;
  executionTime : Z;
  error : option string
}.

Record TradeValidation : Type := mkValidation {
  isValid : bool;
  reasons : list string;
  adjustedOpportunity : option Opportunity.t
}.

Inductive Event : Type :=
| ExecutionStarted (opportunityId : string)
| ExecutionSuccess (result : ExecutionResult)
| ExecutionFailed (result : ExecutionResult).

Inductive EventName : Type :=
| execution_started | execution_success | execution_failed.

Definition eventName (ev : Event) : EventName :=
  match ev with
  | ExecutionStarted _ => execution_started
  | ExecutionSuccess _ => execution_success
  | ExecutionFailed _ => execution_failed
  end.

(** A transaction receipt, as far as it is read. *)
Record Receipt : Type := mkReceipt {
  status : option Z;
  receiptGasUsed : Z
}.

Inductive Phase : Type := BeforeTrades | AfterTrades.

(** Everything outside the engine that one call of [executeOpportunity]
    talks to.  Every answer is a value or an exception. *)
Record World : Type := mkWorld {
  predictOpportunity : Opportunity.t -> Js.completion Prediction.t;
  protocolManager : ProtocolManager;
  walletGetAddress : Js.completion string;
  (** [provider.getBalance(wallet)] *)
  getBalance : Phase -> string -> Js.completion Z;
  (** [tokenContract.balanceOf(wallet)] on the token at an address *)
  balanceOf : Phase -> string -> string -> Js.completion Z;
  (** [Number((await provider.getNetwork()).chainId)] *)
  getNetworkChainId : Js.completion Z;
  (** [tokenContract.allowance(wallet, router)] *)
  allowance : string -> string -> string -> Js.completion Z;
  (** building, signing, broadcasting and awaiting an approval *)
  submitApproval : string -> string -> Js.completion unit;
  waitForTransaction : string -> Js.completion (option Receipt);
  (** what the listeners registered for an event do when it is emitted:
      [None] when they all return, [Some e] when one throws [e] *)
  listeners : EventName -> option Js.thrown;
  (** [Date.now()] at the entry and at the exit of [executeOpportunity],
      inside [validateOpportunity], and at the entry and at the exit of
      [executeTrades] *)
  startTime : Z;
  endTime : Z;
  validationTime : Z;
  tradesStartTime : Z;
  tradesEndTime : Z;
  (** rendering of numbers inside messages: [`${x}`] and [x.toFixed(1)] *)
  showNumber : Js.number -> string;
  toFixed1 : Js.number -> string
}.

(** The fields of the engine, with two traces added for the statements
    below: the events emitted and the legs handed to [executeTrade]. *)
Record t : Type := mk {
  walletReady : bool;
  isExecuting : bool;
  executionHistory : list ExecutionResult;
  emitted : list Event;
  submitted : list TradeStep.t
}.

(** Computations that read and write the engine and may throw. *)
Definition M (A : Type) : Type := t -> Js.completion A * t.

Definition ret {A : Type} (a : A) : M A := fun s => (Js.Return a, s).

Definition throw {A : Type} (message : string) : M A :=
  fun s => (Js.Throw (Js.ErrorObj message), s).

Definition bind {A B : Type} (m : M A) (k : A -> M B) : M B :=
  fun s =>
    match m s with
    | (Js.Return a, s') => k a s'
    | (Js.Throw e, s') => (Js.Throw e, s')
    end.

Notation "x <- m ;; k" := (bind m (fun x => k))
  (at level 100, m at next level, right associativity).
Notation "m ;;; k" := (bind m (fun _ => k))
  (at level 100, right associativity).

(** An external call. *)
Definition call {A : Type} (c : Js.completion A) : M A := fun s => (c, s).

(** [try { body } catch (e) { handler e }] *)
Definition tryCatch {A : Type} (body : M A) (handler : Js.thrown -> M A)
    : M A :=
  fun s =>
    match body s with
    | (Js.Return a, s') => (Js.Return a, s')
    | (Js.Throw e, s') => handler e s'
    end.

(** [try { body } finally { cleanup }], for a cleanup that cannot throw. *)
Definition tryFinally {A : Type} (body : M A) (cleanup : t -> t) : M A :=
  fun s => let (r, s') := body s in (r, cleanup s').

Definition modify (f : t -> t) : M unit := fun s => (Js.Return tt, f s).

Definition setExecuting (b : bool) (s : t) : t :=
  mk (walletReady s) b (executionHistory s) (emitted s) (submitted s).

Definition pushHistory (r : ExecutionResult) (s : t) : t :=
  mk (walletReady s) (isExecuting s) (executionHistory s ++ [r]) (emitted s)
     (submitted s).

Definition logEvent (ev : Event) (s : t) : t :=
  mk (walletReady s) (isExecuting s) (executionHistory s) (emitted s ++ [ev])
     (submitted s).

Definition logSubmission (step : TradeStep.t) (s : t) : t :=
  mk (walletReady s) (isExecuting s) (executionHistory s) (emitted s)
     (submitted s ++ [step]).

(** [this.emit(name, payload)]: listeners run synchronously. *)
Definition emit (w : World) (ev : Event) : M unit :=
  modify (logEvent ev) ;;;
  match listeners w (eventName ev) with
  | None => ret tt
  | Some e => call (Js.Throw e)
  end.

Definition ZeroAddress : string :=
  "0x0000000000000000000000000000000000000000"%string.

(** [BigInt(amount) * BigInt(Math.floor((1 - maxSlippage) * 10000)) / 10000n] *)
Definition calculateSlippageProtectedAmount (amount : Z)
    (maxSlippage : Js.number) : Js.completion Z :=
  let slippageMultiplier := Js.sub (Js.ofZ 1) maxSlippage in
  match Js.toBigInt (Js.floor (Js.mul slippageMultiplier (Js.ofZ 10000))) with
  | Some m => Js.Return (Z.quot (amount * m) 10000)
  | None => Js.Throw (Js.ErrorObj "RangeError"%string)
  end.

(** [executionPath.map((step, index) => ...)] of [validateOpportunity] *)
Fixpoint requoteSteps (cfg : Config.t) (inputAmount currentBuyQuote
    currentSellQuote : Z) (index : nat) (steps : list TradeStep.t)
    : Js.completion (list TradeStep.t) :=
  match steps with
  | [] => Js.Return []
  | step :: rest =>
      ArbitrageDetector.bind
        (calculateSlippageProtectedAmount
           (if Nat.eqb index 0 then currentBuyQuote else currentSellQuote)
           (Config.maxSlippage cfg)) (fun minOut =>
      ArbitrageDetector.bind
        (requoteSteps cfg inputAmount currentBuyQuote currentSellQuote
           (S index) rest) (fun rest' =>
      Js.Return
        (TradeStep.mk (TradeStep.protocol step) (TradeStep.tokenIn step)
           (TradeStep.tokenOut step)
           (if Nat.eqb index 0 then inputAmount else currentBuyQuote)
           minOut (TradeStep.pool step) (TradeStep.route step) :: rest')))
  end.

(** The body of [validateOpportunity], inside its [try]. *)
Definition validateOpportunityBody (cfg : Config.t) (w : World)
    (o : Opportunity.t) : Js.completion TradeValidation :=
  let chain := Token.chainId (Opportunity.tokenA o) in
  match protocolManager w (Pool.protocol (Opportunity.buyPool o)) chain,
        protocolManager w (Pool.protocol (Opportunity.sellPool o)) chain with
  | Some buyProtocol, Some sellProtocol =>
    ArbitrageDetector.bind
      (Protocol.getQuote buyProtocol (Opportunity.tokenA o)
         (Opportunity.tokenB o) (Opportunity.inputAmount o)
         (Opportunity.buyPool o)) (fun currentBuyQuote =>
    ArbitrageDetector.bind
      (Protocol.getQuote sellProtocol (Opportunity.tokenB o)
         (Opportunity.tokenA o) currentBuyQuote (Opportunity.sellPool o))
      (fun currentSellQuote =>
    let currentProfit := currentSellQuote - Opportunity.inputAmount o in
    ArbitrageDetector.bind
      (ArbitrageDetector.percentOf currentProfit (Opportunity.inputAmount o))
      (fun currentProfitPercent =>
    let reasons1 :=
      if Js.lt currentProfitPercent (Config.minProfitThreshold cfg)
      then ["Profit below threshold: " +:+ showNumber w currentProfitPercent
              +:+ "% < " +:+ showNumber w (Config.minProfitThreshold cfg)
              +:+ "%"]%string
      else [] in
    let profitDegradation :=
      Js.div (Js.sub (Opportunity.profitPercentage o) currentProfitPercent)
             (Opportunity.profitPercentage o) in
    let reasons2 :=
      if Js.gt profitDegradation (Js.Fin (5 # 10))
      then reasons1 ++
           ["Profit degraded by " +:+
              toFixed1 w (Js.mul profitDegradation (Js.ofZ 100)) +:+ "%"]%string
      else reasons1 in
    match reasons2 with
    | [] =>
        ArbitrageDetector.bind
          (requoteSteps cfg (Opportunity.inputAmount o) currentBuyQuote
             currentSellQuote 0 (Opportunity.executionPath o)) (fun path =>
        Js.Return (mkValidation true reasons2
          (Some (Opportunity.mk (Opportunity.id o) (Opportunity.tokenA o)
             (Opportunity.tokenB o) (Opportunity.buyPool o)
             (Opportunity.sellPool o) currentProfitPercent currentProfit
             (Opportunity.inputAmount o) (Opportunity.confidence o)
             (validationTime w) (Opportunity.gasEstimate o) path))))
    | _ => Js.Return (mkValidation false reasons2 None)
    end)))
  | _, _ => Js.Return (mkValidation false ["Protocol not available"%string] None)
  end.

Definition validateOpportunity (cfg : Config.t) (w : World)
    (o : Opportunity.t) : TradeValidation :=
  match validateOpportunityBody cfg w o with
  | Js.Return v => v
  | Js.Throw e =>
      mkValidation false
        [("Validation error: " +:+ Js.messageOr "Unknown error" e)%string] None
  end.

Definition ensureApproval (w : World) (tokenAddress protocolName : string)
    (amount : Z) : M unit :=
  fun s =>
    if negb (walletReady s) then ret tt s
    else
      (chainId <- call (getNetworkChainId w) ;;
       match protocolManager w protocolName chainId with
       | None => throw ("Protocol " +:+ protocolName +:+ " not found")
       | Some _ =>
           let routerAddress := ZeroAddress in
           walletAddress <- call (walletGetAddress w) ;;
           currentAllowance <-
             call (allowance w tokenAddress walletAddress routerAddress) ;;
           if currentAllowance <? amount
           then call (submitApproval w tokenAddress routerAddress)
           else ret tt
       end) s.

Definition checkBalancesAndApprovals (w : World) (o : Opportunity.t)
    : M unit :=
  fun s =>
    if negb (walletReady s) then throw "Wallet not initialized" s
    else
      (let tokenA := Opportunity.tokenA o in
       let inputAmount := Opportunity.inputAmount o in
       walletAddress <- call (walletGetAddress w) ;;
       balance <-
         (if String.eqb (Token.address tokenA) ZeroAddress
          then call (getBalance w BeforeTrades walletAddress)
          else call (balanceOf w BeforeTrades (Token.address tokenA)
                       walletAddress)) ;;
       if balance <? inputAmount
       then throw ("Insufficient balance. Have: " +:+ Js.bigintToString balance
                     +:+ ", Need: " +:+ Js.bigintToString inputAmount)
       else
         (if negb (String.eqb (Token.address tokenA) ZeroAddress)
          then ensureApproval w (Token.address tokenA)
                 (Pool.protocol (Opportunity.buyPool o)) inputAmount
          else ret tt) ;;;
         match Opportunity.executionPath o with
         | [] => throw "Cannot read properties of undefined"
         | first :: _ =>
             let intermediateAmount := TradeStep.amountOutMin first in
             if negb (String.eqb (Token.address (Opportunity.tokenB o))
                        ZeroAddress)
             then ensureApproval w (Token.address (Opportunity.tokenB o))
                    (Pool.protocol (Opportunity.sellPool o)) intermediateAmount
             else ret tt
         end) s.

Definition getTokenBalance (w : World) (tokenAddress walletAddress : string)
    : M Z :=
  fun s =>
    if negb (walletReady s) then ret 0 s
    else if String.eqb tokenAddress ZeroAddress
    then call (getBalance w AfterTrades walletAddress) s
    else call (balanceOf w AfterTrades tokenAddress walletAddress) s.

Definition showStatus (st : option Z) : string :=
  match st with
  | Some z => Js.bigintToString z
  | None => "null"%string
  end.

(** What the loop of [executeTrades] leaves behind: the exception that
    ended it, if any, and the two accumulators [transactionHashes] and
    [totalGasUsed]. *)
Record LoopState : Type := mkLoop {
  raised : option Js.thrown;
  hashes : list string;
  totalGasUsed : Z
}.

Definition raise (message : string) (acc : LoopState) : LoopState :=
  mkLoop (Some (Js.ErrorObj message)) (hashes acc) (totalGasUsed acc).

Definition raiseThrown (e : Js.thrown) (acc : LoopState) : LoopState :=
  mkLoop (Some e) (hashes acc) (totalGasUsed acc).

(** The [for] loop over [executionPath]: one iteration per remaining step,
    stopping at the first exception. *)
Fixpoint executeSteps (w : World) (chainId : Z) (steps : list TradeStep.t)
    (acc : LoopState) (s : t) : LoopState * t :=
  match steps with
  | [] => (acc, s)
  | step :: rest =>
      match protocolManager w (TradeStep.protocol step) chainId with
      | None =>
          (raise ("Protocol " +:+ TradeStep.protocol step +:+ " not found") acc,
           s)
      | Some protocol =>
          let privateKey := "0x"%string in
          let s := logSubmission step s in
          match Protocol.executeTrade protocol step privateKey with
          | Js.Throw e => (raiseThrown e acc, s)
          | Js.Return txHash =>
              match waitForTransaction w txHash with
              | Js.Throw e => (raiseThrown e acc, s)
              | Js.Return None =>
                  (raise ("Transaction " +:+ txHash +:+ " failed to confirm")
                     acc, s)
              | Js.Return (Some receipt) =>
                  if negb (bool_decide (status receipt = Some 1))
                  then (raise ("Transaction " +:+ txHash +:+
                                 " failed with status " +:+
                                 showStatus (status receipt)) acc, s)
                  else
                    executeSteps w chainId rest
                      (mkLoop None (hashes acc ++ [txHash])
                         (totalGasUsed acc + receiptGasUsed receipt)) s
              end
          end
      end
  end.

Definition executeTrades (w : World) (o : Opportunity.t)
    : M ExecutionResult :=
  fun s =>
    if negb (walletReady s) then throw "Wallet not initialized" s
    else
      let elapsed := tradesEndTime w - tradesStartTime w in
      let failure (e : Js.thrown) (acc : LoopState) :=
        mkResult false (hashes acc) 0 (totalGasUsed acc) elapsed
          (Some (Js.messageOr "Unknown execution error" e)) in
      match walletGetAddress w with
      | Js.Throw e => (Js.Return (failure e (mkLoop None [] 0)), s)
      | Js.Return walletAddress =>
          let (acc, s) :=
            executeSteps w (Token.chainId (Opportunity.tokenA o))
              (Opportunity.executionPath o) (mkLoop None [] 0) s in
          match raised acc with
          | Some e => (Js.Return (failure e acc), s)
          | None =>
              match getTokenBalance w (Token.address (Opportunity.tokenA o))
                      walletAddress s with
              | (Js.Throw e, s) => (Js.Return (failure e acc), s)
              | (Js.Return finalBalance, s) =>
                  let actualProfit :=
                    finalBalance - Opportunity.inputAmount o in
                  (Js.Return
                     (mkResult true (hashes acc) actualProfit
                        (totalGasUsed acc) elapsed None), s)
              end
          end
      end.

(** The [try] block of [executeOpportunity]. *)
Definition executePipeline (cfg : Config.t) (w : World) (o : Opportunity.t)
    : M ExecutionResult :=
  emit w (ExecutionStarted (Opportunity.id o)) ;;;
  aiPrediction <- call (predictOpportunity w o) ;;
  if Js.lt (Prediction.confidence aiPrediction)
       (Config.predictionConfidenceThreshold cfg)
  then throw ("AI confidence too low: " +:+
                showNumber w (Prediction.confidence aiPrediction))
  else
    let validation := validateOpportunity cfg w o in
    if negb (isValid validation)
    then throw ("Validation failed: " +:+
                  String.concat ", " (reasons validation))
    else
      let validatedOpportunity :=
        match adjustedOpportunity validation with
        | Some adjusted => adjusted
        | None => o
        end in
      checkBalancesAndApprovals w validatedOpportunity ;;;
      executionResult <- executeTrades w validatedOpportunity ;;
      modify (pushHistory executionResult) ;;;
      (if success executionResult
       then emit w (ExecutionSuccess executionResult)
       else emit w (ExecutionFailed executionResult)) ;;;
      ret executionResult.

(** The result built by the [catch] block of [executeOpportunity]. *)
Definition failedResult (w : World) (e : Js.thrown) : ExecutionResult :=
  mkResult false [] 0 0 (endTime w - startTime w)
    (Some (Js.messageOr "Unknown error" e)).

Definition executeOpportunity (cfg : Config.t) (w : World)
    (o : Opportunity.t) : M ExecutionResult :=
  fun s =>
    if isExecuting s then throw "Another trade is currently executing" s
    else if negb (Config.tradingEnabled cfg)
    then throw "Trading is disabled in configuration" s
    else
      (modify (setExecuting true) ;;;
       tryFinally
         (tryCatch (executePipeline cfg w o) (fun e =>
            modify (pushHistory (failedResult w e)) ;;;
            emit w (ExecutionFailed (failedResult w e)) ;;;
            ret (failedResult w e)))
         (setExecuting false)) s.

End TradingExecutionEngine.

(** ** Varying one input of an assessment *)

Module Vary.

Definition poolLiquidity (l : Js.number) (p : Pool.t) : Pool.t :=
  Pool.mk (Pool.id p) (Pool.protocol p) (Pool.tokenA p) (Pool.tokenB p)
    (Pool.reserve0 p) (Pool.reserve1 p) (Pool.fee p) l (Pool.chainId p).

(** The opportunity with the liquidity of its two pools replaced. *)
Definition liquidity (buy sell : Js.number) (o : Opportunity.t)
    : Opportunity.t :=
  Opportunity.mk (Opportunity.id o) (Opportunity.tokenA o)
    (Opportunity.tokenB o) (poolLiquidity buy (Opportunity.buyPool o))
    (poolLiquidity sell (Opportunity.sellPool o))
    (Opportunity.profitPercentage o) (Opportunity.profitAmount o)
    (Opportunity.inputAmount o) (Opportunity.confidence o)
    (Opportunity.timestamp o) (Opportunity.gasEstimate o)
    (Opportunity.executionPath o).

Definition profitPercentage (p : Js.number) (o : Opportunity.t)
    : Opportunity.t :=
  Opportunity.mk (Opportunity.id o) (Opportunity.tokenA o)
    (Opportunity.tokenB o) (Opportunity.buyPool o) (Opportunity.sellPool o)
    p (Opportunity.profitAmount o) (Opportunity.inputAmount o)
    (Opportunity.confidence o) (Opportunity.timestamp o)
    (Opportunity.gasEstimate o) (Opportunity.executionPath o).

Definition timestamp (ts : Z) (o : Opportunity.t) : Opportunity.t :=
  Opportunity.mk (Opportunity.id o) (Opportunity.tokenA o)
    (Opportunity.tokenB o) (Opportunity.buyPool o) (Opportunity.sellPool o)
    (Opportunity.profitPercentage o) (Opportunity.profitAmount o)
    (Opportunity.inputAmount o) (Opportunity.confidence o) ts
    (Opportunity.gasEstimate o) (Opportunity.executionPath o).

Definition activeTrades (n : Z) (this : RiskManager.t) : RiskManager.t :=
  RiskManager.mk (RiskManager.dailyVolume this) (RiskManager.dailyTrades this)
    n (RiskManager.lastTradeTime this) (RiskManager.dailyResetTime this)
    (RiskManager.blacklistedTokens this)
    (RiskManager.blacklistedProtocols this).

End Vary.

(** The score [assessRisk] reports. *)
Definition riskScoreOf (cfg : Config.t) (now : Z) (this : RiskManager.t)
    (o : Opportunity.t) (ai : option Prediction.t) : Z :=
  RiskManager.riskScore (fst (RiskManager.assessRisk cfg now this o ai)).

(** The ledger [assessRisk] works on, after its daily-reset check. *)
Definition rolled (now : Z) (this : RiskManager.t) : RiskManager.t :=
  if now >? RiskManager.dailyResetTime this
  then RiskManager.resetDailyLimits now this else this.

(** The contribution of the optional AI annotation. *)
Definition aiPartial (ai : option Prediction.t) : RiskManager.Partial :=
  match ai with
  | Some p => RiskManager.assessAIPredictionRisk p
  | None => RiskManager.mkPartial 0 []
  end.

(** The liquidity score as a function of [minLiquidity] and
    [positionSize]. *)
Definition liquidityScore (minLiquidity positionSize : Js.number) : Z :=
  (if Js.lt minLiquidity (Js.ofZ 10000) then 30
   else if Js.lt minLiquidity (Js.ofZ 100000) then 15 else 0)
  + (if Js.gt (Js.div positionSize minLiquidity) (Js.Fin (5 # 100)) then 25
     else if Js.gt (Js.div positionSize minLiquidity) (Js.Fin (2 # 100))
     then 10 else 0).

(** The profit score as a function of the profit percentage. *)
Definition profitScore (p : Js.number) : Z :=
  (if Js.gt p (Js.ofZ 5) then 20 else if Js.gt p (Js.ofZ 2) then 5 else 0)
  + (if Js.lt p (Js.Fin (1 # 10)) then 25
     else if Js.lt p (Js.Fin (2 # 10)) then 10 else 0).

(** Whether the leg's venue exists, accepts the leg and the transaction is
    confirmed with status 1. *)
Definition confirmedSuccess (w : TradingExecutionEngine.World) (chainId : Z)
    (step : TradeStep.t) : bool :=
  match TradingExecutionEngine.protocolManager w (TradeStep.protocol step)
          chainId with
  | Some protocol =>
      match Protocol.executeTrade protocol step "0x" with
      | Js.Return txHash =>
          match TradingExecutionEngine.waitForTransaction w txHash with
          | Js.Return (Some receipt) =>
              bool_decide (TradingExecutionEngine.status receipt = Some 1)
          | _ => false
          end
      | Js.Throw _ => false
      end
  | None => false
  end.

(** Whether a reason names a threshold (in any letter case). *)
Definition mentionsThreshold (reason : string) : bool :=
  Js.strIncludes (Js.toLowerCase reason) "threshold".

(** ** Concrete inputs *)

Module Sample.

Definition usdc : Token.t :=
  Token.mk "0xA0b86a33E6441bF7605308D4395B2863dbDB0413" "USDC" "USD Coin" 6 1.
Definition usdt : Token.t :=
  Token.mk "0xdAC17F958D2ee523a2206206994597C13D831ec7" "USDT" "Tether USD" 6 1.
Definition weth : Token.t :=
  Token.mk "0xC02aaA39b223FE8D0A0e5C4F27eAD9083C756Cc2" "WETH" "Wrapped Ether"
    18 1.
Definition foo : Token.t :=
  Token.mk "0x00000000000000000000000000000000000000F0" "FOO" "Foo" 18 1.
Definition bar : Token.t :=
  Token.mk "0x00000000000000000000000000000000000000BA" "BAR" "Bar" 18 1.

(** A pool of a venue on a pair, with the liquidity of the test-suite pools
    (1e21). *)
Definition pool (id venue : string) (a b : Token.t) : Pool.t :=
  Pool.mk id venue a b 1000000000000 500000000000000000000
    (Js.Fin (3 # 1000)) (Js.ofZ 1000000000000000000000) 1.

Definition cfg : Config.t :=
  Config.mk (Js.Fin (5 # 10)) (Js.Fin (2 # 100)) (Js.ofZ 1000) true
    100000000000 (Js.Fin (75 # 100)).

(** Trading switched off. *)
Definition cfgDisabled : Config.t :=
  Config.mk (Js.Fin (5 # 10)) (Js.Fin (2 # 100)) (Js.ofZ 1000) false
    100000000000 (Js.Fin (75 # 100)).

(** An opportunity on a pair across two pools, with a profit percentage and
    an input of 100 units of 1e18, detected at time 0. *)
Definition opportunity (a b : Token.t) (buy sell : Pool.t) (profit : Q)
    : Opportunity.t :=
  Opportunity.mk "test-opportunity" a b buy sell (Js.Fin profit)
    1000000000000000000 100000000000000000000 (Js.Fin (8 # 10)) 0 200000 [].

(** Scenario B: USDC/WETH across two trusted venues at 0.05 % profit. *)
Definition thinMargin : Opportunity.t :=
  opportunity usdc weth (pool "0x123" "uniswap_v2" usdc weth)
    (pool "0x456" "sushiswap" usdc weth) (5 # 100).

(** A stablecoin pair on one trusted venue at 0.5 % profit. *)
Definition stablePair : Opportunity.t :=
  opportunity usdc usdt (pool "0x123" "uniswap_v2" usdc usdt)
    (pool "0x456" "uniswap_v2" usdc usdt) (5 # 10).

(** An unknown pair on one trusted venue at 0.15 % profit. *)
Definition unknownPair : Opportunity.t :=
  opportunity foo bar (pool "0x123" "uniswap_v2" foo bar)
    (pool "0x456" "uniswap_v2" foo bar) (15 # 100).

Definition confident : Prediction.t :=
  Prediction.mk (Js.Fin (8 # 10)) (Js.Fin (3 # 10)) (Js.Fin (9 # 10)) 0.

(** A fresh ledger created at time 0, and one that has recorded seven
    trades of one unit each on its first day. *)
Definition ledger : RiskManager.t := RiskManager.create 0.

Definition busyLedger : RiskManager.t :=
  RiskManager.mk 7000000000000000000 7 0 1000 RiskManager.msPerDay ∅ ∅.

Definition blacklistingLedger : RiskManager.t :=
  RiskManager.addTokenToBlacklist (Token.address usdc) ledger.

(** Two venues quoting USDC/WETH: the first pays [2 * amount + 7] WETH units
    per USDC unit and half back; the second pays 1.95 and 0.5055 back.
    Legs report the hashes "0xleg1" (selling USDC) and "0xleg2". *)
Definition legHash (step : TradeStep.t) : string :=
  if String.eqb (Token.symbol (TradeStep.tokenIn step)) "USDC"
  then "0xleg1" else "0xleg2".

Definition venueA : Protocol.t :=
  Protocol.mk "uniswap_v2"
    (fun tokenIn _ amountIn _ =>
       if String.eqb (Token.symbol tokenIn) "USDC"
       then Js.Return (amountIn * 2 + 7) else Js.Return (amountIn / 2))
    (fun _ => Js.Return 150000)
    (fun step _ => Js.Return (legHash step)).

Definition venueB : Protocol.t :=
  Protocol.mk "sushiswap"
    (fun tokenIn _ amountIn _ =>
       if String.eqb (Token.symbol tokenIn) "USDC"
       then Js.Return (amountIn * 195 / 100)
       else Js.Return (amountIn * 5055 / 10000))
    (fun _ => Js.Return 160000)
    (fun step _ => Js.Return (legHash step)).

Definition venues : ProtocolManager :=
  fun protocolName _ =>
    if String.eqb protocolName "uniswap_v2" then Some venueA
    else if String.eqb protocolName "sushiswap" then Some venueB
    else None.

Definition poolA : Pool.t := pool "0x123" "uniswap_v2" usdc weth.
Definition poolB : Pool.t := pool "0x456" "sushiswap" usdc weth.

(** A quoter whose static call reverts, and one that quotes zero. *)
Definition failingQuoter : UniswapV3Protocol.Quoter :=
  UniswapV3Protocol.mkQuoter (Js.Return tt)
    (fun _ _ _ _ => Js.Throw (Js.ErrorObj "execution reverted")).

Definition zeroQuoter : UniswapV3Protocol.Quoter :=
  UniswapV3Protocol.mkQuoter (Js.Return tt) (fun _ _ _ _ => Js.Return 0).

(** The opportunity the scanner detects on the two sample pools. *)
Definition detected : Opportunity.t :=
  match ArbitrageDetector.calculateArbitrage cfg venues 5 usdc weth poolA
          poolB with
  | Some o => o
  | None => thinMargin
  end.

(** A world in which the first leg is confirmed with status 1 and the
    second with status 0; the wallet holds two units of USDC and every
    allowance is in place. *)
Definition world (ai : Prediction.t) : TradingExecutionEngine.World :=
  TradingExecutionEngine.mkWorld
    (fun _ => Js.Return ai)
    venues
    (Js.Return "0xWallet"%string)
    (fun _ _ => Js.Return 0)
    (fun _ _ _ => Js.Return 2000000)
    (Js.Return 1)
    (fun _ _ _ => Js.Return 1000000000000)
    (fun _ _ => Js.Return tt)
    (fun txHash =>
       if String.eqb txHash "0xleg1"
       then Js.Return (Some (TradingExecutionEngine.mkReceipt (Some 1) 120000))
       else Js.Return (Some (TradingExecutionEngine.mkReceipt (Some 0) 90000)))
    (fun _ => None)
    1000 9000 2000 3000 8000
    (fun _ => "n"%string)
    (fun _ => "n.n"%string).

Definition hesitant : Prediction.t :=
  Prediction.mk (Js.Fin (5 # 10)) (Js.Fin (3 # 10)) (Js.Fin (9 # 10)) 0.

(** An initialised engine at rest, and one in the middle of a trade. *)
Definition idleEngine : TradingExecutionEngine.t :=
  TradingExecutionEngine.mk true false [] [] [].

Definition busyEngine : TradingExecutionEngine.t :=
  TradingExecutionEngine.mk true true [] [] [].

End Sample.

(** ** Further code of the cited files *)

From Stdlib Require Import Sorted Permutation.

(** *** The ledger under sequences of calls ([RiskManager]) *)

Module Ledger.

(** One call of a public method of the risk manager. *)
Inductive Call : Type :=
| AssessRisk (cfg : Config.t) (now : Z) (o : Opportunity.t)
    (ai : option Prediction.t)
| RecordTradeStart (now : Z)
| RecordTradeEnd (inputAmount : Z) (success : bool)
| AddTokenToBlacklist (tokenAddress : string)
| AddProtocolToBlacklist (protocolName : string)
| RemoveTokenFromBlacklist (tokenAddress : string)
| RemoveProtocolFromBlacklist (protocolName : string).

Definition perform (this : RiskManager.t) (c : Call) : RiskManager.t :=
  match c with
  | AssessRisk cfg now o ai => snd (RiskManager.assessRisk cfg now this o ai)
  | RecordTradeStart now => RiskManager.recordTradeStart now this
  | RecordTradeEnd amount ok => RiskManager.recordTradeEnd amount ok this
  | AddTokenToBlacklist a => RiskManager.addTokenToBlacklist a this
  | AddProtocolToBlacklist p => RiskManager.addProtocolToBlacklist p this
  | RemoveTokenFromBlacklist a => RiskManager.removeTokenFromBlacklist a this
  | RemoveProtocolFromBlacklist p =>
      RiskManager.removeProtocolFromBlacklist p this
  end.

(** The calls in order, on an instance. *)
Definition performAll (this : RiskManager.t) (calls : list Call)
    : RiskManager.t :=
  fold_left perform calls this.

Definition isStart (c : Call) : bool :=
  match c with RecordTradeStart _ => true | _ => false end.

(** Whether every [recordTradeEnd] of the sequence reports a non-negative
    amount. *)
Definition nonNegativeAmounts (calls : list Call) : bool :=
  forallb (fun c => match c with
                    | RecordTradeEnd amount _ => 0 <=? amount
                    | _ => true
                    end) calls.

(** The calls other than [recordTradeStart] and [recordTradeEnd]. *)
Definition keepsActiveTrades (c : Call) : bool :=
  match c with
  | RecordTradeStart _ | RecordTradeEnd _ _ => false
  | _ => true
  end.

End Ledger.

(** *** Shared helpers of the venue clients ([BaseProtocol]) *)

Module BaseProtocol.

(** [calculatePriceImpact(amountIn, reserve0, reserve1)], in percent; bigint
    division by zero throws a RangeError. *)
Definition calculatePriceImpact (amountIn reserve0 reserve1 : Z)
    : Js.completion Js.number :=
  let k := reserve0 * reserve1 in
  let newReserve0 := reserve0 + amountIn in
  if newReserve0 =? 0 then Js.Throw (Js.ErrorObj "Division by zero")
  else
    let newReserve1 := Z.quot k newReserve0 in
    if reserve1 =? 0 then Js.Throw (Js.ErrorObj "Division by zero")
    else
      Js.Return
        (Js.div (Js.ofZ (Z.quot ((reserve1 - newReserve1) * 10000) reserve1))
                (Js.ofZ 100)).

End BaseProtocol.

(** *** The rest of the Uniswap V3 client *)

Module UniswapV3Client.

(** The argument of [exactInputSingle]. *)
Record SwapParams : Type := mkParams {
  paramTokenIn : string;
  paramTokenOut : string;
  paramFee : Js.number;
  paramRecipient : string;
  paramDeadline : Z;
  paramAmountIn : Z;
  paramAmountOutMinimum : Z
}.

(** The router contract and the signer library behind the client. *)
Record Router : Type := mkRouter {
  (** [new ethers.Wallet(privateKey, provider)]: the wallet address *)
  newWallet : string -> Js.completion string;
  (** [new ethers.Contract(routerAddress, abi, signerOrProvider)] *)
  newRouter : Js.completion unit;
  (** [router.exactInputSingle.estimateGas(params)] *)
  estimateGasCall : SwapParams -> Js.completion Z;
  (** [router.exactInputSingle(params)] followed by [tx.wait()]: the hash
      of the receipt *)
  swapAndWait : SwapParams -> Js.completion string
}.

(** [Math.floor(Date.now() / 1000) + 1200] *)
Definition deadlineAt (now : Z) : Z := now / 1000 + 1200.

Definition feeOf (step : TradeStep.t) : Js.number :=
  Js.round (Js.mul (Pool.fee (TradeStep.pool step)) (Js.ofZ 1000000)).

Definition estimateGas (router : Router) (now : Z) (step : TradeStep.t)
    : Js.completion string :=
  let body :=
    match newRouter router with
    | Js.Throw e => Js.Throw e
    | Js.Return _ =>
        let params :=
          mkParams (Token.address (TradeStep.tokenIn step))
            (Token.address (TradeStep.tokenOut step)) (feeOf step)
            TradingExecutionEngine.ZeroAddress (deadlineAt now)
            (TradeStep.amountIn step) (TradeStep.amountOutMin step) in
        match estimateGasCall router params with
        | Js.Throw e => Js.Throw e
        | Js.Return gasEstimate => Js.Return (Js.bigintToString gasEstimate)
        end
    end in
  match body with
  | Js.Return s => Js.Return s
  | Js.Throw _ => Js.Return "250000"%string
  end.

(** [executeTrade]: the wallet and the router handle are built outside the
    [try]; the [catch] logs and rethrows. *)
Definition executeTrade (router : Router) (now : Z) (step : TradeStep.t)
    (privateKey : string) : Js.completion string :=
  match newWallet router privateKey with
  | Js.Throw e => Js.Throw e
  | Js.Return walletAddress =>
      match newRouter router with
      | Js.Throw e => Js.Throw e
      | Js.Return _ =>
          let params :=
            mkParams (Token.address (TradeStep.tokenIn step))
              (Token.address (TradeStep.tokenOut step)) (feeOf step)
              walletAddress (deadlineAt now) (TradeStep.amountIn step)
              (TradeStep.amountOutMin step) in
          match swapAndWait router params with
          | Js.Return hash => Js.Return hash
          | Js.Throw e => Js.Throw e
          end
      end
  end.

(** The factory and the pool contracts behind [getPoolsFromContract]. *)
Record Factory : Type := mkFactory {
  newFactory : Js.completion unit;
  (** [factory.getPool(tokenA, tokenB, fee)] *)
  getPool : string -> string -> Z -> Js.completion string;
  (** [Promise.all([slot0(), liquidity(), token0(), token1()])] on the pool
      at an address: the liquidity and the addresses of token0 and token1 *)
  readPool : string -> Js.completion (Z * string * string)
}.

Definition commonFees : list Z := [500; 3000; 10000].

Definition name : string := "uniswap_v3".

(** One iteration of the loop over [commonFees]: the pool to push, if any. *)
Definition poolForFee (factory : Factory) (chainId : Z)
    (tokenA tokenB : Token.t) (fee : Z) : option Pool.t :=
  match getPool factory (Token.address tokenA) (Token.address tokenB) fee with
  | Js.Throw _ => None
  | Js.Return poolAddress =>
      if String.eqb poolAddress TradingExecutionEngine.ZeroAddress then None
      else
        match readPool factory poolAddress with
        | Js.Throw _ => None
        | Js.Return (liquidity, token0Address, _) =>
            let '(token0, token1) :=
              if String.eqb (Js.toLowerCase token0Address)
                   (Js.toLowerCase (Token.address tokenA))
              then (tokenA, tokenB) else (tokenB, tokenA) in
            Some (Pool.mk poolAddress name token0 token1 0 0
                    (Js.div (Js.ofZ fee) (Js.ofZ 1000000))
                    (Js.ofZ liquidity) chainId)
        end
  end.

Definition getPoolsFromContract (factory : Factory) (chainId : Z)
    (tokenA tokenB : Token.t) : Js.completion (list Pool.t) :=
  match newFactory factory with
  | Js.Throw e => Js.Throw e
  | Js.Return _ =>
      Js.Return
        (flat_map (fun fee =>
                     match poolForFee factory chainId tokenA tokenB fee with
                     | Some p => [p]
                     | None => []
                     end) commonFees)
  end.

(** [getPools]: the subgraph when an endpoint is configured, the factory
    otherwise; every exception becomes the empty list.  The subgraph query
    and the mapping of its untyped answer are one step, [None] when no
    endpoint is configured. *)
Definition getPools (graph : option (Js.completion (list Pool.t)))
    (factory : Factory) (chainId : Z) (tokenA tokenB : Token.t)
    : Js.completion (list Pool.t) :=
  let body :=
    match graph with
    | Some answer =>
        match answer with
        | Js.Return pools => Js.Return pools
        | Js.Throw _ => Js.Return []
        end
    | None => getPoolsFromContract factory chainId tokenA tokenB
    end in
  match body with
  | Js.Return pools => Js.Return pools
  | Js.Throw _ => Js.Return []
  end.

End UniswapV3Client.

(** *** The registry of venue clients ([ProtocolManager]) *)

Module Venue.
(** A [BaseProtocol] instance as the scanner sees it: the calls of the
    client, its chain and its pool discovery. *)
Record t : Type := mk {
  client : Protocol.t;
  chainId : Z;
  getPools : Token.t -> Token.t -> Js.completion (list Pool.t)
}.
End Venue.

Module Registry.

(** The [Map<string, BaseProtocol>] of the manager, in insertion order.
    The keys of a [Map] are distinct; nothing below relies on it. *)
Definition t : Type := list (string * Venue.t).

(** [`${protocolName}_${chainId}`] *)
Definition keyOf (protocolName : string) (chainId : Z) : string :=
  protocolName +:+ "_" +:+ Js.bigintToString chainId.

(** [protocols.get(key)] *)
Fixpoint get (m : t) (key : string) : option Venue.t :=
  match m with
  | [] => None
  | (k, v) :: rest => if String.eqb k key then Some v else get rest key
  end.

Definition getProtocol (m : t) (protocolName : string) (chainId : Z)
    : option Venue.t :=
  get m (keyOf protocolName chainId).

Definition getAllProtocols (m : t) : list Venue.t := map snd m.

Definition getProtocolsByChain (m : t) (chainId : Z) : list Venue.t :=
  List.filter (fun v => Venue.chainId v =? chainId) (getAllProtocols m).

(** The lookup the scanner and the engine use. *)
Definition manager (m : t) : ProtocolManager :=
  fun protocolName chainId =>
    option_map Venue.client (getProtocol m protocolName chainId).

End Registry.

(** *** The scan loop ([ArbitrageDetector]) *)

Module Scan.

(** [for i, for j > i]: the pairs of a list in loop order. *)
Fixpoint pairsOf {A : Type} (xs : list A) : list (A * A) :=
  match xs with
  | [] => []
  | x :: rest => map (pair x) rest ++ pairsOf rest
  end.

(** The first loop of [scanTokenPair]: the pools of every venue of the
    chain, keeping the venues that have some. *)
Fixpoint collectPools (venues : list Venue.t) (tokenA tokenB : Token.t)
    : Js.completion (list (string * list Pool.t)) :=
  match venues with
  | [] => Js.Return []
  | v :: rest =>
      ArbitrageDetector.bind (Venue.getPools v tokenA tokenB) (fun pools =>
      ArbitrageDetector.bind (collectPools rest tokenA tokenB) (fun more =>
      Js.Return
        (if (0 <? Z.of_nat (length pools))
         then (Protocol.getName (Venue.client v), pools) :: more
         else more)))
  end.

(** The comparison loops of [scanTokenPair]. *)
Definition comparePools (cfg : Config.t) (m : Registry.t) (now : Z)
    (tokenA tokenB : Token.t) (allPools : list (string * list Pool.t))
    : list Opportunity.t :=
  flat_map (fun '(a, b) =>
    flat_map (fun poolA =>
      flat_map (fun poolB =>
        match ArbitrageDetector.calculateArbitrage cfg (Registry.manager m)
                now tokenA tokenB poolA poolB with
        | Some opportunity => [opportunity]
        | None => []
        end) (snd b)) (snd a)) (pairsOf allPools).

(** [scanTokenPair]: an exception of pool discovery is logged and leaves
    the list as it is at that point, still empty. *)
Definition scanTokenPair (cfg : Config.t) (m : Registry.t) (now : Z)
    (tokenA tokenB : Token.t) : list Opportunity.t :=
  match collectPools (Registry.getProtocolsByChain m (Token.chainId tokenA))
          tokenA tokenB with
  | Js.Throw _ => []
  | Js.Return allPools =>
      if (Z.of_nat (length allPools) <? 2) then []
      else comparePools cfg m now tokenA tokenB allPools
  end.

(** [xs.sort(compare)]: the sort is stable; [compare a b > 0] moves [b] in
    front of [a].  With a comparator that answers NaN the order is left to
    the implementation; the properties below are about finite profits. *)
Fixpoint insertSorted {A : Type} (compare : A -> A -> Js.number) (x : A)
    (sorted : list A) : list A :=
  match sorted with
  | [] => [x]
  | y :: rest =>
      if Js.gt (compare x y) (Js.ofZ 0)
      then y :: insertSorted compare x rest
      else x :: sorted
  end.

Definition sort {A : Type} (compare : A -> A -> Js.number) (xs : list A)
    : list A :=
  fold_right (insertSorted compare) [] xs.

(** [(a, b) => b.profitPercentage - a.profitPercentage] *)
Definition byProfitDescending (a b : Opportunity.t) : Js.number :=
  Js.sub (Opportunity.profitPercentage b) (Opportunity.profitPercentage a).

(** All pair scans of one tick, in loop order. *)
Definition detectAll (cfg : Config.t) (m : Registry.t) (now : Z)
    (tokens : list Token.t) : list Opportunity.t :=
  flat_map (fun '(tokenA, tokenB) => scanTokenPair cfg m now tokenA tokenB)
           (pairsOf tokens).

(** The opportunities of one tick that are announced, in order. *)
Definition validOpportunities (cfg : Config.t) (m : Registry.t) (now : Z)
    (tokens : list Token.t) : list Opportunity.t :=
  sort byProfitDescending
    (List.filter (fun opp => Js.ge (Opportunity.profitPercentage opp)
                          (Config.minProfitThreshold cfg))
            (detectAll cfg m now tokens)).

Inductive ScanEvent : Type :=
| OpportunityFound (opportunity : Opportunity.t)
| ScanCompleted (opportunitiesFound : Z)
| ScanError (e : Js.thrown).

Inductive ScanEventName : Type :=
| opportunity_found | scan_completed | scan_error.

Definition scanEventName (ev : ScanEvent) : ScanEventName :=
  match ev with
  | OpportunityFound _ => opportunity_found
  | ScanCompleted _ => scan_completed
  | ScanError _ => scan_error
  end.

(** Emitting a sequence of events until a listener throws: the events that
    were emitted and the exception, if any. *)
Fixpoint emitAll (listeners : ScanEventName -> option Js.thrown)
    (events : list ScanEvent) : list ScanEvent * option Js.thrown :=
  match events with
  | [] => ([], None)
  | ev :: rest =>
      match listeners (scanEventName ev) with
      | Some e => ([ev], Some e)
      | None =>
          let (done, failure) := emitAll listeners rest in
          (ev :: done, failure)
      end
  end.

(** [scanForOpportunities]: the events emitted, and the exception that
    escapes when a listener of [scan-error] throws. *)
Definition scanForOpportunities (cfg : Config.t) (m : Registry.t) (now : Z)
    (listeners : ScanEventName -> option Js.thrown) (tokens : list Token.t)
    : list ScanEvent * option Js.thrown :=
  let valid := validOpportunities cfg m now tokens in
  let announce :=
    (if (0 <? Z.of_nat (length valid)) then map OpportunityFound valid else [])
    ++ [ScanCompleted (Z.of_nat (length valid))] in
  match emitAll listeners announce with
  | (done, None) => (done, None)
  | (done, Some e) =>
      (done ++ [ScanError e], listeners scan_error)
  end.

(** An opportunity whose profit percentage is a finite number, and the
    order the announcements are expected in. *)
Definition finiteProfit (o : Opportunity.t) : Prop :=
  exists q, Opportunity.profitPercentage o = Js.Fin q.

Definition profitGe (a b : Opportunity.t) : Prop :=
  Js.ge (Opportunity.profitPercentage a) (Opportunity.profitPercentage b)
  = true.

End Scan.

(** *** The rest of the orchestrator ([TradingExecutionEngine]) *)

Module EngineReports.
Import TradingExecutionEngine.

Record GasCosts : Type := mkGasCosts {
  totalGasEstimate : Z;
  totalGasCost : Z;
  profitAfterGas : Z;
  isStillProfitable : bool
}.

(** The loop of [estimateGasCosts]: legs whose venue is not registered are
    passed over. *)
Fixpoint sumGasEstimates (pm : ProtocolManager) (chainId : Z)
    (steps : list TradeStep.t) (total : Z) : Js.completion Z :=
  match steps with
  | [] => Js.Return total
  | step :: rest =>
      match pm (TradeStep.protocol step) chainId with
      | Some protocol =>
          ArbitrageDetector.bind (Protocol.estimateGas protocol step)
            (fun gasEstimate =>
               sumGasEstimates pm chainId rest (total + gasEstimate))
      | None => sumGasEstimates pm chainId rest total
      end
  end.

(** [feeData.gasPrice || BigInt(CONFIG.trading.maxGasPrice)]: a missing and
    a zero price are both falsy. *)
Definition gasPriceOr (maxGasPrice : Z) (gasPrice : option Z) : Z :=
  match gasPrice with
  | Some p => if p =? 0 then maxGasPrice else p
  | None => maxGasPrice
  end.

(** [estimateGasCosts]; [getFeeData] is the provider's answer,
    [feeData.gasPrice] or [null]. *)
Definition estimateGasCosts (cfg : Config.t) (w : World)
    (getFeeData : Js.completion (option Z)) (o : Opportunity.t)
    : M GasCosts :=
  fun s =>
    match sumGasEstimates (protocolManager w)
            (Token.chainId (Opportunity.tokenA o))
            (Opportunity.executionPath o) 0 with
    | Js.Throw e => (Js.Throw e, s)
    | Js.Return total =>
        let totalGasEstimate := Z.quot (total * 120) 100 in
        let price :=
          if walletReady s
          then ArbitrageDetector.bind getFeeData (fun gasPrice =>
                 Js.Return (gasPriceOr (Config.maxGasPrice cfg) gasPrice))
          else Js.Return (Config.maxGasPrice cfg) in
        match price with
        | Js.Throw e => (Js.Throw e, s)
        | Js.Return gasPrice =>
            let totalGasCost := totalGasEstimate * gasPrice in
            let profitAfterGas := Opportunity.profitAmount o - totalGasCost in
            (Js.Return
               (mkGasCosts totalGasEstimate totalGasCost profitAfterGas
                  (0 <? profitAfterGas)), s)
        end
    end.

Record ExecutionStats : Type := mkStats {
  totalExecutions : Z;
  successfulExecutions : Z;
  failedExecutions : Z;
  totalProfit : Z;
  averageExecutionTime : Js.number;
  isCurrentlyExecuting : bool
}.

Definition sumZ (xs : list Z) : Z := fold_left Z.add xs 0.

Definition getExecutionStats (s : t) : ExecutionStats :=
  let history := executionHistory s in
  let successful := List.filter success history in
  let total := Z.of_nat (length history) in
  mkStats total (Z.of_nat (length successful))
    (total - Z.of_nat (length successful))
    (sumZ (map actualProfit successful))
    (if 0 <? total
     then Js.div (Js.ofZ (sumZ (map executionTime history))) (Js.ofZ total)
     else Js.ofZ 0)
    (isExecuting s).

(** [xs.slice(start)] for an integer [start]. *)
Definition sliceFrom {A : Type} (start : Z) (xs : list A) : list A :=
  let len := Z.of_nat (length xs) in
  let from := if start <? 0 then Z.max (len + start) 0 else Z.min start len in
  skipn (Z.to_nat from) xs.

(** [getExecutionHistory(limit)]: [executionHistory.slice(-limit)] *)
Definition getExecutionHistory (limit : Z) (s : t) : list ExecutionResult :=
  sliceFrom (- limit) (executionHistory s).

End EngineReports.

(** *** The handler that joins the components ([ArbitrageTrader]) *)

Module Trader.
Import TradingExecutionEngine.

(** The components and buffers [handleOpportunityFound] and the engine
    listeners touch. *)
Record t : Type := mk {
  recentOpportunities : list Opportunity.t;
  recentTrades : list (ExecutionResult * Z);
  riskManager : RiskManager.t;
  executionEngine : TradingExecutionEngine.t
}.

Definition withRiskManager (rm : RiskManager.t) (tr : t) : t :=
  mk (recentOpportunities tr) (recentTrades tr) rm (executionEngine tr).

(** The listeners [setupEventListeners] registers on the engine.  They run
    while the engine emits: their [Date.now()] is the engine's clock at the
    entry of the call for [execution-started] and at its exit for the two
    others. *)
Definition onEngineEvent (w : World) (tr : t) (ev : Event) : t :=
  match ev with
  | ExecutionStarted _ =>
      withRiskManager
        (RiskManager.recordTradeStart (startTime w) (riskManager tr)) tr
  | ExecutionSuccess result =>
      mk (recentOpportunities tr) ((result, endTime w) :: recentTrades tr)
         (RiskManager.recordTradeEnd (actualProfit result) true
            (riskManager tr))
         (executionEngine tr)
  | ExecutionFailed result =>
      mk (recentOpportunities tr) ((result, endTime w) :: recentTrades tr)
         (RiskManager.recordTradeEnd 0 false (riskManager tr))
         (executionEngine tr)
  end.

Definition withInputAmount (amount : Z) (o : Opportunity.t) : Opportunity.t :=
  Opportunity.mk (Opportunity.id o) (Opportunity.tokenA o)
    (Opportunity.tokenB o) (Opportunity.buyPool o) (Opportunity.sellPool o)
    (Opportunity.profitPercentage o) (Opportunity.profitAmount o) amount
    (Opportunity.confidence o) (Opportunity.timestamp o)
    (Opportunity.gasEstimate o) (Opportunity.executionPath o).

(** The events the engine emitted between two of its states. *)
Definition newEvents (before after : TradingExecutionEngine.t) : list Event :=
  skipn (length (emitted before)) (emitted after).

(** [handleOpportunityFound]: every exception ends the handler quietly.
    The trader's own notifications and the logging are left out; the
    engine listeners above run on every event the engine emits.  The
    opportunity object is shared with the head of [recentOpportunities],
    so the adjustment of its input amount shows there too. *)
Definition handleOpportunityFound (cfg : Config.t) (w : World)
    (getFeeData : Js.completion (option Z)) (now : Z) (o : Opportunity.t)
    (tr : t) : t :=
  let stored (x : Opportunity.t) :=
    firstn 1000 (x :: recentOpportunities tr) in
  let tr1 :=
    mk (stored o) (recentTrades tr) (riskManager tr) (executionEngine tr) in
  if negb (Config.tradingEnabled cfg) then tr1
  else
    match predictOpportunity w o with
    | Js.Throw _ => tr1
    | Js.Return aiPrediction =>
        let (riskAssessment, rm) :=
          RiskManager.assessRisk cfg now (riskManager tr) o
            (Some aiPrediction) in
        let tr2 := withRiskManager rm tr1 in
        if negb (RiskManager.shouldExecute riskAssessment) then tr2
        else
          match EngineReports.estimateGasCosts cfg w getFeeData o
                  (executionEngine tr) with
          | (Js.Throw _, _) => tr2
          | (Js.Return gasCosts, _) =>
              if negb (EngineReports.isStillProfitable gasCosts) then tr2
              else
                let adjusted := RiskManager.adjustedPositionSize riskAssessment in
                let o' :=
                  if negb (adjusted =? Opportunity.inputAmount o)
                  then withInputAmount adjusted o else o in
                let (_, engine) :=
                  executeOpportunity cfg w o' (executionEngine tr) in
                fold_left (onEngineEvent w)
                  (newEvents (executionEngine tr) engine)
                  (mk (stored o') (recentTrades tr) rm engine)
          end
    end.

End Trader.

(** *** Further concrete inputs *)

Module Fixture.

(** A stablecoin pair on one trusted venue at a given profit. *)
Definition stableAt (profit : Q) : Opportunity.t :=
  Sample.opportunity Sample.usdc Sample.usdt
    (Sample.pool "0x123" "uniswap_v2" Sample.usdc Sample.usdt)
    (Sample.pool "0x456" "uniswap_v2" Sample.usdc Sample.usdt) profit.

(** A ledger on which the venue of [stableAt] is blacklisted. *)
Definition venueBlacklisted : RiskManager.t :=
  RiskManager.addProtocolToBlacklist "uniswap_v2" Sample.ledger.

(** A router whose signer library rejects the key "0x", whose gas
    estimation reverts and whose swaps go through. *)
Definition router : UniswapV3Client.Router :=
  UniswapV3Client.mkRouter
    (fun privateKey =>
       if String.eqb privateKey "0x"
       then Js.Throw (Js.ErrorObj "invalid private key")
       else Js.Return "0xWallet"%string)
    (Js.Return tt)
    (fun _ => Js.Throw (Js.ErrorObj "execution reverted"))
    (fun _ => Js.Return "0xhash"%string).

(** A venue that trades through that router. *)
Definition v3venue : Protocol.t :=
  Protocol.mk UniswapV3Client.name
    (fun _ _ amountIn _ => Js.Return amountIn)
    (fun _ => Js.Return 250000)
    (UniswapV3Client.executeTrade router 0).

(** The sample world with another venue lookup. *)
Definition worldWith (pm : ProtocolManager) (ai : Prediction.t)
    : TradingExecutionEngine.World :=
  let w := Sample.world ai in
  TradingExecutionEngine.mkWorld
    (TradingExecutionEngine.predictOpportunity w) pm
    (TradingExecutionEngine.walletGetAddress w)
    (TradingExecutionEngine.getBalance w)
    (TradingExecutionEngine.balanceOf w)
    (TradingExecutionEngine.getNetworkChainId w)
    (TradingExecutionEngine.allowance w)
    (TradingExecutionEngine.submitApproval w)
    (TradingExecutionEngine.waitForTransaction w)
    (TradingExecutionEngine.listeners w)
    (TradingExecutionEngine.startTime w)
    (TradingExecutionEngine.endTime w)
    (TradingExecutionEngine.validationTime w)
    (TradingExecutionEngine.tradesStartTime w)
    (TradingExecutionEngine.tradesEndTime w)
    (TradingExecutionEngine.showNumber w)
    (TradingExecutionEngine.toFixed1 w).

Definition v3world : TradingExecutionEngine.World :=
  worldWith (fun _ _ => Some v3venue) Sample.confident.

(** A factory on which the 0.05 % tier lookup fails, the 0.3 % tier has a
    pool (with WETH as token0) and the 1 % tier has none. *)
Definition factory : UniswapV3Client.Factory :=
  UniswapV3Client.mkFactory (Js.Return tt)
    (fun _ _ fee =>
       if fee =? 500 then Js.Throw (Js.ErrorObj "call failed")
       else if fee =? 3000 then Js.Return "0xPool3000"%string
       else Js.Return TradingExecutionEngine.ZeroAddress)
    (fun _ =>
       Js.Return (777, "0xc02AAA39B223FE8D0A0E5C4F27EAD9083C756CC2",
                  "0xA0b86a33E6441bF7605308D4395B2863dbDB0413")%string).

(** Two registered venues on chain 1, each with one USDC/WETH pool. *)
Definition registry : Registry.t :=
  [ ("uniswap_v2_1"%string,
     Venue.mk Sample.venueA 1 (fun _ _ => Js.Return [Sample.poolA]));
    ("sushiswap_1"%string,
     Venue.mk Sample.venueB 1 (fun _ _ => Js.Return [Sample.poolB])) ].

(** The same with a third venue whose pool discovery throws. *)
Definition brokenRegistry : Registry.t :=
  registry ++
  [ ("curve_1"%string,
     Venue.mk Sample.venueB 1
       (fun _ _ => Js.Throw (Js.ErrorObj "rpc unavailable"))) ].

(** The two sample venues with gas estimates of zero. *)
Definition freeVenues : ProtocolManager :=
  fun protocolName chainId =>
    match Sample.venues protocolName chainId with
    | Some venue =>
        Some (Protocol.mk (Protocol.getName venue) (Protocol.getQuote venue)
                (fun _ => Js.Return 0) (Protocol.executeTrade venue))
    | None => None
    end.

(** A world in which every transaction is confirmed with status 1. *)
Definition settled (w : TradingExecutionEngine.World)
    : TradingExecutionEngine.World :=
  TradingExecutionEngine.mkWorld
    (TradingExecutionEngine.predictOpportunity w)
    (TradingExecutionEngine.protocolManager w)
    (TradingExecutionEngine.walletGetAddress w)
    (TradingExecutionEngine.getBalance w)
    (TradingExecutionEngine.balanceOf w)
    (TradingExecutionEngine.getNetworkChainId w)
    (TradingExecutionEngine.allowance w)
    (TradingExecutionEngine.submitApproval w)
    (fun _ =>
       Js.Return (Some (TradingExecutionEngine.mkReceipt (Some 1) 100000)))
    (TradingExecutionEngine.listeners w)
    (TradingExecutionEngine.startTime w)
    (TradingExecutionEngine.endTime w)
    (TradingExecutionEngine.validationTime w)
    (TradingExecutionEngine.tradesStartTime w)
    (TradingExecutionEngine.tradesEndTime w)
    (TradingExecutionEngine.showNumber w)
    (TradingExecutionEngine.toFixed1 w).

Definition settledWorld : TradingExecutionEngine.World :=
  settled (worldWith freeVenues Sample.confident).

(** A trader at rest with a fresh ledger. *)
Definition trader : Trader.t :=
  Trader.mk [] [] Sample.ledger Sample.idleEngine.

End Fixture.

(** * Properties *)

(** ** Numbers *)

Module JsFacts.

Lemma Qltb_spec (a b : Q) : reflect (a < b)%Q (Js.Qltb a b).
Proof.
  unfold Js.Qltb. destruct (Qle_bool b a) eqn:E; constructor.
  - apply Qle_bool_iff in E. apply Qle_not_lt, E.
  - apply Qnot_le_lt. intros H. apply Qle_bool_iff in H. congruence.
Qed.

Lemma Qleb_spec (a b : Q) : reflect (a <= b)%Q (Qle_bool a b).
Proof.
  destruct (Qle_bool a b) eqn:E; constructor.
  - apply Qle_bool_iff, E.
  - intros H. apply Qle_bool_iff in H. congruence.
Qed.

Lemma Qeqb_spec (a b : Q) : reflect (a == b)%Q (Qeq_bool a b).
Proof.
  destruct (Qeq_bool a b) eqn:E; constructor.
  - apply Qeq_bool_iff, E.
  - intros H. apply Qeq_bool_iff in H. congruence.
Qed.

(** Turn every rational test in sight into a proposition. *)
Ltac qcases :=
  repeat match goal with
         | |- context [Js.Qltb ?a ?b] => destruct (Qltb_spec a b)
         | |- context [Qle_bool ?a ?b] => destruct (Qleb_spec a b)
         | |- context [Qeq_bool ?a ?b] => destruct (Qeqb_spec a b)
         | H : context [Js.Qltb ?a ?b] |- _ => destruct (Qltb_spec a b)
         | H : context [Qle_bool ?a ?b] |- _ => destruct (Qleb_spec a b)
         | H : context [Qeq_bool ?a ?b] |- _ => destruct (Qeqb_spec a b)
         end.

Lemma le_lt_trans (a b c : Js.number) :
  Js.le a b = true -> Js.lt b c = true -> Js.lt a c = true.
Proof.
  destruct a, b, c; simpl; try congruence; intros; qcases;
    try congruence; lra.
Qed.

Lemma le_trans (a b c : Js.number) :
  Js.le a b = true -> Js.le b c = true -> Js.le a c = true.
Proof.
  destruct a, b, c; simpl; try congruence; intros; qcases;
    try congruence; lra.
Qed.

Lemma le_gt_false (a b c : Js.number) :
  Js.le a b = true -> Js.le b c = true -> Js.gt a c = false.
Proof.
  unfold Js.gt. destruct a, b, c; simpl; try congruence; intros; qcases;
    try congruence; lra.
Qed.

(** [Math.min] is monotone in both arguments. *)
Lemma min_mono (a b a' b' : Js.number) :
  Js.le a' a = true -> Js.le b' b = true ->
  Js.le (Js.min a' b') (Js.min a b) = true.
Proof.
  destruct a, b, a', b'; simpl; try congruence; intros; qcases; simpl;
    qcases; try congruence; lra.
Qed.

Lemma min_nonneg (a b : Js.number) :
  Js.le (Js.ofZ 0) a = true -> Js.le (Js.ofZ 0) b = true ->
  Js.le (Js.ofZ 0) (Js.min a b) = true.
Proof.
  destruct a, b; simpl; try congruence; intros; qcases; simpl; qcases;
    try congruence; lra.
Qed.

(** [x || 0] keeps the order of non-negative numbers. *)
Lemma orZero_mono (a a' : Js.number) :
  Js.le (Js.ofZ 0) a' = true -> Js.le a' a = true ->
  Js.le (Js.ofZ 0) (Js.orZero a') = true /\
  Js.le (Js.orZero a') (Js.orZero a) = true.
Proof.
  unfold Js.orZero.
  destruct a, a'; simpl; try congruence; intros; qcases; simpl; qcases;
    try congruence; split; try reflexivity; try congruence; lra.
Qed.

End JsFacts.

(** ** The risk gate *)

Module RiskFacts.
Import RiskManager.

Ltac split_ifs :=
  repeat match goal with
         | |- context [if ?b then _ else _] => destruct b
         end.

(** *** Range of each scoring dimension *)

Lemma tokenRisk_lower (this : t) (o : Opportunity.t) :
  -5 <= score (assessTokenRisk this o).
Proof. unfold assessTokenRisk. split_ifs; simpl; lia. Qed.

Lemma tokenRisk_blacklisted (this : t) (o : Opportunity.t) :
  tokenBlacklisted this (Opportunity.tokenA o)
    || tokenBlacklisted this (Opportunity.tokenB o) = true ->
  95 <= score (assessTokenRisk this o).
Proof.
  intros H. unfold assessTokenRisk. rewrite H. split_ifs; simpl; lia.
Qed.

Lemma protocolRisk_lower (this : t) (o : Opportunity.t) :
  0 <= score (assessProtocolRisk this o).
Proof. unfold assessProtocolRisk. split_ifs; simpl; lia. Qed.

Lemma liquidityRisk_lower (o : Opportunity.t) :
  0 <= score (assessLiquidityRisk o).
Proof. unfold assessLiquidityRisk. split_ifs; simpl; lia. Qed.

Lemma profitRisk_lower (o : Opportunity.t) :
  0 <= score (assessProfitRisk o).
Proof. unfold assessProfitRisk. split_ifs; simpl; lia. Qed.

Lemma aiRisk_lower (ai : Prediction.t) :
  -5 <= score (assessAIPredictionRisk ai).
Proof. unfold assessAIPredictionRisk. split_ifs; simpl; lia. Qed.

Lemma positionRisk_lower (cfg : Config.t) (this : t) (o : Opportunity.t) :
  0 <= score (assessPositionSizeRisk cfg this o).
Proof. unfold assessPositionSizeRisk. split_ifs; simpl; lia. Qed.

Lemma marketRisk_lower (now : Z) (this : t) (o : Opportunity.t) :
  0 <= score (assessMarketConditionsRisk now this o).
Proof. unfold assessMarketConditionsRisk. split_ifs; simpl; lia. Qed.

Lemma aiPartial_lower (ai : option Prediction.t) : -5 <= score (aiPartial ai).
Proof. destruct ai; simpl; [apply aiRisk_lower | lia]. Qed.

Lemma rolled_blacklistedTokens (now : Z) (this : t) :
  blacklistedTokens (rolled now this) = blacklistedTokens this.
Proof. unfold rolled. destruct (_ >? _); reflexivity. Qed.

Lemma rolled_activeTrades (now : Z) (this : t) :
  activeTrades (rolled now this) = activeTrades this.
Proof. unfold rolled. destruct (_ >? _); reflexivity. Qed.

(** The score is the sum of the seven dimensions. *)
Lemma riskScore_sum (cfg : Config.t) (now : Z) (this : t)
    (o : Opportunity.t) (ai : option Prediction.t) :
  riskScoreOf cfg now this o ai =
    score (assessTokenRisk (rolled now this) o)
    + score (assessProtocolRisk (rolled now this) o)
    + score (assessLiquidityRisk o)
    + score (assessProfitRisk o)
    + score (aiPartial ai)
    + score (assessPositionSizeRisk cfg (rolled now this) o)
    + score (assessMarketConditionsRisk now (rolled now this) o).
Proof.
  unfold riskScoreOf, assessRisk, rolled, aiPartial.
  destruct ai; simpl; lia.
Qed.

Lemma assessRisk_fields (cfg : Config.t) (now : Z) (this : t)
    (o : Opportunity.t) (ai : option Prediction.t) :
  let a := fst (assessRisk cfg now this o ai) in
  riskLevel a = levelOf (riskScore a) /\
  shouldExecute a = shouldExecuteTrade cfg (rolled now this) (riskScore a) o /\
  adjustedPositionSize a = calculateAdjustedPositionSize o (riskScore a) /\
  reasons a =
    why (assessTokenRisk (rolled now this) o)
      ++ why (assessProtocolRisk (rolled now this) o)
      ++ why (assessLiquidityRisk o) ++ why (assessProfitRisk o)
      ++ why (aiPartial ai)
      ++ why (assessPositionSizeRisk cfg (rolled now this) o)
      ++ why (assessMarketConditionsRisk now (rolled now this) o).
Proof.
  unfold assessRisk, rolled, aiPartial. destruct ai; simpl; auto.
Qed.

Lemma assessRisk_ledger (cfg : Config.t) (now : Z) (this : t)
    (o : Opportunity.t) (ai : option Prediction.t) :
  snd (assessRisk cfg now this o ai) = rolled now this.
Proof. reflexivity. Qed.

(** *** Scenario B *)

Lemma thin_profit_risk (o : Opportunity.t) (p : Q) :
  Opportunity.profitPercentage o = Js.Fin p -> (p < 1 # 10)%Q ->
  25 <= score (assessProfitRisk o) /\
  In "Very low profit margin - high execution risk"%string
     (why (assessProfitRisk o)).
Proof.
  intros Hp Hlt. unfold assessProfitRisk. rewrite Hp.
  assert (E : Js.lt (Js.Fin p) (Js.Fin (1 # 10)) = true).
  { simpl. destruct (JsFacts.Qltb_spec p (1 # 10)); [reflexivity | contradiction]. }
  rewrite E. split_ifs; simpl; split; try lia; auto.
Qed.

Lemma riskAdjustedMinProfit_finite (thr : Q) (s : Z) :
  Js.mul (Js.Fin thr)
    (Js.add (Js.ofZ 1) (Js.div (Js.ofZ s) (Js.ofZ 100)))
  = Js.Fin (thr * (1 + inject_Z s / 100)).
Proof. reflexivity. Qed.

Lemma thin_profit_rejected (cfg : Config.t) (this : t) (s : Z)
    (o : Opportunity.t) (p thr : Q) :
  Opportunity.profitPercentage o = Js.Fin p ->
  Config.minProfitThreshold cfg = Js.Fin thr ->
  (p == 5 # 100)%Q -> (thr == 5 # 10)%Q -> 15 <= s ->
  shouldExecuteTrade cfg this s o = false.
Proof.
  intros Hp Ht Ep Et Hs. unfold shouldExecuteTrade.
  rewrite Hp, Ht, riskAdjustedMinProfit_finite.
  destruct (s >? 70); [reflexivity |].
  destruct (dailyTrades this >=? 50); [reflexivity |].
  destruct (activeTrades this >=? 3); [reflexivity |].
  assert (Hq : (15 <= inject_Z s)%Q).
  { change 15%Q with (inject_Z 15). rewrite <- Zle_Qle. exact Hs. }
  simpl. destruct (JsFacts.Qltb_spec p (thr * (1 + inject_Z s / 100)));
    [reflexivity |].
  exfalso. apply n. rewrite Ep, Et.
  unfold Qdiv. change (/ 100)%Q with (1 # 100)%Q. lra.
Qed.




(** C3 (as amended).  [assessRisk] never changes the active-trade counter,
    the last-trade time or the two blacklists.  It leaves the whole ledger
    as it is while the clock has not passed [dailyResetTime]; once it has,
    the call zeroes the daily trade counter and the daily volume and moves
    [dailyResetTime] to the next UTC midnight. *)
Theorem assess_ledger_frame (cfg : Config.t) (now : Z) (this : t)
    (o : Opportunity.t) (ai : option Prediction.t) :
  let this' := snd (assessRisk cfg now this o ai) in
  activeTrades this' = activeTrades this /\
  lastTradeTime this' = lastTradeTime this /\
  blacklistedTokens this' = blacklistedTokens this /\
  blacklistedProtocols this' = blacklistedProtocols this /\
  (now <= dailyResetTime this -> this' = this) /\
  (dailyResetTime this < now ->
     dailyTrades this' = 0 /\ dailyVolume this' = 0 /\
     dailyResetTime this' = nextUtcMidnight now).
Proof.
  cbv zeta. rewrite assessRisk_ledger. unfold rolled.
  destruct (Z.gtb_spec now (dailyResetTime this)) as [Hgt | Hle];
    repeat split; simpl; intros; auto; lia.
Qed.

Lemma assess_ledger_frame_witness :
  snd (assessRisk Sample.cfg 1000 Sample.busyLedger Sample.unknownPair None)
    = Sample.busyLedger /\
  dailyTrades
    (snd (assessRisk Sample.cfg (msPerDay + 5) Sample.busyLedger
            Sample.unknownPair None)) = 0.
Proof.
  split.
  - apply (assess_ledger_frame Sample.cfg 1000 Sample.busyLedger
             Sample.unknownPair None). vm_compute. discriminate.
  - apply (assess_ledger_frame Sample.cfg (msPerDay + 5) Sample.busyLedger
             Sample.unknownPair None). reflexivity.
Defined.

(** C3 as stated fails: an assessment made after the reset time wipes the
    seven trades and the volume the ledger had recorded. *)
Lemma assess_resets_daily_counters :
  let this := Sample.busyLedger in
  let this' := snd (assessRisk Sample.cfg (msPerDay + 5) this
                      Sample.unknownPair None) in
  dailyTrades this = 7 /\ dailyTrades this' = 0 /\
  dailyVolume this = 7000000000000000000 /\ dailyVolume this' = 0 /\
  this' <> this.
Proof.
  cbv zeta. repeat split. intros H.
  apply (f_equal dailyTrades) in H. vm_compute in H. discriminate.
Qed.

(** C4.  If the lower-cased address of either asset is in the asset
    blacklist, the assessment scores at least 90 and does not approve,
    whatever the other dimensions and the AI annotation contribute. *)
Theorem blacklisted_asset_rejected (cfg : Config.t) (now : Z) (this : t)
    (o : Opportunity.t) (ai : option Prediction.t) :
  Js.toLowerCase (Token.address (Opportunity.tokenA o))
    ∈ blacklistedTokens this \/
  Js.toLowerCase (Token.address (Opportunity.tokenB o))
    ∈ blacklistedTokens this ->
  let a := fst (assessRisk cfg now this o ai) in
  90 <= riskScore a /\ shouldExecute a = false.
Proof.
  intros Hbl a.
  assert (Hs : 90 <= riskScore a).
  { change (riskScore a) with (riskScoreOf cfg now this o ai).
    rewrite riskScore_sum.
    assert (Hb : tokenBlacklisted (rolled now this) (Opportunity.tokenA o)
                 || tokenBlacklisted (rolled now this) (Opportunity.tokenB o)
                 = true).
    { unfold tokenBlacklisted. rewrite rolled_blacklistedTokens.
      apply orb_true_iff.
      destruct Hbl; [left | right]; apply bool_decide_eq_true; assumption. }
    pose proof (tokenRisk_blacklisted (rolled now this) o Hb).
    pose proof (protocolRisk_lower (rolled now this) o).
    pose proof (liquidityRisk_lower o).
    pose proof (profitRisk_lower o).
    pose proof (aiPartial_lower ai).
    pose proof (positionRisk_lower cfg (rolled now this) o).
    pose proof (marketRisk_lower now (rolled now this) o).
    lia. }
  split; [exact Hs |].
  destruct (assessRisk_fields cfg now this o ai) as (_ & Hx & _).
  fold a in Hx. rewrite Hx. unfold shouldExecuteTrade.
  destruct (Z.gtb_spec (riskScore a) 70); [reflexivity | lia].
Qed.

Lemma blacklisted_asset_rejected_witness :
  let a := fst (assessRisk Sample.cfg 1000 Sample.blacklistingLedger
                  Sample.stablePair (Some Sample.confident)) in
  90 <= riskScore a /\ shouldExecute a = false.
Proof.
  apply (blacklisted_asset_rejected Sample.cfg 1000 Sample.blacklistingLedger
           Sample.stablePair (Some Sample.confident)).
  left. apply (bool_decide_eq_true_1 _). vm_compute. reflexivity.
Defined.

(** C10 (as amended).  The score has no floor at zero: a stablecoin pair on
    one trusted venue with a confident AI annotation scores -10.  Every
    score up to 20, negative ones included, is level LOW; the position size
    is left whole only up to a score of 15, and from 16 to 20 a LOW
    assessment carries 85 % of the input amount. *)
Theorem score_not_clamped_below :
  (exists cfg now this o ai,
     let a := fst (assessRisk cfg now this o ai) in
     riskScore a < 0 /\ riskLevel a = LOW /\
     adjustedPositionSize a = Opportunity.inputAmount o) /\
  (forall cfg now this o ai,
     let a := fst (assessRisk cfg now this o ai) in
     (riskScore a <= 20 -> riskLevel a = LOW) /\
     (riskScore a <= 15 ->
        adjustedPositionSize a = Opportunity.inputAmount o) /\
     (15 < riskScore a <= 20 ->
        adjustedPositionSize a = Z.quot (Opportunity.inputAmount o * 85) 100)).
Proof.
  split.
  - exists Sample.cfg, 1000, Sample.ledger, Sample.stablePair,
      (Some Sample.confident). vm_compute. repeat split.
  - intros cfg now this o ai a.
    destruct (assessRisk_fields cfg now this o ai) as (Hl & _ & Hp & _).
    fold a in Hl, Hp. rewrite Hl, Hp.
    unfold levelOf, calculateAdjustedPositionSize, sizeMultiplier.
    repeat split; intros H.
    + destruct (Z.leb_spec (riskScore a) 20); [reflexivity | lia].
    + destruct (Z.gtb_spec (riskScore a) 50); [lia |].
      destruct (Z.gtb_spec (riskScore a) 30); [lia |].
      destruct (Z.gtb_spec (riskScore a) 15); [lia |].
      change (Qfloor (1 * 100)) with 100. apply Z.quot_mul. discriminate.
    + destruct (Z.gtb_spec (riskScore a) 50); [lia |].
      destruct (Z.gtb_spec (riskScore a) 30); [lia |].
      destruct (Z.gtb_spec (riskScore a) 15); [| lia].
      reflexivity.
Qed.

Lemma score_not_clamped_below_witness :
  riskLevel (fst (assessRisk Sample.cfg 1000 Sample.ledger Sample.stablePair
                    (Some Sample.confident))) = LOW /\
  adjustedPositionSize
    (fst (assessRisk Sample.cfg 1000 Sample.ledger Sample.stablePair
            (Some Sample.confident))) = 100000000000000000000 /\
  adjustedPositionSize
    (fst (assessRisk Sample.cfg 1000 Sample.ledger Sample.unknownPair None))
    = 85000000000000000000.
Proof.
  pose proof (proj2 score_not_clamped_below Sample.cfg 1000 Sample.ledger
                Sample.stablePair (Some Sample.confident)) as (H1 & H2 & _).
  pose proof (proj2 score_not_clamped_below Sample.cfg 1000 Sample.ledger
                Sample.unknownPair None) as (_ & _ & H3).
  split; [apply H1; vm_compute; discriminate |].
  split; [apply H2; vm_compute; discriminate |].
  rewrite H3; [reflexivity | vm_compute; split; [reflexivity | discriminate]].
Defined.

(** C10 as stated fails: an unknown pair at 0.15 % profit scores exactly 20,
    is level LOW, and yet its position is cut to 85 %. *)
Lemma low_level_reduced_position :
  let o := Sample.unknownPair in
  let a := fst (assessRisk Sample.cfg 1000 Sample.ledger o None) in
  riskScore a = 20 /\ riskLevel a = LOW /\
  Opportunity.inputAmount o = 100000000000000000000 /\
  adjustedPositionSize a = 85000000000000000000 /\
  adjustedPositionSize a <> Opportunity.inputAmount o.
Proof. cbv zeta. repeat split. vm_compute. discriminate. Qed.

End RiskFacts.

(** ** Monotonicity of the risk score *)

Module Monotone.
Import RiskManager.

Lemma liquidityRisk_score (o : Opportunity.t) :
  score (assessLiquidityRisk o) =
  liquidityScore
    (Js.min (Js.orZero (Pool.liquidity (Opportunity.buyPool o)))
            (Js.orZero (Pool.liquidity (Opportunity.sellPool o))))
    (Js.div (Js.ofZ (Opportunity.inputAmount o)) e18).
Proof.
  unfold assessLiquidityRisk, liquidityScore.
  RiskFacts.split_ifs; simpl; lia.
Qed.

Lemma profitRisk_score (o : Opportunity.t) :
  score (assessProfitRisk o) = profitScore (Opportunity.profitPercentage o).
Proof.
  unfold assessProfitRisk, profitScore. RiskFacts.split_ifs; simpl; lia.
Qed.

Lemma positionSize_finite (z : Z) :
  Js.div (Js.ofZ z) e18 = Js.Fin (inject_Z z / inject_Z 1000000000000000000).
Proof. reflexivity. Qed.

(** A shallower pool is used more heavily by the same position. *)
Lemma utilization_mono (pos c : Q) (m m' : Js.number) :
  (0 < c)%Q -> Js.le (Js.ofZ 0) m' = true -> Js.le m' m = true ->
  Js.gt (Js.div (Js.Fin pos) m) (Js.Fin c) = true ->
  Js.gt (Js.div (Js.Fin pos) m') (Js.Fin c) = true.
Proof.
  intros Hc H0 Hle. unfold Js.gt.
  destruct m as [| | | y], m' as [| | | y']; simpl in *; try congruence.
  - intros H. destruct (JsFacts.Qltb_spec c 0); [lra | discriminate].
  - apply Qle_bool_iff in H0, Hle. change (inject_Z 0) with 0%Q in H0.
    destruct (JsFacts.Qeqb_spec y 0) as [Ey | Ny].
    + assert (Ey' : (y' == 0)%Q) by lra.
      destruct (JsFacts.Qeqb_spec y' 0); [| contradiction]. auto.
    + assert (Hy : (0 < y)%Q) by lra.
      simpl. intros H.
      destruct (JsFacts.Qltb_spec c (pos / y)) as [Hlt |]; [| discriminate].
      assert (Hm : (c * y < pos)%Q).
      { apply Qmult_lt_compat_r with (z := y) in Hlt; [| exact Hy].
        rewrite (Qmult_comm (pos / y)), Qmult_div_r in Hlt; assumption. }
      assert (Hpos : (0 < pos)%Q) by nra.
      destruct (JsFacts.Qeqb_spec y' 0) as [Ey' | Ny'].
      * destruct (JsFacts.Qltb_spec 0 pos); [reflexivity | contradiction].
      * simpl. destruct (JsFacts.Qltb_spec c (pos / y')); [reflexivity |].
        exfalso. apply n. apply Qlt_shift_div_l; [lra | nra].
Qed.

Lemma liquidityScore_mono (pos : Q) (m m' : Js.number) :
  Js.le (Js.ofZ 0) m' = true -> Js.le m' m = true ->
  liquidityScore m (Js.Fin pos) <= liquidityScore m' (Js.Fin pos).
Proof.
  intros H0 Hle. unfold liquidityScore.
  pose proof (JsFacts.le_lt_trans m' m (Js.ofZ 10000) Hle) as A.
  pose proof (JsFacts.le_lt_trans m' m (Js.ofZ 100000) Hle) as B.
  pose proof (utilization_mono pos (5 # 100) m m' eq_refl H0 Hle) as C.
  pose proof (utilization_mono pos (2 # 100) m m' eq_refl H0 Hle) as D.
  destruct (Js.lt m (Js.ofZ 10000)), (Js.lt m (Js.ofZ 100000)),
    (Js.gt (Js.div (Js.Fin pos) m) (Js.Fin (5 # 100))),
    (Js.gt (Js.div (Js.Fin pos) m) (Js.Fin (2 # 100)));
    try rewrite (A eq_refl); try rewrite (B eq_refl);
    try rewrite (C eq_refl); try rewrite (D eq_refl);
    RiskFacts.split_ifs; lia.
Qed.

Lemma profitScore_mono (p p' : Js.number) :
  Js.le p' p = true ->
  Js.le p (Js.ofZ 2) = true \/ Js.lt p' (Js.Fin (1 # 10)) = true ->
  profitScore p <= profitScore p'.
Proof.
  intros Hle [H2 | Hlow]; unfold profitScore.
  - rewrite (JsFacts.le_gt_false p (Js.ofZ 2) (Js.ofZ 5) H2 eq_refl).
    rewrite (JsFacts.le_gt_false p (Js.ofZ 2) (Js.ofZ 2) H2 eq_refl).
    pose proof (JsFacts.le_trans p' p (Js.ofZ 2) Hle H2) as H2'.
    rewrite (JsFacts.le_gt_false p' (Js.ofZ 2) (Js.ofZ 5) H2' eq_refl).
    rewrite (JsFacts.le_gt_false p' (Js.ofZ 2) (Js.ofZ 2) H2' eq_refl).
    pose proof (JsFacts.le_lt_trans p' p (Js.Fin (1 # 10)) Hle) as A.
    pose proof (JsFacts.le_lt_trans p' p (Js.Fin (2 # 10)) Hle) as B.
    destruct (Js.lt p (Js.Fin (1 # 10))), (Js.lt p (Js.Fin (2 # 10)));
      try rewrite (A eq_refl); try rewrite (B eq_refl);
      RiskFacts.split_ifs; lia.
  - rewrite Hlow.
    assert (G5 : Js.gt p' (Js.ofZ 5) = false).
    { revert Hlow. unfold Js.gt. destruct p'; simpl; try congruence.
      intros; JsFacts.qcases; try congruence; unfold inject_Z in *; lra. }
    assert (G2 : Js.gt p' (Js.ofZ 2) = false).
    { revert Hlow. unfold Js.gt. destruct p'; simpl; try congruence.
      intros; JsFacts.qcases; try congruence; unfold inject_Z in *; lra. }
    rewrite G5, G2.
    assert (X : Js.gt p (Js.ofZ 2) = true -> Js.lt p (Js.Fin (2 # 10)) = false).
    { unfold Js.gt. destruct p; simpl; try congruence.
      intros; JsFacts.qcases; try congruence; unfold inject_Z in *; lra. }
    assert (Y : Js.gt p (Js.ofZ 5) = true -> Js.gt p (Js.ofZ 2) = true).
    { unfold Js.gt. destruct p; simpl; try congruence.
      intros; JsFacts.qcases; try congruence; unfold inject_Z in *; lra. }
    assert (W : Js.lt p (Js.Fin (1 # 10)) = true ->
                Js.lt p (Js.Fin (2 # 10)) = true).
    { destruct p; simpl; try congruence.
      intros; JsFacts.qcases; try congruence; unfold inject_Z in *; lra. }
    destruct (Js.gt p (Js.ofZ 5)), (Js.gt p (Js.ofZ 2)),
      (Js.lt p (Js.Fin (1 # 10))), (Js.lt p (Js.Fin (2 # 10)));
      try (specialize (X eq_refl)); try (specialize (Y eq_refl));
      try (specialize (W eq_refl)); try discriminate; lia.
Qed.

Lemma marketRisk_age_mono (now : Z) (this : t) (o : Opportunity.t)
    (ts ts' : Z) :
  ts' <= ts ->
  score (assessMarketConditionsRisk now this (Vary.timestamp ts o))
  <= score (assessMarketConditionsRisk now this (Vary.timestamp ts' o)).
Proof.
  intros H. unfold assessMarketConditionsRisk. simpl.
  destruct (Z.gtb_spec (now - ts) 60000), (Z.gtb_spec (now - ts) 30000),
    (Z.gtb_spec (now - ts') 60000), (Z.gtb_spec (now - ts') 30000);
    RiskFacts.split_ifs; simpl; lia.
Qed.

Lemma marketRisk_active_mono (now : Z) (this : t) (o : Opportunity.t)
    (n n' : Z) :
  n <= n' ->
  score (assessMarketConditionsRisk now (rolled now (Vary.activeTrades n this)) o)
  <= score (assessMarketConditionsRisk now
              (rolled now (Vary.activeTrades n' this)) o).
Proof.
  intros H. unfold assessMarketConditionsRisk, rolled. simpl.
  destruct (now >? dailyResetTime this); simpl;
    destruct (Z.geb_spec n 3), (Z.geb_spec n' 3);
    RiskFacts.split_ifs; simpl; lia.
Qed.



End Monotone.

(** ** The venue client *)

Module VenueFacts.
Import UniswapV3Protocol.

(** C8.  [getQuote] never throws: it always returns a string, and that
    string is "0" when building the contract handle fails, when the static
    call fails, and also when the call succeeds with a genuine quote of
    zero. *)
Theorem getQuote_never_throws (quoter : Quoter) (tokenIn tokenOut : Token.t)
    (amountIn : Z) (pool : Pool.t) :
  let fee := Js.round (Js.mul (Pool.fee pool) (Js.ofZ 1000000)) in
  let answer :=
    quoteExactInputSingle quoter (Token.address tokenIn)
      (Token.address tokenOut) fee amountIn in
  (exists s, getQuote quoter tokenIn tokenOut amountIn pool = Js.Return s) /\
  (forall e, newContract quoter = Js.Throw e ->
     getQuote quoter tokenIn tokenOut amountIn pool = Js.Return "0"%string) /\
  (forall e, answer = Js.Throw e ->
     getQuote quoter tokenIn tokenOut amountIn pool = Js.Return "0"%string) /\
  (newContract quoter = Js.Return tt -> answer = Js.Return 0 ->
     getQuote quoter tokenIn tokenOut amountIn pool = Js.Return "0"%string).
Proof.
  cbv zeta. unfold getQuote.
  destruct (newContract quoter) as [[] | e0];
    destruct (quoteExactInputSingle quoter _ _ _ _) as [a | e1];
    repeat split; intros; try congruence; eauto.
  replace a with 0 by congruence. reflexivity.
Qed.

Lemma getQuote_never_throws_witness :
  getQuote Sample.failingQuoter Sample.usdc Sample.weth 1000000 Sample.poolA
    = Js.Return "0"%string /\
  getQuote Sample.zeroQuoter Sample.usdc Sample.weth 1000000 Sample.poolA
    = Js.Return "0"%string.
Proof.
  split.
  - destruct (getQuote_never_throws Sample.failingQuoter Sample.usdc
                Sample.weth 1000000 Sample.poolA) as (_ & _ & H & _).
    apply (H (Js.ErrorObj "execution reverted")). reflexivity.
  - destruct (getQuote_never_throws Sample.zeroQuoter Sample.usdc
                Sample.weth 1000000 Sample.poolA) as (_ & _ & _ & H).
    apply H; reflexivity.
Defined.

End VenueFacts.

(** ** The scanner *)

Module ScannerFacts.
Import ArbitrageDetector.

(** C9.  [calculateConfidence] always lies in the closed interval from 0
    to 1. *)
Theorem calculateConfidence_clamped (buyPool sellPool : Pool.t)
    (profitPercentage : Js.number) :
  Js.le (Js.ofZ 0) (calculateConfidence buyPool sellPool profitPercentage)
    = true /\
  Js.le (calculateConfidence buyPool sellPool profitPercentage) (Js.ofZ 1)
    = true.
Proof.
  unfold calculateConfidence.
  RiskFacts.split_ifs; split; reflexivity.
Qed.

(** *** Slippage-protected minimum output *)

Lemma slippageFactor_finite (s : Q) (scale : Z) :
  Js.toBigInt (Js.floor (Js.mul (Js.sub (Js.ofZ 1) (Js.Fin s)) (Js.ofZ scale)))
  = Some (Qfloor ((1 - s) * inject_Z scale)).
Proof.
  unfold Js.sub, Js.ofZ, Js.neg, Js.add, Js.mul, Js.floor, Js.toBigInt.
  rewrite Qfloor_Z.
  change (inject_Z 1 + - s)%Q with (1 - s)%Q.
  destruct (JsFacts.Qeqb_spec
              (inject_Z (Qfloor ((1 - s) * inject_Z scale)))
              (inject_Z (Qfloor ((1 - s) * inject_Z scale))))
    as [_ | N]; [reflexivity | exfalso; apply N; reflexivity].
Qed.

Lemma slippageFactor_infinite (slippage : Js.number) (scale : Z) :
  (forall s, slippage <> Js.Fin s) ->
  Js.toBigInt (Js.floor (Js.mul (Js.sub (Js.ofZ 1) slippage) (Js.ofZ scale)))
  = None.
Proof.
  intros H. destruct slippage as [| | | s]; simpl.
  - reflexivity.
  - unfold Js.infTimes. RiskFacts.split_ifs; reflexivity.
  - unfold Js.infTimes. RiskFacts.split_ifs; reflexivity.
  - destruct (H s eq_refl).
Qed.

Lemma calculateMinAmount_inv (amount : Z) (slippage : Js.number) (m : Z) :
  calculateMinAmount amount slippage = Js.Return m ->
  exists s, slippage = Js.Fin s /\
            m = Z.quot (amount * Qfloor ((1 - s) * 1000)) 1000.
Proof.
  unfold calculateMinAmount. destruct slippage as [| | | s].
  1-3: rewrite slippageFactor_infinite by discriminate; discriminate.
  rewrite slippageFactor_finite. intros H. exists s. split; [reflexivity |].
  injection H as <-. reflexivity.
Qed.

(** The truncated product stays below the exact one and within
    [q / scale + 1] of it. *)
Lemma truncated_product_bounds (q scale : Z) (s : Q) :
  0 < scale -> 0 <= q -> (0 <= s <= 1)%Q ->
  let m := Z.quot (q * Qfloor ((1 - s) * inject_Z scale)) scale in
  (inject_Z m <= inject_Z q * (1 - s))%Q /\
  (inject_Z q * (1 - s) < inject_Z m + inject_Z q / inject_Z scale + 1)%Q.
Proof.
  intros Hscale Hq [Hs0 Hs1] m.
  set (k := Qfloor ((1 - s) * inject_Z scale)) in *.
  assert (HS : (0 < inject_Z scale)%Q).
  { change 0%Q with (inject_Z 0). rewrite <- Zlt_Qlt. exact Hscale. }
  assert (HQ : (0 <= inject_Z q)%Q).
  { change 0%Q with (inject_Z 0). rewrite <- Zle_Qle. exact Hq. }
  pose proof (Qfloor_le ((1 - s) * inject_Z scale)) as Hk1. fold k in Hk1.
  pose proof (Qlt_floor ((1 - s) * inject_Z scale)) as Hk2. fold k in Hk2.
  rewrite inject_Z_plus in Hk2. change (inject_Z 1) with 1%Q in Hk2.
  assert (Hk0 : 0 <= k).
  { assert (Hx : (0 <= (1 - s) * inject_Z scale)%Q) by nra.
    assert (Hy : (inject_Z 0 < inject_Z (k + 1))%Q).
    { rewrite inject_Z_plus. change (inject_Z 0) with 0%Q.
      change (inject_Z 1) with 1%Q. lra. }
    rewrite <- Zlt_Qlt in Hy. lia. }
  assert (Hm : m = q * k / scale).
  { unfold m. apply Z.quot_div_nonneg; lia. }
  assert (Hlo : scale * m <= q * k).
  { rewrite Hm. apply Z.mul_div_le. exact Hscale. }
  assert (Hhi : q * k < scale * m + scale).
  { rewrite Hm. pose proof (Z.mul_succ_div_gt (q * k) scale Hscale). lia. }
  rewrite Zle_Qle in Hlo. rewrite !inject_Z_mult in Hlo.
  rewrite Zlt_Qlt in Hhi.
  rewrite inject_Z_plus, !inject_Z_mult in Hhi.
  set (Q_m := inject_Z m) in *. set (Q_q := inject_Z q) in *.
  set (Q_k := inject_Z k) in *. set (Q_s := inject_Z scale) in *.
  assert (Hqk1 : (Q_q * Q_k <= Q_q * ((1 - s) * Q_s))%Q) by nra.
  assert (Hqk2 : (Q_q * ((1 - s) * Q_s) <= Q_q * Q_k + Q_q)%Q) by nra.
  split.
  - apply Qmult_le_r with (z := Q_s); [exact HS |]. nra.
  - apply Qmult_lt_r with (z := Q_s); [exact HS |].
    assert (E : ((Q_m + Q_q / Q_s + 1) * Q_s == Q_m * Q_s + Q_q + Q_s)%Q).
    { field. intros E0. rewrite E0 in HS. apply (Qlt_irrefl 0 HS). }
    rewrite E. nra.
Qed.

(** What a successful [calculateArbitrage] has computed on the way. *)
Lemma calculateArbitrage_inv (cfg : Config.t) (pm : ProtocolManager)
    (now : Z) (tokenA tokenB : Token.t) (poolA poolB : Pool.t)
    (o : Opportunity.t) :
  calculateArbitrage cfg pm now tokenA tokenB poolA poolB = Some o ->
  exists testAmount protocolA protocolB qAB qBack minOut1 minOut2,
    pm (Pool.protocol poolA) (Token.chainId tokenA) = Some protocolA /\
    pm (Pool.protocol poolB) (Token.chainId tokenA) = Some protocolB /\
    Protocol.getQuote protocolA tokenA tokenB testAmount poolA
      = Js.Return qAB /\
    Protocol.getQuote protocolB tokenB tokenA qAB poolB = Js.Return qBack /\
    calculateMinAmount qAB (Config.maxSlippage cfg) = Js.Return minOut1 /\
    calculateMinAmount qBack (Config.maxSlippage cfg) = Js.Return minOut2 /\
    (Opportunity.buyPool o = poolA /\ Opportunity.sellPool o = poolB \/
     Opportunity.buyPool o = poolB /\ Opportunity.sellPool o = poolA) /\
    Opportunity.executionPath o =
      [ TradeStep.mk (Pool.protocol (Opportunity.buyPool o)) tokenA tokenB
          testAmount minOut1 (Opportunity.buyPool o)
          [Token.address tokenA; Token.address tokenB];
        TradeStep.mk (Pool.protocol (Opportunity.sellPool o)) tokenB tokenA
          qAB minOut2 (Opportunity.sellPool o)
          [Token.address tokenB; Token.address tokenA] ].
Proof.
  unfold calculateArbitrage, calculateArbitrageBody.
  destruct (parseUnitsOne (Token.decimals tokenA)) as [testAmount |];
    cbn [bind]; [| discriminate].
  destruct (pm (Pool.protocol poolA) (Token.chainId tokenA))
    as [protocolA |] eqn:EA; [| discriminate].
  destruct (pm (Pool.protocol poolB) (Token.chainId tokenA))
    as [protocolB |] eqn:EB; [| discriminate].
  destruct (Protocol.getQuote protocolA tokenA tokenB testAmount poolA)
    as [qAB |] eqn:E1; cbn [bind]; [| discriminate].
  destruct (Protocol.getQuote protocolB tokenB tokenA qAB poolB)
    as [qBack |] eqn:E2; cbn [bind]; [| discriminate].
  destruct (percentOf (qBack - testAmount) testAmount) as [pc1 |];
    cbn [bind]; [| discriminate].
  destruct (Protocol.getQuote protocolB tokenA tokenB testAmount poolB)
    as [qBA |]; cbn [bind]; [| discriminate].
  destruct (Protocol.getQuote protocolA tokenB tokenA qBA poolA)
    as [qABack |]; cbn [bind]; [| discriminate].
  destruct (percentOf (qABack - testAmount) testAmount) as [pc2 |];
    cbn [bind]; [| discriminate].
  destruct (Js.gt pc1 pc2 && Js.gt pc1 (Js.ofZ 0));
    [| destruct (Js.gt pc2 (Js.ofZ 0)); [| discriminate]].
  all: destruct (Protocol.estimateGas protocolA _); cbn [bind]; [| discriminate].
  all: destruct (Protocol.estimateGas protocolB _); cbn [bind]; [| discriminate].
  all: destruct (calculateMinAmount qAB (Config.maxSlippage cfg))
         as [minOut1 |] eqn:M1; cbn [bind]; [| discriminate].
  all: destruct (calculateMinAmount qBack (Config.maxSlippage cfg))
         as [minOut2 |] eqn:M2; cbn [bind]; [| discriminate].
  all: intros H; injection H as <-; cbn [Opportunity.buyPool Opportunity.sellPool Opportunity.executionPath].
  all: exists testAmount, protocolA, protocolB, qAB, qBack, minOut1, minOut2.
  all: repeat split; auto.
Qed.




(** When the reverse direction wins (here: the same venues with the pools
    passed in the other order), the legs still carry the amounts of the
    forward probe: the first leg, on the venue quoting 2000007, is
    protected at 1911000, the truncated 98 % of the other venue's 1950000. *)
Lemma reverse_direction_uses_forward_quotes :
  exists o leg1 leg2,
    calculateArbitrage Sample.cfg Sample.venues 5 Sample.usdc Sample.weth
      Sample.poolB Sample.poolA = Some o /\
    Opportunity.buyPool o = Sample.poolA /\
    Opportunity.executionPath o = [leg1; leg2] /\
    quoteForLeg Sample.venues 1 leg1 = Some 2000007 /\
    TradeStep.amountOutMin leg1 = 1911000 /\
    TradeStep.amountIn leg2 = 1950000.
Proof.
  eexists. eexists. eexists. split; [vm_compute; reflexivity |].
  repeat split.
Qed.

End ScannerFacts.

(** ** The execution orchestrator *)

Module EngineFacts.
Import TradingExecutionEngine.

(** *** Sequential execution *)

(** The loop hands a prefix of the path to [executeTrade], and every leg
    but the last of that prefix was confirmed with status 1. *)
Lemma executeSteps_trace (w : World) (chainId : Z)
    (steps : list TradeStep.t) :
  forall (acc : LoopState) (s : t),
  exists k,
    submitted (snd (executeSteps w chainId steps acc s))
      = submitted s ++ firstn k steps /\
    forall i step, (S i < k)%nat -> nth_error steps i = Some step ->
                   confirmedSuccess w chainId step = true.
Proof.
  induction steps as [| step rest IH]; intros acc s.
  - exists 0%nat. simpl. rewrite app_nil_r. split; [reflexivity |].
    intros i st Hi. lia.
  - simpl.
    destruct (protocolManager w (TradeStep.protocol step) chainId)
      as [protocol |] eqn:EP.
    2: { exists 0%nat. simpl. rewrite app_nil_r. split; [reflexivity |].
         intros i st Hi. lia. }
    destruct (Protocol.executeTrade protocol step "0x") as [txHash | e] eqn:EX.
    2: { exists 1%nat. simpl. split; [reflexivity |]. intros i st Hi. lia. }
    destruct (waitForTransaction w txHash) as [[receipt |] | e] eqn:EW.
    2, 3: exists 1%nat; simpl; split; [reflexivity |]; intros i st Hi; lia.
    destruct (bool_decide (status receipt = Some 1)) eqn:EB; simpl.
    2: { exists 1%nat. simpl. split; [reflexivity |]. intros i st Hi. lia. }
    destruct (IH (mkLoop None (hashes acc ++ [txHash])
                    (totalGasUsed acc + receiptGasUsed receipt))
                 (logSubmission step s)) as (k & Hk & Hc).
    exists (S k). split.
    + rewrite Hk. simpl. rewrite <- app_assoc. reflexivity.
    + intros [| i] st Hi Hnth; simpl in Hnth.
      * injection Hnth as <-. unfold confirmedSuccess.
        rewrite EP, EX, EW. exact EB.
      * apply (Hc i st); [lia | exact Hnth].
Qed.

Lemma executeSteps_walletReady (w : World) (chainId : Z)
    (steps : list TradeStep.t) :
  forall (acc : LoopState) (s : t),
  walletReady (snd (executeSteps w chainId steps acc s)) = walletReady s.
Proof.
  induction steps as [| step rest IH]; intros acc s; simpl; [reflexivity |].
  destruct (protocolManager w (TradeStep.protocol step) chainId);
    [| reflexivity].
  destruct (Protocol.executeTrade _ step "0x"); [| reflexivity].
  destruct (waitForTransaction w _) as [[receipt |] |]; try reflexivity.
  destruct (bool_decide (status receipt = Some 1)); simpl; [| reflexivity].
  rewrite IH. reflexivity.
Qed.

Lemma executeTrades_submitted (w : World) (o : Opportunity.t) (s : t) :
  exists k,
    submitted (snd (executeTrades w o s))
      = submitted s ++ firstn k (Opportunity.executionPath o) /\
    forall i step, (S i < k)%nat ->
                   nth_error (Opportunity.executionPath o) i = Some step ->
                   confirmedSuccess w (Token.chainId (Opportunity.tokenA o))
                     step = true.
Proof.
  unfold executeTrades.
  destruct (walletReady s) eqn:Hready; simpl.
  2: { exists 0%nat. simpl. rewrite app_nil_r. split; [reflexivity |].
       intros i st Hi. lia. }
  destruct (walletGetAddress w) as [walletAddress | e]; simpl.
  2: { exists 0%nat. simpl. rewrite app_nil_r. split; [reflexivity |].
       intros i st Hi. lia. }
  destruct (executeSteps_trace w (Token.chainId (Opportunity.tokenA o))
              (Opportunity.executionPath o) (mkLoop None [] 0) s)
    as (k & Hk & Hc).
  destruct (executeSteps w (Token.chainId (Opportunity.tokenA o))
              (Opportunity.executionPath o) (mkLoop None [] 0) s)
    as [acc s1] eqn:ES.
  simpl in Hk. exists k. split; [| exact Hc].
  destruct (raised acc); simpl; [exact Hk |].
  unfold getTokenBalance.
  assert (Hr : walletReady s1 = walletReady s).
  { pose proof (executeSteps_walletReady w
                  (Token.chainId (Opportunity.tokenA o))
                  (Opportunity.executionPath o) (mkLoop None [] 0) s) as Hw.
    rewrite ES in Hw. exact Hw. }
  rewrite Hr, Hready. simpl.
  unfold call. repeat case_match; simplify_eq; simpl; exact Hk.
Qed.

(** C5.  [executeTrades] hands the legs to the venues in path order, and
    never hands over leg [i + 1] unless leg [i] was confirmed with status 1.
    In particular, when leg 1 is confirmed with status 1 and leg 2 with any
    other status, the result has [success = false] and its
    [transactionHashes] are exactly leg 1's hash. *)
Theorem sequential_execution :
  (forall (w : World) (o : Opportunity.t) (s : t),
     exists trace,
       submitted (snd (executeTrades w o s)) = submitted s ++ trace /\
       (exists k, trace = firstn k (Opportunity.executionPath o)) /\
       forall i prev,
         nth_error (Opportunity.executionPath o) i = Some prev ->
         confirmedSuccess w (Token.chainId (Opportunity.tokenA o)) prev
           = false ->
         nth_error trace (S i) = None) /\
  (forall (w : World) (o : Opportunity.t) (s : t) (leg1 leg2 : TradeStep.t)
          (venue1 venue2 : Protocol.t) (hash1 hash2 walletAddress : string)
          (receipt1 receipt2 : Receipt),
     walletReady s = true ->
     walletGetAddress w = Js.Return walletAddress ->
     Opportunity.executionPath o = [leg1; leg2] ->
     protocolManager w (TradeStep.protocol leg1)
       (Token.chainId (Opportunity.tokenA o)) = Some venue1 ->
     Protocol.executeTrade venue1 leg1 "0x" = Js.Return hash1 ->
     waitForTransaction w hash1 = Js.Return (Some receipt1) ->
     status receipt1 = Some 1 ->
     protocolManager w (TradeStep.protocol leg2)
       (Token.chainId (Opportunity.tokenA o)) = Some venue2 ->
     Protocol.executeTrade venue2 leg2 "0x" = Js.Return hash2 ->
     waitForTransaction w hash2 = Js.Return (Some receipt2) ->
     status receipt2 <> Some 1 ->
     exists r s',
       executeTrades w o s = (Js.Return r, s') /\
       success r = false /\
       transactionHashes r = [hash1] /\
       submitted s' = submitted s ++ [leg1; leg2]).
Proof.
  split.
  - intros w o s.
    destruct (executeTrades_submitted w o s) as (k & Hk & Hc).
    exists (firstn k (Opportunity.executionPath o)).
    split; [exact Hk |]. split; [exists k; reflexivity |].
    intros i prev Hnth Hfail.
    apply nth_error_None. rewrite length_take.
    destruct (Nat.lt_ge_cases (S i) k) as [Hlt | Hge]; [| lia].
    rewrite (Hc i prev Hlt Hnth) in Hfail. discriminate.
  - intros w o s leg1 leg2 venue1 venue2 hash1 hash2 walletAddress
      receipt1 receipt2 Hready Haddr Hpath Hv1 Hx1 Hw1 Hs1 Hv2 Hx2 Hw2 Hs2.
    unfold executeTrades. rewrite Hready, Haddr, Hpath. simpl.
    rewrite Hv1, Hx1, Hw1, (bool_decide_eq_true_2 _ Hs1). simpl.
    rewrite Hv2, Hx2, Hw2, (bool_decide_eq_false_2 _ Hs2). simpl.
    eexists. eexists. split; [reflexivity |].
    simpl. repeat split. rewrite <- app_assoc. reflexivity.
Qed.

Lemma sequential_execution_witness :
  (exists trace,
     submitted (snd (executeTrades (Sample.world Sample.confident)
                       Sample.detected Sample.idleEngine)) = [] ++ trace /\
     nth_error trace 2 = None) /\
  exists r s',
    executeTrades (Sample.world Sample.confident) Sample.detected
      Sample.idleEngine = (Js.Return r, s') /\
    success r = false /\ transactionHashes r = ["0xleg1"%string].
Proof.
  destruct sequential_execution as [Hgen Hd]. split.
  - destruct (Hgen (Sample.world Sample.confident) Sample.detected
                Sample.idleEngine) as (trace & Ht & _ & Hn).
    exists trace. split; [exact Ht |].
    destruct (nth_error (Opportunity.executionPath Sample.detected) 1)
      as [leg2 |] eqn:E; [| vm_compute in E; discriminate].
    apply (Hn 1%nat leg2 E).
    vm_compute in E. injection E as <-. vm_compute. reflexivity.
  - destruct (nth_error (Opportunity.executionPath Sample.detected) 0)
      as [leg1 |] eqn:E1; [| vm_compute in E1; discriminate].
    destruct (nth_error (Opportunity.executionPath Sample.detected) 1)
      as [leg2 |] eqn:E2; [| vm_compute in E2; discriminate].
    vm_compute in E1. injection E1 as <-.
    vm_compute in E2. injection E2 as <-.
    match goal with
    | |- context [executeTrades ?w ?o ?s] =>
        edestruct (Hd w o s) as (r & s' & Hr & Hf & Hh & _)
    end.
    12: { exists r, s'. split; [exact Hr |]. split; [exact Hf | exact Hh]. }
    all: try (vm_compute; reflexivity).
    vm_compute. discriminate.
Defined.

(** *** The pipeline boundary *)

(** A result that [executePipeline] returns is one that [executeTrades]
    returned. *)
Lemma executePipeline_return (cfg : Config.t) (w : World)
    (o : Opportunity.t) (s s' : t) (r : ExecutionResult) :
  executePipeline cfg w o s = (Js.Return r, s') ->
  exists validated s1 s2,
    executeTrades w validated s1 = (Js.Return r, s2).
Proof.
  unfold executePipeline, bind, emit, modify, call, ret, throw.
  intros H. repeat case_match; simplify_eq; do 3 eexists; eassumption.
Qed.




End EngineFacts.

(** ** Further properties of the risk gate *)

Module LedgerFacts.
Import RiskManager.

(** X1.  For a non-negative input amount the adjusted position size of an
    assessment lies between half of the input (truncated) and the input. *)
Theorem adjustedPositionSize_bounds (cfg : Config.t) (now : Z) (this : t)
    (o : Opportunity.t) (ai : option Prediction.t) :
  0 <= Opportunity.inputAmount o ->
  let a := fst (assessRisk cfg now this o ai) in
  Z.quot (Opportunity.inputAmount o) 2 <= adjustedPositionSize a
  /\ adjustedPositionSize a <= Opportunity.inputAmount o.
Proof.
  intros Hin a.
  destruct (RiskFacts.assessRisk_fields cfg now this o ai) as (_ & _ & Hp & _).
  fold a in Hp. rewrite Hp.
  unfold calculateAdjustedPositionSize, sizeMultiplier.
  set (b := Opportunity.inputAmount o) in *.
  assert (Hhalf : Z.quot b 2 = Z.quot (b * 50) 100).
  { change 100 with (2 * 50). rewrite Z.quot_mul_cancel_r; lia. }
  assert (Hfull : b = Z.quot (b * 100) 100).
  { rewrite Z.quot_mul; lia. }
  rewrite Hhalf.
  destruct (riskScore a >? 50);
    [| destruct (riskScore a >? 30); [| destruct (riskScore a >? 15)]].
  - change (Qfloor ((5 # 10) * 100)) with 50. split; [lia |].
    rewrite Hfull at 2. apply Z.quot_le_mono; lia.
  - change (Qfloor ((7 # 10) * 100)) with 70.
    split; [apply Z.quot_le_mono; lia |].
    rewrite Hfull at 2. apply Z.quot_le_mono; lia.
  - change (Qfloor ((85 # 100) * 100)) with 85.
    split; [apply Z.quot_le_mono; lia |].
    rewrite Hfull at 2. apply Z.quot_le_mono; lia.
  - change (Qfloor (1 * 100)) with 100.
    split; [apply Z.quot_le_mono; lia |].
    rewrite <- Hfull. lia.
Qed.

Lemma adjustedPositionSize_bounds_witness :
  let a := fst (assessRisk Sample.cfg 1000 Sample.ledger Sample.thinMargin
                  None) in
  Z.quot (Opportunity.inputAmount Sample.thinMargin) 2
    <= adjustedPositionSize a
  /\ adjustedPositionSize a <= Opportunity.inputAmount Sample.thinMargin.
Proof.
  apply (adjustedPositionSize_bounds Sample.cfg 1000 Sample.ledger
           Sample.thinMargin None).
  vm_compute. discriminate.
Defined.

(** X2.  With three or more active trades no opportunity is approved and
    the reasons say so; with fifty or more trades recorded for the current
    day (no reset being due) no opportunity is approved either. *)
Theorem trade_caps_block_approval (cfg : Config.t) (now : Z) (this : t)
    (o : Opportunity.t) (ai : option Prediction.t) :
  let a := fst (assessRisk cfg now this o ai) in
  (3 <= activeTrades this ->
     shouldExecute a = false /\
     In "Multiple concurrent trades - increased risk"%string (reasons a)) /\
  (50 <= dailyTrades this -> now <= dailyResetTime this ->
     shouldExecute a = false).
Proof.
  intros a.
  destruct (RiskFacts.assessRisk_fields cfg now this o ai)
    as (_ & Hx & _ & Hr).
  fold a in Hx, Hr. split.
  - intros H3. split.
    + rewrite Hx. unfold shouldExecuteTrade.
      rewrite RiskFacts.rolled_activeTrades.
      destruct (riskScore a >? 70); [reflexivity |].
      destruct (dailyTrades (rolled now this) >=? 50); [reflexivity |].
      destruct (Z.geb_spec (activeTrades this) 3); [reflexivity | lia].
    + rewrite Hr. rewrite !in_app_iff. do 6 right.
      unfold assessMarketConditionsRisk.
      rewrite RiskFacts.rolled_activeTrades.
      destruct (Z.geb_spec (activeTrades this) 3); [| lia].
      RiskFacts.split_ifs; simpl; auto 6.
  - intros H50 Hnow. rewrite Hx. unfold shouldExecuteTrade, rolled.
    destruct (Z.gtb_spec now (dailyResetTime this)); [lia |].
    destruct (riskScore a >? 70); [reflexivity |].
    destruct (Z.geb_spec (dailyTrades this) 50); [reflexivity | lia].
Qed.

Lemma trade_caps_block_approval_witness :
  shouldExecute
    (fst (assessRisk Sample.cfg 1000 (Vary.activeTrades 3 Sample.ledger)
            (Fixture.stableAt 1) None)) = false /\
  shouldExecute
    (fst (assessRisk Sample.cfg 1000
            (mk 0 50 0 0 msPerDay ∅ ∅) (Fixture.stableAt 1) None)) = false.
Proof.
  split.
  - destruct (trade_caps_block_approval Sample.cfg 1000
                (Vary.activeTrades 3 Sample.ledger) (Fixture.stableAt 1) None)
      as [H _].
    apply H. simpl. lia.
  - destruct (trade_caps_block_approval Sample.cfg 1000
                (mk 0 50 0 0 msPerDay ∅ ∅) (Fixture.stableAt 1) None)
      as [_ H].
    apply H; simpl; unfold msPerDay; lia.
Defined.

(** *** Range of the score *)

Lemma tokenRisk_upper (this : t) (o : Opportunity.t) :
  score (assessTokenRisk this o) <= 110.
Proof. unfold assessTokenRisk. RiskFacts.split_ifs; simpl; lia. Qed.

Lemma protocolRisk_upper (this : t) (o : Opportunity.t) :
  score (assessProtocolRisk this o) <= 70.
Proof. unfold assessProtocolRisk. RiskFacts.split_ifs; simpl; lia. Qed.

Lemma liquidityRisk_upper (o : Opportunity.t) :
  score (assessLiquidityRisk o) <= 55.
Proof. unfold assessLiquidityRisk. RiskFacts.split_ifs; simpl; lia. Qed.

Lemma profitScore_upper (p : Js.number) : profitScore p <= 25.
Proof.
  unfold profitScore.
  assert (X : Js.gt p (Js.ofZ 2) = true -> Js.lt p (Js.Fin (2 # 10)) = false).
  { unfold Js.gt. destruct p; simpl; try congruence.
    intros; JsFacts.qcases; try congruence; unfold inject_Z in *; lra. }
  assert (Y : Js.gt p (Js.ofZ 5) = true -> Js.gt p (Js.ofZ 2) = true).
  { unfold Js.gt. destruct p; simpl; try congruence.
    intros; JsFacts.qcases; try congruence; unfold inject_Z in *; lra. }
  assert (W : Js.lt p (Js.Fin (1 # 10)) = true ->
              Js.lt p (Js.Fin (2 # 10)) = true).
  { destruct p; simpl; try congruence.
    intros; JsFacts.qcases; try congruence; lra. }
  destruct (Js.gt p (Js.ofZ 5)), (Js.gt p (Js.ofZ 2)),
    (Js.lt p (Js.Fin (1 # 10))), (Js.lt p (Js.Fin (2 # 10)));
    try (specialize (X eq_refl)); try (specialize (Y eq_refl));
    try (specialize (W eq_refl)); try discriminate; lia.
Qed.

Lemma aiPartial_upper (ai : option Prediction.t) : score (aiPartial ai) <= 75.
Proof.
  destruct ai; simpl; [| lia].
  unfold assessAIPredictionRisk. RiskFacts.split_ifs; simpl; lia.
Qed.

Lemma positionRisk_upper (cfg : Config.t) (this : t) (o : Opportunity.t) :
  score (assessPositionSizeRisk cfg this o) <= 60.
Proof. unfold assessPositionSizeRisk. RiskFacts.split_ifs; simpl; lia. Qed.

Lemma marketRisk_upper (now : Z) (this : t) (o : Opportunity.t) :
  score (assessMarketConditionsRisk now this o) <= 40.
Proof.
  unfold assessMarketConditionsRisk. RiskFacts.split_ifs; simpl; lia.
Qed.

Lemma riskScore_bounds (cfg : Config.t) (now : Z) (this : t)
    (o : Opportunity.t) (ai : option Prediction.t) :
  -10 <= riskScoreOf cfg now this o ai <= 435.
Proof.
  rewrite RiskFacts.riskScore_sum, Monotone.profitRisk_score.
  pose proof (RiskFacts.tokenRisk_lower (rolled now this) o).
  pose proof (tokenRisk_upper (rolled now this) o).
  pose proof (RiskFacts.protocolRisk_lower (rolled now this) o).
  pose proof (protocolRisk_upper (rolled now this) o).
  pose proof (RiskFacts.liquidityRisk_lower o).
  pose proof (liquidityRisk_upper o).
  pose proof (RiskFacts.profitRisk_lower o) as Hp.
  rewrite Monotone.profitRisk_score in Hp.
  pose proof (profitScore_upper (Opportunity.profitPercentage o)).
  pose proof (RiskFacts.aiPartial_lower ai).
  pose proof (aiPartial_upper ai).
  pose proof (RiskFacts.positionRisk_lower cfg (rolled now this) o).
  pose proof (positionRisk_upper cfg (rolled now this) o).
  pose proof (RiskFacts.marketRisk_lower now (rolled now this) o).
  pose proof (marketRisk_upper now (rolled now this) o).
  lia.
Qed.

(** X3.  Every risk score lies between -10 and 435, and the level is
    CRITICAL exactly for the scores above 70, which are never approved. *)
Theorem riskScore_range (cfg : Config.t) (now : Z) (this : t)
    (o : Opportunity.t) (ai : option Prediction.t) :
  let a := fst (assessRisk cfg now this o ai) in
  -10 <= riskScore a <= 435 /\
  (riskLevel a = CRITICAL <-> 70 < riskScore a) /\
  (shouldExecute a = true -> riskLevel a <> CRITICAL).
Proof.
  intros a.
  destruct (RiskFacts.assessRisk_fields cfg now this o ai)
    as (Hl & Hx & _ & _).
  fold a in Hl, Hx.
  assert (Hrange : -10 <= riskScore a <= 435)
    by exact (riskScore_bounds cfg now this o ai).
  assert (Hcrit : riskLevel a = CRITICAL <-> 70 < riskScore a).
  { rewrite Hl. unfold levelOf.
    destruct (Z.leb_spec (riskScore a) 20);
      [split; [discriminate | lia] |].
    destruct (Z.leb_spec (riskScore a) 40);
      [split; [discriminate | lia] |].
    destruct (Z.leb_spec (riskScore a) 70);
      [split; [discriminate | lia] |].
    split; [lia | reflexivity]. }
  split; [exact Hrange |]. split; [exact Hcrit |].
  intros Hok Hc. apply Hcrit in Hc.
  rewrite Hx in Hok. unfold shouldExecuteTrade in Hok.
  destruct (Z.gtb_spec (riskScore a) 70); [discriminate | lia].
Qed.

Lemma riskScore_range_witness :
  riskLevel (fst (assessRisk Sample.cfg 1000 Sample.ledger
                    (Fixture.stableAt 1) None)) <> CRITICAL.
Proof.
  apply (riskScore_range Sample.cfg 1000 Sample.ledger (Fixture.stableAt 1)
           None).
  vm_compute. reflexivity.
Defined.

(** *** Counters under sequences of calls *)

Lemma perform_counters (this : t) (c : Ledger.Call) (n : Z) :
  0 <= activeTrades this <= n -> 0 <= dailyTrades this <= n ->
  0 <= activeTrades (Ledger.perform this c)
       <= n + (if Ledger.isStart c then 1 else 0) /\
  0 <= dailyTrades (Ledger.perform this c)
       <= n + (if Ledger.isStart c then 1 else 0).
Proof.
  intros Ha Hd. destruct c; cbn [Ledger.perform Ledger.isStart].
  1: rewrite RiskFacts.assessRisk_ledger; unfold rolled;
     destruct (_ >? dailyResetTime this).
  all: simpl; lia.
Qed.

Lemma perform_volume (this : t) (c : Ledger.Call) :
  Ledger.nonNegativeAmounts [c] = true -> 0 <= dailyVolume this ->
  0 <= dailyVolume (Ledger.perform this c).
Proof.
  intros Hc Hv. destruct c; cbn [Ledger.perform].
  1: rewrite RiskFacts.assessRisk_ledger; unfold rolled;
     destruct (_ >? dailyResetTime this).
  all: simpl in *; try lia.
  destruct success; [| exact Hv].
  rewrite andb_true_r in Hc. apply Z.leb_le in Hc. lia.
Qed.

Lemma performAll_counters (calls : list Ledger.Call) :
  forall (this : t) (n : Z),
  0 <= activeTrades this <= n -> 0 <= dailyTrades this <= n ->
  0 <= activeTrades (Ledger.performAll this calls)
       <= n + Z.of_nat (length (List.filter Ledger.isStart calls)) /\
  0 <= dailyTrades (Ledger.performAll this calls)
       <= n + Z.of_nat (length (List.filter Ledger.isStart calls)).
Proof.
  induction calls as [| c rest IH]; intros this n Ha Hd.
  - simpl. lia.
  - unfold Ledger.performAll. simpl fold_left.
    destruct (perform_counters this c n Ha Hd) as [Ha' Hd'].
    specialize (IH (Ledger.perform this c)
                   (n + (if Ledger.isStart c then 1 else 0)) Ha' Hd').
    unfold Ledger.performAll in IH. simpl List.filter.
    destruct (Ledger.isStart c); simpl length; lia.
Qed.

Lemma performAll_volume (calls : list Ledger.Call) :
  forall (this : t),
  Ledger.nonNegativeAmounts calls = true -> 0 <= dailyVolume this ->
  0 <= dailyVolume (Ledger.performAll this calls).
Proof.
  induction calls as [| c rest IH]; intros this Hc Hv; [exact Hv |].
  unfold Ledger.performAll. simpl fold_left.
  unfold Ledger.nonNegativeAmounts in Hc. simpl in Hc.
  apply andb_true_iff in Hc. destruct Hc as [Hc Hrest].
  apply IH; [exact Hrest |].
  apply perform_volume; [| exact Hv].
  unfold Ledger.nonNegativeAmounts. simpl. rewrite Hc. reflexivity.
Qed.

(** X4.  Whatever sequence of public calls is made on a new risk manager,
    the active-trade counter and the daily trade counter never go negative
    and never exceed the number of [recordTradeStart] calls; the daily
    volume never goes negative as long as every [recordTradeEnd] reports a
    non-negative amount. *)
Theorem ledger_counters_bounded (now : Z) (calls : list Ledger.Call) :
  let this := Ledger.performAll (create now) calls in
  let starts := Z.of_nat (length (List.filter Ledger.isStart calls)) in
  0 <= activeTrades this <= starts /\
  0 <= dailyTrades this <= starts /\
  (Ledger.nonNegativeAmounts calls = true -> 0 <= dailyVolume this).
Proof.
  cbv zeta.
  destruct (performAll_counters calls (create now) 0) as [Ha Hd];
    [simpl; lia | simpl; lia |].
  split; [lia |]. split; [lia |].
  intros Hc. apply performAll_volume; [exact Hc | simpl; lia].
Qed.

Lemma ledger_counters_bounded_witness :
  0 <= dailyVolume
         (Ledger.performAll (create 0)
            [Ledger.RecordTradeStart 10; Ledger.RecordTradeEnd 500 true;
             Ledger.RecordTradeEnd 0 false]).
Proof.
  apply (ledger_counters_bounded 0
           [Ledger.RecordTradeStart 10; Ledger.RecordTradeEnd 500 true;
            Ledger.RecordTradeEnd 0 false]).
  reflexivity.
Defined.

Lemma performAll_keeps_activeTrades (calls : list Ledger.Call) :
  forall this,
  forallb Ledger.keepsActiveTrades calls = true ->
  activeTrades (Ledger.performAll this calls) = activeTrades this.
Proof.
  induction calls as [| c rest IH]; intros this H; [reflexivity |].
  simpl in H. apply andb_true_iff in H. destruct H as [Hc Hrest].
  unfold Ledger.performAll. simpl fold_left.
  change (fold_left Ledger.perform rest (Ledger.perform this c))
    with (Ledger.performAll (Ledger.perform this c) rest).
  rewrite IH by exact Hrest.
  destruct c; simpl in *; try discriminate; try reflexivity.
  apply RiskFacts.rolled_activeTrades.
Qed.

(** X5.  A [recordTradeStart] that is later answered by a [recordTradeEnd]
    leaves the active-trade counter where it was, whatever assessments and
    blacklist changes happen in between; an unmatched [recordTradeEnd]
    stops at zero. *)
Theorem start_end_restores_activeTrades (this : t) (now amount : Z)
    (success : bool) (between : list Ledger.Call) :
  forallb Ledger.keepsActiveTrades between = true ->
  (0 <= activeTrades this ->
     activeTrades
       (Ledger.performAll this
          (Ledger.RecordTradeStart now :: between
             ++ [Ledger.RecordTradeEnd amount success]))
     = activeTrades this) /\
  (activeTrades this <= 0 ->
     activeTrades
       (Ledger.performAll this
          (between ++ [Ledger.RecordTradeEnd amount success])) = 0).
Proof.
  intros Hb. unfold Ledger.performAll. split; intros Ha.
  - simpl fold_left. rewrite fold_left_app. simpl.
    change (fold_left Ledger.perform between (recordTradeStart now this))
      with (Ledger.performAll (recordTradeStart now this) between).
    rewrite performAll_keeps_activeTrades by exact Hb. simpl. lia.
  - rewrite fold_left_app. simpl.
    change (fold_left Ledger.perform between this)
      with (Ledger.performAll this between).
    rewrite performAll_keeps_activeTrades by exact Hb. lia.
Qed.

Lemma start_end_restores_activeTrades_witness :
  activeTrades
    (Ledger.performAll (Vary.activeTrades 2 Sample.ledger)
       (Ledger.RecordTradeStart 5
          :: [Ledger.AssessRisk Sample.cfg 9 Sample.thinMargin None]
          ++ [Ledger.RecordTradeEnd 7 true])) = 2 /\
  activeTrades
    (Ledger.performAll Sample.ledger
       ([Ledger.AddTokenToBlacklist "0xAB"]
          ++ [Ledger.RecordTradeEnd 7 false])) = 0.
Proof.
  split.
  - apply (start_end_restores_activeTrades
             (Vary.activeTrades 2 Sample.ledger) 5 7 true
             [Ledger.AssessRisk Sample.cfg 9 Sample.thinMargin None]
             eq_refl).
    simpl. lia.
  - apply (start_end_restores_activeTrades Sample.ledger 0 7 false
             [Ledger.AddTokenToBlacklist "0xAB"] eq_refl).
    simpl. lia.
Defined.

(** *** Blacklists *)

(** X6.  The asset blacklist ignores letter case: after
    [addTokenToBlacklist(a)] every token whose address equals [a] up to
    case is blacklisted, after [removeTokenFromBlacklist(a)] none of them
    is, and tokens with other addresses are not affected by either call. *)
Theorem token_blacklist_roundtrip (this : t) (tokenAddress : string)
    (tok : Token.t) :
  (Js.toLowerCase (Token.address tok) = Js.toLowerCase tokenAddress ->
     tokenBlacklisted (addTokenToBlacklist tokenAddress this) tok = true /\
     tokenBlacklisted (removeTokenFromBlacklist tokenAddress this) tok
       = false) /\
  (Js.toLowerCase (Token.address tok) <> Js.toLowerCase tokenAddress ->
     tokenBlacklisted (addTokenToBlacklist tokenAddress this) tok
       = tokenBlacklisted this tok /\
     tokenBlacklisted (removeTokenFromBlacklist tokenAddress this) tok
       = tokenBlacklisted this tok).
Proof.
  unfold tokenBlacklisted, addTokenToBlacklist, removeTokenFromBlacklist.
  simpl. split; intros H.
  - rewrite H. split.
    + apply bool_decide_eq_true_2. apply elem_of_union. left.
      apply elem_of_singleton. reflexivity.
    + apply bool_decide_eq_false_2. intros Hin.
      apply elem_of_difference in Hin. destruct Hin as [_ Hn].
      apply Hn. apply elem_of_singleton. reflexivity.
  - split; apply bool_decide_ext.
    + rewrite elem_of_union, elem_of_singleton. tauto.
    + rewrite elem_of_difference, elem_of_singleton. tauto.
Qed.

Lemma token_blacklist_roundtrip_witness :
  tokenBlacklisted
    (addTokenToBlacklist "0xa0B86A33e6441Bf7605308d4395b2863DBdb0413"
       Sample.ledger) Sample.usdc = true /\
  tokenBlacklisted
    (addTokenToBlacklist "0xa0B86A33e6441Bf7605308d4395b2863DBdb0413"
       Sample.ledger) Sample.weth
  = tokenBlacklisted Sample.ledger Sample.weth.
Proof.
  split.
  - apply (token_blacklist_roundtrip Sample.ledger
             "0xa0B86A33e6441Bf7605308d4395b2863DBdb0413" Sample.usdc).
    vm_compute. reflexivity.
  - apply (token_blacklist_roundtrip Sample.ledger
             "0xa0B86A33e6441Bf7605308d4395b2863DBdb0413" Sample.weth).
    vm_compute. discriminate.
Defined.

(** X7.  A blacklisted venue is a penalty, not a veto: with the buy or the
    sell venue on the venue blacklist the score is at least 40, the level
    is never LOW and a non-negative position is cut to 70 % or less, yet
    such an opportunity can still be approved. *)
Theorem blacklisted_venue_penalised :
  (forall cfg now this o ai,
     Pool.protocol (Opportunity.buyPool o) ∈ blacklistedProtocols this \/
     Pool.protocol (Opportunity.sellPool o) ∈ blacklistedProtocols this ->
     let a := fst (assessRisk cfg now this o ai) in
     40 <= riskScore a /\ riskLevel a <> LOW /\
     (0 <= Opportunity.inputAmount o ->
        adjustedPositionSize a
          <= Z.quot (Opportunity.inputAmount o * 70) 100)) /\
  (exists cfg now this o ai,
     Pool.protocol (Opportunity.buyPool o) ∈ blacklistedProtocols this /\
     shouldExecute (fst (assessRisk cfg now this o ai)) = true).
Proof.
  split.
  - intros cfg now this o ai Hbl a.
    destruct (RiskFacts.assessRisk_fields cfg now this o ai)
      as (Hl & _ & Hp & _).
    fold a in Hl, Hp.
    assert (Hs : 40 <= riskScore a).
    { change (riskScore a) with (riskScoreOf cfg now this o ai).
      rewrite RiskFacts.riskScore_sum.
      assert (Hb : 50 <= score (assessProtocolRisk (rolled now this) o)).
      { unfold assessProtocolRisk, protocolBlacklisted.
        assert (E : blacklistedProtocols (rolled now this)
                    = blacklistedProtocols this).
        { unfold rolled. destruct (_ >? _); reflexivity. }
        rewrite E.
        assert (B : bool_decide (Pool.protocol (Opportunity.buyPool o)
                                   ∈ blacklistedProtocols this)
                    || bool_decide (Pool.protocol (Opportunity.sellPool o)
                                      ∈ blacklistedProtocols this) = true).
        { apply orb_true_iff.
          destruct Hbl; [left | right]; apply bool_decide_eq_true_2;
            assumption. }
        rewrite B. RiskFacts.split_ifs; simpl; lia. }
      pose proof (RiskFacts.tokenRisk_lower (rolled now this) o).
      pose proof (RiskFacts.liquidityRisk_lower o).
      pose proof (RiskFacts.profitRisk_lower o).
      pose proof (RiskFacts.aiPartial_lower ai).
      pose proof (RiskFacts.positionRisk_lower cfg (rolled now this) o).
      pose proof (RiskFacts.marketRisk_lower now (rolled now this) o).
      lia. }
    split; [exact Hs |]. split.
    + rewrite Hl. unfold levelOf.
      destruct (Z.leb_spec (riskScore a) 20); [lia |].
      RiskFacts.split_ifs; discriminate.
    + intros Hin. rewrite Hp.
      unfold calculateAdjustedPositionSize, sizeMultiplier.
      destruct (riskScore a >? 50).
      * change (Qfloor ((5 # 10) * 100)) with 50.
        apply Z.quot_le_mono; lia.
      * destruct (Z.gtb_spec (riskScore a) 30); [| lia].
        change (Qfloor ((7 # 10) * 100)) with 70. lia.
  - exists Sample.cfg, 1000, Fixture.venueBlacklisted, (Fixture.stableAt 1),
      (Some Sample.confident).
    split; [| vm_compute; reflexivity].
    apply (bool_decide_eq_true_1 _). vm_compute. reflexivity.
Qed.

Lemma blacklisted_venue_penalised_witness :
  let a := fst (assessRisk Sample.cfg 1000 Fixture.venueBlacklisted
                  (Fixture.stableAt 1) (Some Sample.confident)) in
  40 <= riskScore a /\ riskLevel a <> LOW /\
  adjustedPositionSize a
    <= Z.quot (Opportunity.inputAmount (Fixture.stableAt 1) * 70) 100.
Proof.
  destruct (proj1 blacklisted_venue_penalised Sample.cfg 1000
              Fixture.venueBlacklisted (Fixture.stableAt 1)
              (Some Sample.confident)) as (H1 & H2 & H3).
  - left. apply (bool_decide_eq_true_1 _). vm_compute. reflexivity.
  - split; [exact H1 |]. split; [exact H2 |].
    apply H3. vm_compute. discriminate.
Defined.

(** *** Slippage tolerance and the profit bar *)

Lemma assessRisk_maxSlippage (cfg : Config.t) (now : Z) (this : t)
    (o : Opportunity.t) (ai : option Prediction.t) :
  maxSlippage (fst (assessRisk cfg now this o ai))
  = calculateAdjustedSlippage cfg (riskScoreOf cfg now this o ai).
Proof. reflexivity. Qed.

(** X8.  The slippage tolerance of an assessment is never below 0.1 %; for
    a configured tolerance of at least 0.1 % it never exceeds the
    configured one and equals it up to a score of 30.  A configured
    tolerance that is not a number stays not a number. *)
Theorem adjustedSlippage_bounds (cfg : Config.t) (now : Z) (this : t)
    (o : Opportunity.t) (ai : option Prediction.t) :
  let a := fst (assessRisk cfg now this o ai) in
  (Config.maxSlippage cfg = Js.NaN -> maxSlippage a = Js.NaN) /\
  (forall s, Config.maxSlippage cfg = Js.Fin s ->
     exists r, maxSlippage a = Js.Fin r /\
       (1 # 1000 <= r)%Q /\
       ((1 # 1000 <= s)%Q -> (r <= s)%Q) /\
       ((1 # 1000 <= s)%Q -> riskScore a <= 30 -> (r == s)%Q)).
Proof.
  intros a. unfold a. rewrite assessRisk_maxSlippage.
  change (riskScore (fst (assessRisk cfg now this o ai)))
    with (riskScoreOf cfg now this o ai).
  generalize (riskScoreOf cfg now this o ai). intros sc.
  unfold calculateAdjustedSlippage. split.
  - intros ->. RiskFacts.split_ifs; reflexivity.
  - intros s ->.
    destruct (Z.gtb_spec sc 50); [| destruct (Z.gtb_spec sc 30)]; simpl;
      match goal with
      | |- context [Qle_bool ?x ?y] => destruct (JsFacts.Qleb_spec x y)
      end;
      eexists; (split; [reflexivity |]);
      repeat split; intros; try lra; try lia.
Qed.

Lemma adjustedSlippage_bounds_witness :
  exists r,
    maxSlippage (fst (assessRisk Sample.cfg 1000 Sample.ledger
                        Sample.thinMargin None)) = Js.Fin r /\
    (r == 2 # 100)%Q.
Proof.
  destruct (proj2 (adjustedSlippage_bounds Sample.cfg 1000 Sample.ledger
                     Sample.thinMargin None) (2 # 100) eq_refl)
    as (r & Hr & _ & _ & Heq).
  exists r. split; [exact Hr |].
  apply Heq; [unfold Qle; simpl; lia | vm_compute; discriminate].
Defined.



(** X10.  After any assessment the stored reset time is not in the past,
    so further assessments up to that time leave the ledger alone: the
    daily reset happens at most once per UTC day.  When an assessment does
    reset, the new reset time is the next midnight UTC: a multiple of one
    day, later than now and at most one day away. *)
Theorem daily_reset_once (cfg : Config.t) (now : Z) (this : t)
    (o : Opportunity.t) (ai : option Prediction.t) :
  let this' := snd (assessRisk cfg now this o ai) in
  now <= dailyResetTime this' /\
  (forall cfg' now' o' ai',
     now' <= dailyResetTime this' ->
     snd (assessRisk cfg' now' this' o' ai') = this') /\
  (dailyResetTime this < now ->
     now < dailyResetTime this' <= now + msPerDay /\
     dailyResetTime this' mod msPerDay = 0).
Proof.
  cbv zeta. rewrite RiskFacts.assessRisk_ledger.
  assert (Hmid : now < nextUtcMidnight now <= now + msPerDay /\
                 nextUtcMidnight now mod msPerDay = 0).
  { unfold nextUtcMidnight, msPerDay.
    pose proof (Z.mod_pos_bound now 86400000 eq_refl).
    pose proof (Z.div_mod now 86400000). split; [lia |].
    rewrite <- Z.mul_succ_l. apply Z.mod_mul. discriminate. }
  assert (Hge : now <= dailyResetTime (rolled now this)).
  { unfold rolled. destruct (Z.gtb_spec now (dailyResetTime this)); simpl; lia. }
  split; [exact Hge |]. split.
  - intros cfg' now' o' ai' Hle. rewrite RiskFacts.assessRisk_ledger.
    unfold rolled at 1.
    destruct (Z.gtb_spec now' (dailyResetTime (rolled now this)));
      [lia | reflexivity].
  - intros Hlt. unfold rolled.
    destruct (Z.gtb_spec now (dailyResetTime this)); [| lia]. simpl.
    exact Hmid.
Qed.

Lemma daily_reset_once_witness :
  let this' := snd (assessRisk Sample.cfg (msPerDay + 5) Sample.busyLedger
                      Sample.unknownPair None) in
  snd (assessRisk Sample.cfg (msPerDay + 9) this' Sample.thinMargin None)
    = this' /\
  dailyResetTime this' = 2 * msPerDay.
Proof.
  destruct (daily_reset_once Sample.cfg (msPerDay + 5) Sample.busyLedger
              Sample.unknownPair None) as (_ & Hstable & Hnext).
  split.
  - apply Hstable. vm_compute. discriminate.
  - destruct Hnext as [_ _]; [vm_compute; reflexivity |]. reflexivity.
Defined.

End LedgerFacts.

(** ** Further properties of the venue clients *)

Module ClientFacts.

Lemma percent_of_bps (bps : Z) :
  Js.div (Js.ofZ bps) (Js.ofZ 100) = Js.Fin (inject_Z bps / inject_Z 100).
Proof. reflexivity. Qed.

Lemma percent_le (x y : Z) :
  x <= y ->
  Js.le (Js.Fin (inject_Z x / inject_Z 100)) (Js.Fin (inject_Z y / inject_Z 100))
  = true.
Proof.
  intros H. simpl. apply Qle_bool_iff.
  unfold Qdiv. apply Qmult_le_compat_r; [| discriminate].
  rewrite <- Zle_Qle. exact H.
Qed.

Lemma percent_range (x : Z) :
  0 <= x <= 10000 ->
  Js.le (Js.ofZ 0) (Js.Fin (inject_Z x / inject_Z 100)) = true /\
  Js.le (Js.Fin (inject_Z x / inject_Z 100)) (Js.ofZ 100) = true.
Proof.
  intros [Hlo Hhi]. simpl. split; apply Qle_bool_iff.
  - apply Qle_shift_div_l; [reflexivity |].
    rewrite Qmult_0_l. change 0%Q with (inject_Z 0).
    rewrite <- Zle_Qle. exact Hlo.
  - apply Qle_shift_div_r; [reflexivity |].
    rewrite <- inject_Z_mult, <- Zle_Qle. simpl. lia.
Qed.

(** The basis points lost to an input, for positive reserves. *)
Lemma impact_bps_range (amountIn reserve0 reserve1 : Z) :
  0 < reserve0 -> 0 < reserve1 -> 0 <= amountIn ->
  0 <= Z.quot ((reserve1 - Z.quot (reserve0 * reserve1) (reserve0 + amountIn))
               * 10000) reserve1 <= 10000.
Proof.
  intros H0 H1 Ha.
  assert (Hn : 0 <= Z.quot (reserve0 * reserve1) (reserve0 + amountIn)
               <= reserve1).
  { rewrite Z.quot_div_nonneg by nia. split.
    - apply Z.div_pos; nia.
    - apply Z.div_le_upper_bound; nia. }
  set (q := Z.quot (reserve0 * reserve1) (reserve0 + amountIn)) in *.
  rewrite Z.quot_div_nonneg by nia. split.
  - apply Z.div_pos; nia.
  - apply Z.div_le_upper_bound; nia.
Qed.

Lemma impact_bps_mono (a1 a2 reserve0 reserve1 : Z) :
  0 < reserve0 -> 0 < reserve1 -> 0 <= a1 <= a2 ->
  Z.quot ((reserve1 - Z.quot (reserve0 * reserve1) (reserve0 + a1)) * 10000)
         reserve1
  <= Z.quot ((reserve1 - Z.quot (reserve0 * reserve1) (reserve0 + a2)) * 10000)
            reserve1.
Proof.
  intros H0 H1 Ha.
  assert (Hq : Z.quot (reserve0 * reserve1) (reserve0 + a2)
               <= Z.quot (reserve0 * reserve1) (reserve0 + a1)).
  { rewrite !Z.quot_div_nonneg by nia.
    apply Z.div_le_compat_l; nia. }
  assert (Hn : Z.quot (reserve0 * reserve1) (reserve0 + a1) <= reserve1).
  { rewrite Z.quot_div_nonneg by nia. apply Z.div_le_upper_bound; nia. }
  set (q1 := Z.quot (reserve0 * reserve1) (reserve0 + a1)) in *.
  set (q2 := Z.quot (reserve0 * reserve1) (reserve0 + a2)) in *.
  rewrite !Z.quot_div_nonneg by nia.
  apply Z.div_le_mono; nia.
Qed.

(** X11.  For positive reserves and a non-negative input the price impact
    is a percentage between 0 and 100, it is 0 for an input of 0, and a
    larger input never has a smaller impact.  A zero second reserve, or an
    input cancelling the first, makes the computation throw. *)
Theorem calculatePriceImpact_range :
  (forall amountIn reserve0 reserve1,
     0 < reserve0 -> 0 < reserve1 -> 0 <= amountIn ->
     exists v,
       BaseProtocol.calculatePriceImpact amountIn reserve0 reserve1
         = Js.Return v /\
       Js.le (Js.ofZ 0) v = true /\ Js.le v (Js.ofZ 100) = true /\
       (amountIn = 0 -> v = Js.Fin (inject_Z 0 / inject_Z 100))) /\
  (forall a1 a2 reserve0 reserve1 v1 v2,
     0 < reserve0 -> 0 < reserve1 -> 0 <= a1 <= a2 ->
     BaseProtocol.calculatePriceImpact a1 reserve0 reserve1 = Js.Return v1 ->
     BaseProtocol.calculatePriceImpact a2 reserve0 reserve1 = Js.Return v2 ->
     Js.le v1 v2 = true) /\
  (forall amountIn reserve0 reserve1,
     reserve1 = 0 \/ reserve0 + amountIn = 0 ->
     exists e,
       BaseProtocol.calculatePriceImpact amountIn reserve0 reserve1
         = Js.Throw e).
Proof.
  split; [| split].
  - intros a r0 r1 H0 H1 Ha. unfold BaseProtocol.calculatePriceImpact.
    destruct (Z.eqb_spec (r0 + a) 0); [lia |].
    destruct (Z.eqb_spec r1 0); [lia |].
    eexists. split; [reflexivity |].
    rewrite percent_of_bps.
    pose proof (impact_bps_range a r0 r1 H0 H1 Ha) as Hr.
    destruct (percent_range _ Hr) as [Hlo Hhi].
    split; [exact Hlo |]. split; [exact Hhi |].
    intros ->. rewrite Z.add_0_r, (Z.mul_comm r0 r1), Z.quot_mul by lia.
    rewrite Z.sub_diag. reflexivity.
  - intros a1 a2 r0 r1 v1 v2 H0 H1 Ha.
    unfold BaseProtocol.calculatePriceImpact.
    destruct (Z.eqb_spec (r0 + a1) 0); [lia |].
    destruct (Z.eqb_spec (r0 + a2) 0); [lia |].
    destruct (Z.eqb_spec r1 0); [lia |].
    intros E1 E2. injection E1 as <-. injection E2 as <-.
    exact (percent_le _ _ (impact_bps_mono a1 a2 r0 r1 H0 H1 Ha)).
  - intros a r0 r1 H. unfold BaseProtocol.calculatePriceImpact.
    destruct (Z.eqb_spec (r0 + a) 0); [eauto |].
    destruct (Z.eqb_spec r1 0); [eauto | lia].
Qed.

Lemma calculatePriceImpact_range_witness :
  (exists v,
     BaseProtocol.calculatePriceImpact 1000 1000000 500000 = Js.Return v /\
     Js.le v (Js.ofZ 100) = true) /\
  (exists e, BaseProtocol.calculatePriceImpact 5 10 0 = Js.Throw e).
Proof.
  destruct calculatePriceImpact_range as (Hrange & _ & Hthrow). split.
  - destruct (Hrange 1000 1000000 500000) as (v & Hv & _ & Hle & _);
      [lia | lia | lia |].
    exists v. split; [exact Hv | exact Hle].
  - apply Hthrow. left. reflexivity.
Defined.

(** X12.  [estimateGas] of the Uniswap V3 client never throws: whenever
    building the router handle or the estimation call fails it answers
    "250000", and otherwise the decimal string of the estimate for a swap to
    the zero address with a deadline twenty minutes ahead. *)
Theorem estimateGas_falls_back (router : UniswapV3Client.Router) (now : Z)
    (step : TradeStep.t) :
  let params :=
    UniswapV3Client.mkParams (Token.address (TradeStep.tokenIn step))
      (Token.address (TradeStep.tokenOut step)) (UniswapV3Client.feeOf step)
      TradingExecutionEngine.ZeroAddress (now / 1000 + 1200)
      (TradeStep.amountIn step) (TradeStep.amountOutMin step) in
  (exists s, UniswapV3Client.estimateGas router now step = Js.Return s) /\
  (forall e, UniswapV3Client.newRouter router = Js.Throw e ->
     UniswapV3Client.estimateGas router now step = Js.Return "250000"%string)
  /\
  (forall e, UniswapV3Client.estimateGasCall router params = Js.Throw e ->
     UniswapV3Client.estimateGas router now step = Js.Return "250000"%string)
  /\
  (forall gas, UniswapV3Client.newRouter router = Js.Return tt ->
     UniswapV3Client.estimateGasCall router params = Js.Return gas ->
     UniswapV3Client.estimateGas router now step
       = Js.Return (Js.bigintToString gas)).
Proof.
  cbv zeta. unfold UniswapV3Client.estimateGas, UniswapV3Client.deadlineAt.
  destruct (UniswapV3Client.newRouter router) as [[] | e0];
    destruct (UniswapV3Client.estimateGasCall router _) as [g | e1];
    repeat split; intros; try congruence; eauto.
Qed.

Lemma estimateGas_falls_back_witness :
  UniswapV3Client.estimateGas Fixture.router 0
    (TradeStep.mk "uniswap_v3" Sample.usdc Sample.weth 5 4 Sample.poolA [])
  = Js.Return "250000"%string.
Proof.
  destruct (estimateGas_falls_back Fixture.router 0
              (TradeStep.mk "uniswap_v3" Sample.usdc Sample.weth 5 4
                 Sample.poolA [])) as (_ & _ & H & _).
  apply (H (Js.ErrorObj "execution reverted")). reflexivity.
Defined.

(** X13.  The engine hands every venue the literal key "0x".  With a
    Uniswap V3 client whose signer library rejects that key, [executeTrade]
    rethrows the rejection, so [executeTrades] on a non-empty path ends at
    the first leg: no success, no transaction hash, no gas, and the
    rejection as the error. *)
Theorem placeholder_key_stops_first_leg (w : TradingExecutionEngine.World)
    (o : Opportunity.t) (s : TradingExecutionEngine.t) (leg : TradeStep.t)
    (rest : list TradeStep.t) (venue : Protocol.t)
    (router : UniswapV3Client.Router) (now : Z) (e : Js.thrown)
    (walletAddress : string) :
  TradingExecutionEngine.walletReady s = true ->
  TradingExecutionEngine.walletGetAddress w = Js.Return walletAddress ->
  Opportunity.executionPath o = leg :: rest ->
  TradingExecutionEngine.protocolManager w (TradeStep.protocol leg)
    (Token.chainId (Opportunity.tokenA o)) = Some venue ->
  Protocol.executeTrade venue = UniswapV3Client.executeTrade router now ->
  UniswapV3Client.newWallet router "0x" = Js.Throw e ->
  TradingExecutionEngine.executeTrades w o s
  = (Js.Return
       (TradingExecutionEngine.mkResult false [] 0 0
          (TradingExecutionEngine.tradesEndTime w
           - TradingExecutionEngine.tradesStartTime w)
          (Some (Js.messageOr "Unknown execution error" e))),
     TradingExecutionEngine.logSubmission leg s).
Proof.
  intros Hready Haddr Hpath Hvenue Hclient Hkey.
  unfold TradingExecutionEngine.executeTrades.
  rewrite Hready, Haddr, Hpath. simpl.
  rewrite Hvenue, Hclient. unfold UniswapV3Client.executeTrade.
  rewrite Hkey. reflexivity.
Qed.

Lemma placeholder_key_stops_first_leg_witness :
  exists r s',
    TradingExecutionEngine.executeTrades Fixture.v3world Sample.detected
      Sample.idleEngine = (Js.Return r, s') /\
    TradingExecutionEngine.success r = false /\
    TradingExecutionEngine.transactionHashes r = [] /\
    TradingExecutionEngine.error r = Some "invalid private key"%string.
Proof.
  destruct (Opportunity.executionPath Sample.detected) as [| leg rest] eqn:E;
    [vm_compute in E; discriminate |].
  eexists. eexists. split.
  - apply (placeholder_key_stops_first_leg Fixture.v3world Sample.detected
             Sample.idleEngine leg rest Fixture.v3venue Fixture.router 0
             (Js.ErrorObj "invalid private key") "0xWallet");
      try reflexivity.
    exact E.
  - repeat split.
Defined.

(** *** Pool discovery *)

Lemma Qfloor_half (z : Z) : Qfloor (inject_Z z + (1 # 2)) = z.
Proof.
  pose proof (Qfloor_le (inject_Z z + (1 # 2))) as Hlo.
  pose proof (Qlt_floor (inject_Z z + (1 # 2))) as Hhi.
  set (k := Qfloor (inject_Z z + (1 # 2))) in *.
  assert (H1 : k <= z).
  { apply Z.lt_succ_r. rewrite Zlt_Qlt. unfold Z.succ.
    rewrite inject_Z_plus. change (inject_Z 1) with 1%Q. lra. }
  assert (H2 : z < k + 1).
  { rewrite Zlt_Qlt. lra. }
  lia.
Qed.

(** Scaling a fee tier down by a million and back, then rounding, gives the
    tier again. *)
Lemma fee_roundtrip (fee : Z) :
  Js.round (Js.mul (Js.div (Js.ofZ fee) (Js.ofZ 1000000)) (Js.ofZ 1000000))
  = Js.ofZ fee.
Proof.
  change (Js.round (Js.mul (Js.div (Js.ofZ fee) (Js.ofZ 1000000))
                      (Js.ofZ 1000000)))
    with (Js.Fin (inject_Z (Qfloor (inject_Z fee / inject_Z 1000000
                                    * inject_Z 1000000 + (1 # 2))))).
  assert (E : (inject_Z fee / inject_Z 1000000 * inject_Z 1000000 + (1 # 2)
               == inject_Z fee + (1 # 2))%Q).
  { apply Qplus_comp; [| reflexivity].
    rewrite Qmult_comm. apply Qmult_div_r. discriminate. }
  rewrite (Qfloor_comp _ _ E), Qfloor_half. reflexivity.
Qed.

Lemma poolForFee_shape (factory : UniswapV3Client.Factory) (chainId : Z)
    (tokenA tokenB : Token.t) (fee : Z) (p : Pool.t) :
  UniswapV3Client.poolForFee factory chainId tokenA tokenB fee = Some p ->
  Pool.protocol p = "uniswap_v3"%string /\ Pool.chainId p = chainId /\
  Pool.reserve0 p = 0 /\ Pool.reserve1 p = 0 /\
  Pool.id p <> TradingExecutionEngine.ZeroAddress /\
  (Pool.tokenA p = tokenA /\ Pool.tokenB p = tokenB \/
   Pool.tokenA p = tokenB /\ Pool.tokenB p = tokenA) /\
  Pool.fee p = Js.div (Js.ofZ fee) (Js.ofZ 1000000).
Proof.
  unfold UniswapV3Client.poolForFee.
  destruct (UniswapV3Client.getPool factory _ _ fee) as [addr |];
    [| discriminate].
  destruct (String.eqb_spec addr TradingExecutionEngine.ZeroAddress);
    [discriminate |].
  destruct (UniswapV3Client.readPool factory addr) as [[[liq t0] t1] |];
    [| discriminate].
  destruct (String.eqb (Js.toLowerCase t0) _); intros H;
    injection H as <-; simpl; repeat split; auto.
Qed.

(** X14.  Pool discovery of the Uniswap V3 client never throws; a failing
    subgraph or factory gives the empty list.  Read from the factory, there
    are at most three pools, one per fee tier that has a pool contract and
    answers; each is a "uniswap_v3" pool of the client's chain on the two
    requested tokens, with zero reserves, and the fee it records scales
    back to its tier, which is what [getQuote] sends to the quoter. *)
Theorem getPools_shape
    (graph : option (Js.completion (list Pool.t)))
    (factory : UniswapV3Client.Factory) (chainId : Z)
    (tokenA tokenB : Token.t) :
  (exists pools,
     UniswapV3Client.getPools graph factory chainId tokenA tokenB
       = Js.Return pools) /\
  (forall e, graph = Some (Js.Throw e) ->
     UniswapV3Client.getPools graph factory chainId tokenA tokenB
       = Js.Return []) /\
  (forall e, graph = None ->
     UniswapV3Client.newFactory factory = Js.Throw e ->
     UniswapV3Client.getPools graph factory chainId tokenA tokenB
       = Js.Return []) /\
  (forall pools, graph = None ->
     UniswapV3Client.getPools graph factory chainId tokenA tokenB
       = Js.Return pools ->
     (length pools <= 3)%nat /\
     forall p, In p pools ->
       Pool.protocol p = "uniswap_v3"%string /\ Pool.chainId p = chainId /\
       Pool.reserve0 p = 0 /\ Pool.reserve1 p = 0 /\
       Pool.id p <> TradingExecutionEngine.ZeroAddress /\
       (Pool.tokenA p = tokenA /\ Pool.tokenB p = tokenB \/
        Pool.tokenA p = tokenB /\ Pool.tokenB p = tokenA) /\
       exists fee,
         In fee UniswapV3Client.commonFees /\
         Js.round (Js.mul (Pool.fee p) (Js.ofZ 1000000)) = Js.ofZ fee).
Proof.
  split; [| split; [| split]].
  - unfold UniswapV3Client.getPools.
    destruct graph as [[pools | e] |]; eauto.
    destruct (UniswapV3Client.getPoolsFromContract _ _ _ _); eauto.
  - intros e ->. reflexivity.
  - intros e -> Hf. unfold UniswapV3Client.getPools,
      UniswapV3Client.getPoolsFromContract. rewrite Hf. reflexivity.
  - intros pools -> H. revert H.
    unfold UniswapV3Client.getPools, UniswapV3Client.getPoolsFromContract.
    destruct (UniswapV3Client.newFactory factory).
    2: { intros H. injection H as <-. split; [simpl; lia |].
         intros p []. }
    intros H. injection H as <-. split.
    + unfold UniswapV3Client.commonFees. cbn [flat_map].
      repeat match goal with
             | |- context [UniswapV3Client.poolForFee ?f ?c ?a ?b ?x] =>
                 destruct (UniswapV3Client.poolForFee f c a b x)
             end; simpl; lia.
    + intros p Hin.
      assert (Hex : exists fee,
                 In fee UniswapV3Client.commonFees /\
                 UniswapV3Client.poolForFee factory chainId tokenA tokenB fee
                   = Some p).
      { unfold UniswapV3Client.commonFees in *. cbn [flat_map] in Hin.
        rewrite !in_app_iff in Hin.
        destruct Hin as [H | [H | [H | []]]];
          [exists 500 | exists 3000 | exists 10000];
          (split; [simpl; auto |]);
          match goal with
          | |- ?x = _ =>
              destruct x;
              [destruct H as [<- | []]; reflexivity | destruct H]
          end. }
      destruct Hex as (fee & Hfee & E).
      destruct (poolForFee_shape _ _ _ _ _ _ E)
        as (H1 & H2 & H3 & H4 & H5 & H6 & H7).
      repeat (split; [assumption |]).
      exists fee. split; [exact Hfee |].
      rewrite H7. apply fee_roundtrip.
Qed.

Lemma getPools_shape_witness :
  exists p,
    UniswapV3Client.getPools None Fixture.factory 1 Sample.usdc Sample.weth
      = Js.Return [p] /\
    Pool.protocol p = "uniswap_v3"%string /\
    exists fee,
      In fee UniswapV3Client.commonFees /\
      Js.round (Js.mul (Pool.fee p) (Js.ofZ 1000000)) = Js.ofZ fee.
Proof.
  destruct (UniswapV3Client.getPools None Fixture.factory 1 Sample.usdc
              Sample.weth) as [pools | e] eqn:E;
    [| vm_compute in E; discriminate].
  destruct (getPools_shape None Fixture.factory 1 Sample.usdc Sample.weth)
    as (_ & _ & _ & H).
  destruct (H pools eq_refl E) as [_ Hall].
  destruct pools as [| p [| q rest]];
    [vm_compute in E; discriminate | | vm_compute in E; discriminate].
  exists p. split; [reflexivity |].
  destruct (Hall p (or_introl eq_refl)) as (Hname & _ & _ & _ & _ & _ & Hfee).
  split; [exact Hname | exact Hfee].
Defined.

End ClientFacts.

(** ** Further properties of the scanner *)

Module ScanFacts.
Import ArbitrageDetector.

Lemma percentOf_inv (profit amount : Z) (pc : Js.number) :
  percentOf profit amount = Js.Return pc ->
  amount <> 0 /\
  pc = Js.div (Js.ofZ (Z.quot (profit * 10000) amount)) (Js.ofZ 100).
Proof.
  unfold percentOf. destruct (Z.eqb_spec amount 0) as [| Hn]; [discriminate |].
  intros E. injection E as <-. split; [assumption | reflexivity].
Qed.

Lemma percent_positive (bps : Z) :
  Js.gt (Js.div (Js.ofZ bps) (Js.ofZ 100)) (Js.ofZ 0) = true -> 0 < bps.
Proof.
  rewrite ClientFacts.percent_of_bps. unfold Js.gt. simpl.
  destruct (JsFacts.Qltb_spec (inject_Z 0)
              (inject_Z bps / inject_Z 100)) as [H |]; [| discriminate].
  intros _. rewrite Zlt_Qlt.
  destruct (Qlt_le_dec (inject_Z 0) (inject_Z bps)) as [| Hle]; [assumption |].
  exfalso. apply (Qlt_not_le _ _ H).
  apply Qle_shift_div_r; [reflexivity |]. rewrite Qmult_0_l. exact Hle.
Qed.

Lemma parseUnitsOne_inv (decimals amount : Z) :
  parseUnitsOne decimals = Js.Return amount ->
  0 <= decimals /\ amount = 10 ^ decimals /\ 0 < amount.
Proof.
  unfold parseUnitsOne.
  destruct (Z.ltb_spec decimals 0) as [| Hd]; [discriminate |].
  intros E. injection E as <-. split; [assumption |].
  split; [reflexivity |]. apply Z.pow_pos_nonneg; lia.
Qed.

(** What the fields of a built opportunity are. *)
Lemma calculateArbitrage_built (cfg : Config.t) (pm : ProtocolManager)
    (now : Z) (tokenA tokenB : Token.t) (poolA poolB : Pool.t)
    (o : Opportunity.t) :
  calculateArbitrage cfg pm now tokenA tokenB poolA poolB = Some o ->
  Opportunity.tokenA o = tokenA /\ Opportunity.tokenB o = tokenB /\
  Opportunity.timestamp o = now /\
  Opportunity.inputAmount o = 10 ^ Token.decimals tokenA /\
  0 < Opportunity.inputAmount o /\
  Opportunity.profitPercentage o
    = Js.div (Js.ofZ (Z.quot (Opportunity.profitAmount o * 10000)
                        (Opportunity.inputAmount o))) (Js.ofZ 100) /\
  Js.gt (Opportunity.profitPercentage o) (Js.ofZ 0) = true /\
  Opportunity.confidence o
    = calculateConfidence (Opportunity.buyPool o) (Opportunity.sellPool o)
        (Opportunity.profitPercentage o) /\
  (Opportunity.buyPool o = poolA /\ Opportunity.sellPool o = poolB \/
   Opportunity.buyPool o = poolB /\ Opportunity.sellPool o = poolA) /\
  exists leg1 leg2,
    Opportunity.executionPath o = [leg1; leg2] /\
    TradeStep.tokenIn leg1 = tokenA /\ TradeStep.tokenOut leg1 = tokenB /\
    TradeStep.tokenIn leg2 = tokenB /\ TradeStep.tokenOut leg2 = tokenA /\
    TradeStep.amountIn leg1 = Opportunity.inputAmount o /\
    TradeStep.pool leg1 = Opportunity.buyPool o /\
    TradeStep.pool leg2 = Opportunity.sellPool o /\
    TradeStep.protocol leg1 = Pool.protocol (Opportunity.buyPool o) /\
    TradeStep.protocol leg2 = Pool.protocol (Opportunity.sellPool o).
Proof.
  unfold calculateArbitrage, calculateArbitrageBody.
  destruct (parseUnitsOne (Token.decimals tokenA)) as [testAmount |] eqn:EU;
    cbn [bind]; [| discriminate].
  destruct (parseUnitsOne_inv _ _ EU) as (_ & Htest & Hpos).
  destruct (pm (Pool.protocol poolA) (Token.chainId tokenA))
    as [protocolA |]; [| discriminate].
  destruct (pm (Pool.protocol poolB) (Token.chainId tokenA))
    as [protocolB |]; [| discriminate].
  destruct (Protocol.getQuote protocolA tokenA tokenB testAmount poolA)
    as [qAB |]; cbn [bind]; [| discriminate].
  destruct (Protocol.getQuote protocolB tokenB tokenA qAB poolB)
    as [qBack |]; cbn [bind]; [| discriminate].
  destruct (percentOf (qBack - testAmount) testAmount) as [pc1 |] eqn:P1;
    cbn [bind]; [| discriminate].
  destruct (Protocol.getQuote protocolB tokenA tokenB testAmount poolB)
    as [qBA |]; cbn [bind]; [| discriminate].
  destruct (Protocol.getQuote protocolA tokenB tokenA qBA poolA)
    as [qABack |]; cbn [bind]; [| discriminate].
  destruct (percentOf (qABack - testAmount) testAmount) as [pc2 |] eqn:P2;
    cbn [bind]; [| discriminate].
  destruct (percentOf_inv _ _ _ P1) as [_ E1].
  destruct (percentOf_inv _ _ _ P2) as [_ E2].
  destruct (Js.gt pc1 pc2 && Js.gt pc1 (Js.ofZ 0)) eqn:D1;
    [| destruct (Js.gt pc2 (Js.ofZ 0)) eqn:D2; [| discriminate]].
  all: destruct (Protocol.estimateGas protocolA _); cbn [bind];
         [| discriminate].
  all: destruct (Protocol.estimateGas protocolB _); cbn [bind];
         [| discriminate].
  all: destruct (calculateMinAmount qAB (Config.maxSlippage cfg))
         as [minOut1 |]; cbn [bind]; [| discriminate].
  all: destruct (calculateMinAmount qBack (Config.maxSlippage cfg))
         as [minOut2 |]; cbn [bind]; [| discriminate].
  all: intros H; injection H as <-; simpl.
  1: apply andb_true_iff in D1; destruct D1 as [_ D1].
  all: repeat match goal with
              | |- _ /\ _ => split
              end;
       try reflexivity; try assumption; auto.
  all: do 2 eexists; repeat split; reflexivity.
Qed.



(** *** The scan of one pair *)

Lemma collectPools_length (venues : list Venue.t) (tokenA tokenB : Token.t) :
  forall allPools,
  Scan.collectPools venues tokenA tokenB = Js.Return allPools ->
  (length allPools <= length venues)%nat.
Proof.
  induction venues as [| v rest IH]; intros allPools; simpl.
  - intros H. injection H as <-. simpl. lia.
  - destruct (Venue.getPools v tokenA tokenB) as [pools |]; cbn [bind];
      [| discriminate].
    destruct (Scan.collectPools rest tokenA tokenB) as [more |];
      cbn [bind]; [| discriminate].
    specialize (IH more eq_refl).
    intros H. injection H as <-.
    destruct (0 <? Z.of_nat (length pools)); simpl; lia.
Qed.

Lemma collectPools_throw (venues : list Venue.t) (tokenA tokenB : Token.t)
    (v : Venue.t) (e : Js.thrown) :
  In v venues -> Venue.getPools v tokenA tokenB = Js.Throw e ->
  exists e', Scan.collectPools venues tokenA tokenB = Js.Throw e'.
Proof.
  induction venues as [| x rest IH]; intros Hin Hv; [destruct Hin |].
  simpl. destruct Hin as [-> | Hin].
  - rewrite Hv. simpl. eauto.
  - destruct (Venue.getPools x tokenA tokenB); cbn [bind]; [| eauto].
    destruct (IH Hin Hv) as [e' ->]. simpl. eauto.
Qed.

Lemma comparePools_origin (cfg : Config.t) (m : Registry.t) (now : Z)
    (tokenA tokenB : Token.t) (allPools : list (string * list Pool.t))
    (o : Opportunity.t) :
  In o (Scan.comparePools cfg m now tokenA tokenB allPools) ->
  exists poolA poolB,
    calculateArbitrage cfg (Registry.manager m) now tokenA tokenB poolA poolB
      = Some o.
Proof.
  unfold Scan.comparePools. intros H.
  apply in_flat_map in H. destruct H as ([a b] & _ & H).
  apply in_flat_map in H. destruct H as (poolA & _ & H).
  apply in_flat_map in H. destruct H as (poolB & _ & H).
  exists poolA, poolB.
  destruct (calculateArbitrage cfg (Registry.manager m) now tokenA tokenB
              poolA poolB); [| destruct H].
  destruct H as [<- | []]. reflexivity.
Qed.

Lemma scanTokenPair_origin (cfg : Config.t) (m : Registry.t) (now : Z)
    (tokenA tokenB : Token.t) (o : Opportunity.t) :
  In o (Scan.scanTokenPair cfg m now tokenA tokenB) ->
  exists poolA poolB,
    calculateArbitrage cfg (Registry.manager m) now tokenA tokenB poolA poolB
      = Some o.
Proof.
  unfold Scan.scanTokenPair.
  destruct (Scan.collectPools _ tokenA tokenB) as [allPools |]; [| intros []].
  destruct (Z.of_nat (length allPools) <? 2); [intros [] |].
  apply comparePools_origin.
Qed.

(** X16.  A pair scan finds nothing when fewer than two venues serve the
    chain, and nothing when the pool discovery of any venue of the chain
    throws; whatever it does find was built by [calculateArbitrage] for the
    scanned pair, so it is a round trip on that pair with a positive
    profit. *)
Theorem scanTokenPair_results (cfg : Config.t) (m : Registry.t) (now : Z)
    (tokenA tokenB : Token.t) :
  ((length (Registry.getProtocolsByChain m (Token.chainId tokenA)) < 2)%nat ->
     Scan.scanTokenPair cfg m now tokenA tokenB = []) /\
  (forall v e,
     In v (Registry.getProtocolsByChain m (Token.chainId tokenA)) ->
     Venue.getPools v tokenA tokenB = Js.Throw e ->
     Scan.scanTokenPair cfg m now tokenA tokenB = []) /\
  (forall o, In o (Scan.scanTokenPair cfg m now tokenA tokenB) ->
     Opportunity.tokenA o = tokenA /\ Opportunity.tokenB o = tokenB /\
     (length (Opportunity.executionPath o) = 2)%nat /\
     Js.gt (Opportunity.profitPercentage o) (Js.ofZ 0) = true).
Proof.
  split; [| split].
  - intros Hlen. unfold Scan.scanTokenPair.
    destruct (Scan.collectPools _ tokenA tokenB) as [allPools |] eqn:E;
      [| reflexivity].
    apply collectPools_length in E.
    destruct (Z.ltb_spec (Z.of_nat (length allPools)) 2); [reflexivity | lia].
  - intros v e Hin Hv. unfold Scan.scanTokenPair.
    destruct (collectPools_throw _ _ _ _ _ Hin Hv) as [e' ->]. reflexivity.
  - intros o Hin.
    destruct (scanTokenPair_origin _ _ _ _ _ _ Hin) as (poolA & poolB & H).
    destruct (calculateArbitrage_built _ _ _ _ _ _ _ _ H)
      as (HA & HB & _ & _ & _ & _ & Hgt & _ & _ & leg1 & leg2 & Hpath & _).
    repeat split; try assumption. rewrite Hpath. reflexivity.
Qed.

Lemma scanTokenPair_results_witness :
  Scan.scanTokenPair Sample.cfg [] 5 Sample.usdc Sample.weth = [] /\
  Scan.scanTokenPair Sample.cfg Fixture.brokenRegistry 5 Sample.usdc
    Sample.weth = [] /\
  Opportunity.tokenA Sample.detected = Sample.usdc.
Proof.
  split; [| split].
  - apply (scanTokenPair_results Sample.cfg [] 5 Sample.usdc Sample.weth).
    simpl. lia.
  - destruct (scanTokenPair_results Sample.cfg Fixture.brokenRegistry 5
                Sample.usdc Sample.weth) as (_ & H & _).
    apply (H (Venue.mk Sample.venueB 1
                (fun _ _ => Js.Throw (Js.ErrorObj "rpc unavailable")))
             (Js.ErrorObj "rpc unavailable")); [| reflexivity].
    vm_compute. auto.
  - destruct (scanTokenPair_results Sample.cfg Fixture.registry 5
                Sample.usdc Sample.weth) as (_ & _ & H).
    apply (H Sample.detected). vm_compute. auto.
Defined.

(** *** Filtering and ordering of a tick *)

Lemma detectAll_finite (cfg : Config.t) (m : Registry.t) (now : Z)
    (tokens : list Token.t) :
  Forall Scan.finiteProfit (Scan.detectAll cfg m now tokens).
Proof.
  apply List.Forall_forall. intros o Hin. unfold Scan.detectAll in Hin.
  apply in_flat_map in Hin. destruct Hin as ([a b] & _ & Hin).
  destruct (scanTokenPair_origin _ _ _ _ _ _ Hin) as (poolA & poolB & H).
  destruct (calculateArbitrage_built _ _ _ _ _ _ _ _ H)
    as (_ & _ & _ & _ & _ & Hpc & _).
  rewrite ClientFacts.percent_of_bps in Hpc. eexists. exact Hpc.
Qed.

Lemma insertSorted_perm (x : Opportunity.t) (l : list Opportunity.t) :
  Permutation (Scan.insertSorted Scan.byProfitDescending x l) (x :: l).
Proof.
  induction l as [| y rest IH]; cbn [Scan.insertSorted]; [reflexivity |].
  destruct (Js.gt (Scan.byProfitDescending x y) (Js.ofZ 0)); [| reflexivity].
  apply perm_trans with (y :: x :: rest);
    [apply perm_skip, IH | apply perm_swap].
Qed.

Lemma sort_perm (l : list Opportunity.t) :
  Permutation (Scan.sort Scan.byProfitDescending l) l.
Proof.
  induction l as [| x rest IH]; [reflexivity |].
  unfold Scan.sort in *. cbn [fold_right].
  apply perm_trans with (x :: fold_right
      (Scan.insertSorted Scan.byProfitDescending) [] rest);
    [apply insertSorted_perm | apply perm_skip, IH].
Qed.

Lemma insertSorted_sorted (x : Opportunity.t) (l : list Opportunity.t) :
  Scan.finiteProfit x -> Forall Scan.finiteProfit l ->
  StronglySorted Scan.profitGe l ->
  StronglySorted Scan.profitGe (Scan.insertSorted Scan.byProfitDescending x l).
Proof.
  intros [px Hx] Hfin Hs. induction Hs as [| y rest Hs IH Hy]; simpl.
  - constructor; constructor.
  - inversion Hfin as [| ? ? [py Hpy] Hfin']; subst.
    unfold Scan.byProfitDescending at 1. rewrite Hx, Hpy.
    unfold Js.gt, Js.sub; simpl.
    destruct (JsFacts.Qltb_spec (inject_Z 0) (py + - px)) as [Hlt | Hge].
    + constructor; [apply IH; assumption |].
      apply List.Forall_forall. intros z Hz.
      apply (Permutation_in _ (insertSorted_perm x rest)) in Hz.
      destruct Hz as [<- | Hz].
      * unfold Scan.profitGe, Js.ge. rewrite Hx, Hpy. simpl.
        apply Qle_bool_iff. unfold inject_Z in Hlt. lra.
      * rewrite List.Forall_forall in Hy. apply Hy, Hz.
    + constructor; [constructor; assumption |].
      assert (Hxy : (py <= px)%Q) by (unfold inject_Z in Hge; lra).
      constructor.
      * unfold Scan.profitGe, Js.ge. rewrite Hx, Hpy. simpl.
        apply Qle_bool_iff. exact Hxy.
      * apply List.Forall_forall. intros z Hz.
        rewrite List.Forall_forall in Hy. specialize (Hy z Hz).
        rewrite List.Forall_forall in Hfin'. destruct (Hfin' z Hz) as [pz Hpz].
        unfold Scan.profitGe, Js.ge in *. rewrite Hx, Hpz. rewrite Hpy, Hpz in Hy.
        simpl in *. apply Qle_bool_iff. apply Qle_bool_iff in Hy. lra.
Qed.

Lemma sort_sorted (l : list Opportunity.t) :
  Forall Scan.finiteProfit l ->
  StronglySorted Scan.profitGe (Scan.sort Scan.byProfitDescending l).
Proof.
  induction l as [| x rest IH]; intros Hfin; simpl; [constructor |].
  inversion Hfin; subst.
  apply insertSorted_sorted; auto.
  apply List.Forall_forall. intros z Hz.
  apply (Permutation_in _ (sort_perm rest)) in Hz.
  rewrite List.Forall_forall in H2. auto.
Qed.

Lemma emitAll_quiet (listeners : Scan.ScanEventName -> option Js.thrown)
    (events : list Scan.ScanEvent) :
  (forall n, listeners n = None) ->
  Scan.emitAll listeners events = (events, None).
Proof.
  intros Hq. induction events as [| ev rest IH]; simpl; [reflexivity |].
  rewrite Hq, IH. reflexivity.
Qed.

(** X17 (scanForOpportunities): when no listener throws, one scan tick
    emits one [opportunity-found] per valid opportunity followed by one
    [scan-completed] carrying their number, and nothing else; the valid
    opportunities are exactly the detected ones whose profit percentage
    reaches the configured threshold (as a permutation, nothing lost and
    nothing duplicated), announced in order of non-increasing profit. *)
Theorem scan_tick_announcements (cfg : Config.t) (m : Registry.t) (now : Z)
    (listeners : Scan.ScanEventName -> option Js.thrown)
    (tokens : list Token.t) :
  (forall n, listeners n = None) ->
  let valid := Scan.validOpportunities cfg m now tokens in
  Scan.scanForOpportunities cfg m now listeners tokens
  = (map Scan.OpportunityFound valid
       ++ [Scan.ScanCompleted (Z.of_nat (length valid))], None)
  /\ StronglySorted Scan.profitGe valid
  /\ Permutation valid
       (List.filter (fun opp => Js.ge (Opportunity.profitPercentage opp)
                                  (Config.minProfitThreshold cfg))
                    (Scan.detectAll cfg m now tokens))
  /\ Forall (fun opp => Js.ge (Opportunity.profitPercentage opp)
                          (Config.minProfitThreshold cfg) = true) valid.
Proof.
  intros Hq valid.
  assert (Hperm : Permutation valid
       (List.filter (fun opp => Js.ge (Opportunity.profitPercentage opp)
                                  (Config.minProfitThreshold cfg))
                    (Scan.detectAll cfg m now tokens)))
    by apply sort_perm.
  repeat split.
  - unfold Scan.scanForOpportunities. fold valid.
    rewrite emitAll_quiet by exact Hq.
    destruct valid; reflexivity.
  - apply sort_sorted. apply List.Forall_forall. intros o Ho.
    apply filter_In in Ho. destruct Ho as [Ho _].
    pose proof (detectAll_finite cfg m now tokens) as Hfin.
    rewrite List.Forall_forall in Hfin. auto.
  - exact Hperm.
  - apply List.Forall_forall. intros o Ho.
    apply (Permutation_in _ Hperm) in Ho.
    apply filter_In in Ho. apply Ho.
Qed.

Lemma scan_tick_announcements_witness :
  Scan.scanForOpportunities Sample.cfg Fixture.registry 5 (fun _ => None)
    [Sample.usdc; Sample.weth]
  = ([Scan.OpportunityFound Sample.detected; Scan.ScanCompleted 1], None).
Proof.
  destruct (scan_tick_announcements Sample.cfg Fixture.registry 5
              (fun _ => None) [Sample.usdc; Sample.weth]) as (H & _);
    [reflexivity |].
  rewrite H. vm_compute. reflexivity.
Defined.

(** X18 (scanForOpportunities): a listener that throws on an
    [opportunity-found] event stops the announcements at that event: the
    remaining opportunities are not announced, no [scan-completed] is
    emitted, and one [scan-error] carrying the thrown value is emitted
    instead. *)
Theorem scan_tick_listener_failure (cfg : Config.t) (m : Registry.t)
    (now : Z) (listeners : Scan.ScanEventName -> option Js.thrown)
    (tokens : list Token.t) (e : Js.thrown) :
  listeners Scan.opportunity_found = Some e ->
  Scan.validOpportunities cfg m now tokens <> [] ->
  exists first,
    hd_error (Scan.validOpportunities cfg m now tokens) = Some first /\
    Scan.scanForOpportunities cfg m now listeners tokens
    = ([Scan.OpportunityFound first; Scan.ScanError e],
       listeners Scan.scan_error).
Proof.
  intros He Hne. unfold Scan.scanForOpportunities.
  destruct (Scan.validOpportunities cfg m now tokens) as [| o rest];
    [congruence |].
  exists o. split; [reflexivity |].
  cbn [length]. rewrite Nat2Z.inj_succ.
  replace (0 <? Z.succ (Z.of_nat (length rest))) with true
    by (symmetry; apply Z.ltb_lt; lia).
  cbn [map app Scan.emitAll Scan.scanEventName]. rewrite He. reflexivity.
Qed.

Lemma scan_tick_listener_failure_witness :
  exists first,
    hd_error (Scan.validOpportunities Sample.cfg Fixture.registry 5
                [Sample.usdc; Sample.weth]) = Some first /\
    Scan.scanForOpportunities Sample.cfg Fixture.registry 5
      (fun n => match n with
                | Scan.opportunity_found => Some (Js.ErrorObj "listener")
                | _ => None
                end) [Sample.usdc; Sample.weth]
    = ([Scan.OpportunityFound first;
        Scan.ScanError (Js.ErrorObj "listener")], None).
Proof.
  apply (scan_tick_listener_failure Sample.cfg Fixture.registry 5
           (fun n => match n with
                | Scan.opportunity_found => Some (Js.ErrorObj "listener")
                | _ => None
                end) [Sample.usdc; Sample.weth] (Js.ErrorObj "listener")).
  - reflexivity.
  - vm_compute. discriminate.
Defined.

End ScanFacts.

(** ** Further properties of the execution orchestrator *)

Module OrchestratorFacts.
Import TradingExecutionEngine.

(** *** Revalidation *)

Lemma calculateSlippageProtectedAmount_inv (amount : Z)
    (maxSlippage : Js.number) (m : Z) :
  calculateSlippageProtectedAmount amount maxSlippage = Js.Return m ->
  exists s, maxSlippage = Js.Fin s /\
            m = Z.quot (amount * Qfloor ((1 - s) * 10000)) 10000.
Proof.
  unfold calculateSlippageProtectedAmount. destruct maxSlippage as [| | | s].
  1-3: rewrite ScannerFacts.slippageFactor_infinite by discriminate;
       discriminate.
  rewrite ScannerFacts.slippageFactor_finite. intros H. exists s.
  split; [reflexivity |]. injection H as <-. reflexivity.
Qed.



(** The re-quoted path keeps every leg's venue, tokens and pool, and
    replaces the amounts. *)
Lemma requoteSteps_shape (cfg : Config.t) (inputAmount buy sell : Z)
    (steps : list TradeStep.t) :
  forall (index : nat) (path : list TradeStep.t),
  requoteSteps cfg inputAmount buy sell index steps = Js.Return path ->
  length path = length steps /\
  forall i step', nth_error path i = Some step' ->
    exists step, nth_error steps i = Some step /\
      TradeStep.protocol step' = TradeStep.protocol step /\
      TradeStep.tokenIn step' = TradeStep.tokenIn step /\
      TradeStep.tokenOut step' = TradeStep.tokenOut step /\
      TradeStep.pool step' = TradeStep.pool step /\
      TradeStep.amountIn step'
        = (if Nat.eqb (index + i) 0 then inputAmount else buy) /\
      calculateSlippageProtectedAmount
        (if Nat.eqb (index + i) 0 then buy else sell)
        (Config.maxSlippage cfg) = Js.Return (TradeStep.amountOutMin step').
Proof.
  induction steps as [| step rest IH]; intros index path H.
  - injection H as <-. split; [reflexivity |].
    intros [| i] step' Hn; discriminate.
  - cbn [requoteSteps] in H.
    destruct (calculateSlippageProtectedAmount
                (if Nat.eqb index 0 then buy else sell)
                (Config.maxSlippage cfg)) as [minOut | e] eqn:EM;
      [| discriminate].
    cbn [ArbitrageDetector.bind] in H.
    destruct (requoteSteps cfg inputAmount buy sell (S index) rest)
      as [rest' | e] eqn:ER; [| discriminate].
    cbn [ArbitrageDetector.bind] in H. injection H as <-.
    destruct (IH _ _ ER) as [Hlen Hnth]. split; [simpl; congruence |].
    intros [| i] step' Hn; simpl in Hn.
    + injection Hn as <-. exists step. rewrite Nat.add_0_r. simpl.
      repeat split; auto.
    + destruct (Hnth i step' Hn) as (st & H1 & H2).
      exists st. split; [exact H1 |].
      replace (index + S i)%nat with (S index + i)%nat by lia. exact H2.
Qed.

(** What a validation that passed looks like. *)
Lemma validateOpportunity_valid (cfg : Config.t) (w : World)
    (o : Opportunity.t) :
  isValid (validateOpportunity cfg w o) = true ->
  exists buyProtocol sellProtocol buy sell percent path,
    protocolManager w (Pool.protocol (Opportunity.buyPool o))
      (Token.chainId (Opportunity.tokenA o)) = Some buyProtocol /\
    protocolManager w (Pool.protocol (Opportunity.sellPool o))
      (Token.chainId (Opportunity.tokenA o)) = Some sellProtocol /\
    Protocol.getQuote buyProtocol (Opportunity.tokenA o)
      (Opportunity.tokenB o) (Opportunity.inputAmount o)
      (Opportunity.buyPool o) = Js.Return buy /\
    Protocol.getQuote sellProtocol (Opportunity.tokenB o)
      (Opportunity.tokenA o) buy (Opportunity.sellPool o) = Js.Return sell /\
    ArbitrageDetector.percentOf (sell - Opportunity.inputAmount o)
      (Opportunity.inputAmount o) = Js.Return percent /\
    Js.lt percent (Config.minProfitThreshold cfg) = false /\
    requoteSteps cfg (Opportunity.inputAmount o) buy sell 0
      (Opportunity.executionPath o) = Js.Return path /\
    validateOpportunity cfg w o
    = mkValidation true []
        (Some (Opportunity.mk (Opportunity.id o) (Opportunity.tokenA o)
           (Opportunity.tokenB o) (Opportunity.buyPool o)
           (Opportunity.sellPool o) percent
           (sell - Opportunity.inputAmount o)
           (Opportunity.inputAmount o) (Opportunity.confidence o)
           (validationTime w) (Opportunity.gasEstimate o) path)).
Proof.
  unfold validateOpportunity, validateOpportunityBody.
  destruct (protocolManager w (Pool.protocol (Opportunity.buyPool o)) _)
    as [buyProtocol |]; [| discriminate].
  destruct (protocolManager w (Pool.protocol (Opportunity.sellPool o)) _)
    as [sellProtocol |]; [| discriminate].
  destruct (Protocol.getQuote buyProtocol _ _ _ _) as [buy | e] eqn:EB;
    [| discriminate].
  cbn [ArbitrageDetector.bind].
  destruct (Protocol.getQuote sellProtocol _ _ _ _) as [sell | e] eqn:ES;
    [| discriminate].
  cbn [ArbitrageDetector.bind].
  destruct (ArbitrageDetector.percentOf _ _) as [percent | e] eqn:EC;
    [| discriminate].
  cbn [ArbitrageDetector.bind].
  destruct (Js.lt percent (Config.minProfitThreshold cfg)) eqn:EL.
  { destruct (Js.gt _ _); discriminate. }
  destruct (Js.gt _ _); [discriminate |].
  destruct (requoteSteps _ _ _ _ _ _) as [path | e] eqn:ER;
    [| discriminate].
  cbn [ArbitrageDetector.bind]. intros _.
  exists buyProtocol, sellProtocol, buy, sell, percent, path.
  repeat split; auto.
Qed.

Lemma validateOpportunity_verdict (cfg : Config.t) (w : World)
    (o : Opportunity.t) :
  isValid (validateOpportunity cfg w o) = false ->
  adjustedOpportunity (validateOpportunity cfg w o) = None /\
  reasons (validateOpportunity cfg w o) <> [].
Proof.
  unfold validateOpportunity, validateOpportunityBody.
  destruct (protocolManager w (Pool.protocol (Opportunity.buyPool o)) _)
    as [buyProtocol |]; [| split; [reflexivity | discriminate]].
  destruct (protocolManager w (Pool.protocol (Opportunity.sellPool o)) _)
    as [sellProtocol |]; [| split; [reflexivity | discriminate]].
  destruct (Protocol.getQuote buyProtocol _ _ _ _) as [buy | e];
    [| split; [reflexivity | discriminate]].
  cbn [ArbitrageDetector.bind].
  destruct (Protocol.getQuote sellProtocol _ _ _ _) as [sell | e];
    [| split; [reflexivity | discriminate]].
  cbn [ArbitrageDetector.bind].
  destruct (ArbitrageDetector.percentOf _ _) as [percent | e];
    [| split; [reflexivity | discriminate]].
  cbn [ArbitrageDetector.bind].
  destruct (Js.lt percent (Config.minProfitThreshold cfg));
    destruct (Js.gt _ _); cbn [app];
    try (split; [reflexivity | discriminate]).
  destruct (requoteSteps _ _ _ _ _ _) as [path | e];
    cbn [ArbitrageDetector.bind]; [discriminate |].
  split; [reflexivity | discriminate].
Qed.

(** X20 (validateOpportunity).  A validation is valid exactly when it
    gives no reason.  An invalid one carries no adjusted opportunity.  A
    valid one carries an adjusted copy with the same id, tokens, pools and
    input amount, stamped with the validation time, whose re-quoted profit
    percentage is not below the profit threshold, and whose path has as
    many legs as the original, the first of them spending exactly the
    input amount. *)
Theorem validation_verdict (cfg : Config.t) (w : World) (o : Opportunity.t) :
  let v := validateOpportunity cfg w o in
  (isValid v = true <-> reasons v = []) /\
  (isValid v = false -> adjustedOpportunity v = None) /\
  (isValid v = true ->
   exists a,
     adjustedOpportunity v = Some a /\
     Opportunity.id a = Opportunity.id o /\
     Opportunity.tokenA a = Opportunity.tokenA o /\
     Opportunity.tokenB a = Opportunity.tokenB o /\
     Opportunity.buyPool a = Opportunity.buyPool o /\
     Opportunity.sellPool a = Opportunity.sellPool o /\
     Opportunity.inputAmount a = Opportunity.inputAmount o /\
     Opportunity.timestamp a = validationTime w /\
     Js.lt (Opportunity.profitPercentage a) (Config.minProfitThreshold cfg)
       = false /\
     length (Opportunity.executionPath a)
       = length (Opportunity.executionPath o) /\
     forall first, hd_error (Opportunity.executionPath a) = Some first ->
                   TradeStep.amountIn first = Opportunity.inputAmount o).
Proof.
  intros v. subst v. split; [| split].
  - split.
    + intros Hv.
      destruct (validateOpportunity_valid cfg w o Hv)
        as (? & ? & ? & ? & ? & ? & _ & _ & _ & _ & _ & _ & _ & ->).
      reflexivity.
    + intros Hr.
      destruct (isValid (validateOpportunity cfg w o)) eqn:Hv;
        [reflexivity |].
      destruct (validateOpportunity_verdict cfg w o Hv) as [_ Hne].
      contradiction.
  - intros Hv. apply (validateOpportunity_verdict cfg w o Hv).
  - intros Hv.
    destruct (validateOpportunity_valid cfg w o Hv)
      as (bp & sp & buy & sell & percent & path & _ & _ & _ & _ & _ & Hlt
          & Hpath & ->).
    eexists. split; [reflexivity |]. cbn.
    destruct (requoteSteps_shape _ _ _ _ _ _ _ Hpath) as [Hlen Hnth].
    repeat split; auto.
    intros first Hfirst.
    destruct path as [| p rest]; [discriminate |].
    injection Hfirst as <-.
    destruct (Hnth 0%nat p eq_refl) as (st & _ & _ & _ & _ & _ & Ha & _).
    exact Ha.
Qed.

Lemma validation_verdict_witness :
  exists a,
    adjustedOpportunity
      (validateOpportunity Sample.cfg (Sample.world Sample.confident)
         Sample.detected) = Some a /\
    Opportunity.inputAmount a = 1000000.
Proof.
  destruct (validation_verdict Sample.cfg (Sample.world Sample.confident)
              Sample.detected) as (_ & _ & H).
  destruct (H eq_refl) as (a & Ha & _ & _ & _ & _ & _ & Hin & _).
  exists a. split; [exact Ha |]. rewrite Hin. reflexivity.
Defined.

(** *** What one call leaves in the engine *)

Lemma ensureApproval_state (w : World) (tokenAddress protocolName : string)
    (amount : Z) (s : t) :
  snd (ensureApproval w tokenAddress protocolName amount s) = s.
Proof.
  unfold ensureApproval, bind, call, ret, throw.
  repeat case_match; simplify_eq; reflexivity.
Qed.

Lemma checkBalancesAndApprovals_state (w : World) (o : Opportunity.t)
    (s : t) :
  snd (checkBalancesAndApprovals w o s) = s.
Proof.
  unfold checkBalancesAndApprovals.
  destruct (negb (walletReady s)); [reflexivity |].
  unfold bind at 1. unfold call at 1.
  destruct (walletGetAddress w) as [walletAddress | e]; [| reflexivity].
  unfold bind at 1.
  assert (Hb : forall c : Js.completion Z, call c s = (c, s))
    by reflexivity.
  destruct (String.eqb (Token.address (Opportunity.tokenA o)) ZeroAddress)
    eqn:EZ; rewrite Hb;
    match goal with
    | |- context [match ?c with _ => _ end] =>
        destruct c as [balance | e]; [| reflexivity]
    end;
    (destruct (balance <? Opportunity.inputAmount o); [reflexivity |]);
    unfold bind at 1; cbn [negb].
  - cbn [ret].
    destruct (Opportunity.executionPath o) as [| first rest];
      [reflexivity |].
    destruct (negb _); [apply ensureApproval_state | reflexivity].
  - pose proof (ensureApproval_state w (Token.address (Opportunity.tokenA o))
                  (Pool.protocol (Opportunity.buyPool o))
                  (Opportunity.inputAmount o) s) as He.
    destruct (ensureApproval w _ _ _ s) as [[[] | e] s1]; simpl in He;
      subst s1; [| reflexivity].
    destruct (Opportunity.executionPath o) as [| first rest];
      [reflexivity |].
    destruct (negb _); [apply ensureApproval_state | reflexivity].
Qed.

(** The loop touches the submission trace only. *)
Lemma executeSteps_books (w : World) (chainId : Z)
    (steps : list TradeStep.t) :
  forall (acc : LoopState) (s : t),
  let s' := snd (executeSteps w chainId steps acc s) in
  walletReady s' = walletReady s /\ isExecuting s' = isExecuting s /\
  executionHistory s' = executionHistory s /\ emitted s' = emitted s.
Proof.
  induction steps as [| step rest IH]; intros acc s; simpl; [auto |].
  destruct (protocolManager w (TradeStep.protocol step) chainId); [| auto].
  destruct (Protocol.executeTrade _ step "0x"); [| simpl; auto].
  destruct (waitForTransaction w _) as [[receipt |] |]; simpl; auto.
  destruct (bool_decide (status receipt = Some 1)); simpl; [| auto].
  apply (IH _ (logSubmission step s)).
Qed.

Lemma executeTrades_books (w : World) (o : Opportunity.t) (s : t) :
  let s' := snd (executeTrades w o s) in
  walletReady s' = walletReady s /\ isExecuting s' = isExecuting s /\
  executionHistory s' = executionHistory s /\ emitted s' = emitted s.
Proof.
  unfold executeTrades.
  destruct (negb (walletReady s)); [simpl; auto |].
  destruct (walletGetAddress w) as [walletAddress | e]; [| simpl; auto].
  pose proof (executeSteps_books w (Token.chainId (Opportunity.tokenA o))
                (Opportunity.executionPath o) (mkLoop None [] 0) s) as Hb.
  destruct (executeSteps w _ _ _ s) as [acc s1]. simpl in Hb.
  destruct (raised acc); [simpl; exact Hb |].
  unfold getTokenBalance, ret, call.
  repeat case_match; simplify_eq; simpl; exact Hb.
Qed.

Lemma emit_quiet (w : World) (ev : Event) (s : t) :
  listeners w (eventName ev) = None ->
  emit w ev s = (Js.Return tt, logEvent ev s).
Proof.
  intros H. unfold emit, bind, modify, ret. rewrite H. reflexivity.
Qed.

(** One run of the pipeline under listeners that return: the result, if
    any, is appended to the history and reported by one event. *)
Lemma executePipeline_books (cfg : Config.t) (w : World) (o : Opportunity.t)
    (s s' : t) (c : Js.completion ExecutionResult) :
  (forall n, listeners w n = None) ->
  executePipeline cfg w o s = (c, s') ->
  walletReady s' = walletReady s /\
  isExecuting s' = isExecuting s /\
  match c with
  | Js.Return r =>
      executionHistory s' = executionHistory s ++ [r] /\
      emitted s'
        = emitted s ++ [ExecutionStarted (Opportunity.id o);
                        if success r then ExecutionSuccess r
                        else ExecutionFailed r]
  | Js.Throw _ =>
      executionHistory s' = executionHistory s /\
      emitted s' = emitted s ++ [ExecutionStarted (Opportunity.id o)]
  end.
Proof.
  intros Hq. unfold executePipeline.
  unfold bind at 1. rewrite emit_quiet by apply Hq.
  unfold bind at 1. unfold call at 1.
  destruct (predictOpportunity w o) as [ai | e];
    [| intros H; injection H as <- <-; simpl; auto].
  destruct (Js.lt _ _); [intros H; injection H as <- <-; simpl; auto |].
  cbv zeta.
  destruct (negb (isValid (validateOpportunity cfg w o)));
    [intros H; injection H as <- <-; simpl; auto |].
  set (vo := match adjustedOpportunity (validateOpportunity cfg w o) with
             | Some adjusted => adjusted
             | None => o
             end).
  set (s0 := logEvent (ExecutionStarted (Opportunity.id o)) s).
  unfold bind at 1.
  pose proof (checkBalancesAndApprovals_state w vo s0) as Hc.
  destruct (checkBalancesAndApprovals w vo s0) as [[[] | e] s1];
    simpl in Hc; subst s1;
    [| intros H; injection H as <- <-; simpl; auto].
  unfold bind at 1.
  pose proof (executeTrades_books w vo s0) as Hb.
  destruct (executeTrades w vo s0) as [[r | e] s2]; simpl in Hb;
    destruct Hb as (Hw & Hx & Hh & He);
    [| intros H; injection H as <- <-; simpl; rewrite Hh, He; auto].
  unfold bind at 1. unfold modify at 1. unfold bind at 1.
  destruct (success r) eqn:ES; rewrite emit_quiet by apply Hq;
    intros H; injection H as <- <-; simpl;
    rewrite ES, Hh, He; simpl; rewrite <- app_assoc; auto.
Qed.

(** The books of an admitted call under listeners that return. *)
Lemma executeOpportunity_books (cfg : Config.t) (w : World) (o : Opportunity.t)
    (s : t) :
  isExecuting s = false ->
  Config.tradingEnabled cfg = true ->
  (forall n, listeners w n = None) ->
  exists r s',
    executeOpportunity cfg w o s = (Js.Return r, s') /\
    executionHistory s' = executionHistory s ++ [r] /\
    emitted s'
      = emitted s ++ [ExecutionStarted (Opportunity.id o);
                      if success r then ExecutionSuccess r
                      else ExecutionFailed r] /\
    isExecuting s' = false /\
    walletReady s' = walletReady s.
Proof.
  intros Hidle Hon Hq.
  unfold executeOpportunity. rewrite Hidle, Hon. cbn [negb].
  unfold bind at 1. unfold modify at 1. unfold tryFinally, tryCatch.
  destruct (executePipeline cfg w o (setExecuting true s))
    as [[r | e] s1] eqn:EP;
    destruct (executePipeline_books cfg w o _ _ _ Hq EP)
      as (Hw & _ & Hh & He).
  - exists r, (setExecuting false s1). repeat split; auto.
  - unfold bind at 1. unfold modify at 1. unfold bind at 1.
    rewrite emit_quiet by apply Hq.
    eexists. eexists. split; [reflexivity |]. simpl.
    rewrite Hh, He, <- app_assoc. repeat split; auto.
Qed.

(** X21 (executeOpportunity).  A call that is admitted (engine idle,
    trading enabled) while the listeners return appends exactly one record
    to the execution history, the result it returns, and emits exactly two
    events: [execution-started] with the opportunity's id, then
    [execution-success] or [execution-failed] with that result, according
    to its [success] flag.  The engine is idle again afterwards. *)
Theorem admitted_call_trace (cfg : Config.t) (w : World) (o : Opportunity.t)
    (s : t) :
  isExecuting s = false ->
  Config.tradingEnabled cfg = true ->
  (forall n, listeners w n = None) ->
  exists r s',
    executeOpportunity cfg w o s = (Js.Return r, s') /\
    executionHistory s' = executionHistory s ++ [r] /\
    emitted s'
      = emitted s ++ [ExecutionStarted (Opportunity.id o);
                      if success r then ExecutionSuccess r
                      else ExecutionFailed r] /\
    isExecuting s' = false /\
    walletReady s' = walletReady s.
Proof.
  intros Hidle Hon Hq.
  exact (executeOpportunity_books cfg w o s Hidle Hon Hq).
Qed.

Lemma admitted_call_trace_witness :
  exists r s',
    executeOpportunity Sample.cfg (Sample.world Sample.hesitant)
      Sample.detected Sample.idleEngine = (Js.Return r, s') /\
    executionHistory s' = [r] /\
    emitted s' = [ExecutionStarted "USDC_WETH_5"; ExecutionFailed r].
Proof.
  destruct (admitted_call_trace Sample.cfg (Sample.world Sample.hesitant)
              Sample.detected Sample.idleEngine eq_refl eq_refl
              (fun _ => eq_refl))
    as (r & s' & Hr & Hh & He & _).
  exists r, s'. split; [exact Hr |]. split; [exact Hh |].
  rewrite He. vm_compute in Hr. injection Hr as <- _. reflexivity.
Defined.

(** *** What reaches a venue *)

Lemma emit_state (w : World) (ev : Event) (s : t) :
  snd (emit w ev s) = logEvent ev s.
Proof.
  unfold emit, bind, modify, ret, call.
  destruct (listeners w (eventName ev)); reflexivity.
Qed.

Lemma emit_returns (w : World) (ev : Event) (s s' : t) :
  emit w ev s = (Js.Return tt, s') -> listeners w (eventName ev) = None.
Proof.
  unfold emit, bind, modify, ret, call.
  destruct (listeners w (eventName ev)); [discriminate | reflexivity].
Qed.

Lemma checkBalancesAndApprovals_wallet (w : World) (o : Opportunity.t)
    (s : t) :
  fst (checkBalancesAndApprovals w o s) = Js.Return tt ->
  walletReady s = true.
Proof.
  unfold checkBalancesAndApprovals.
  destruct (walletReady s); [reflexivity | discriminate].
Qed.

(** The legs a run of the pipeline hands to the venues: none, unless every
    check before the trades passed. *)
Lemma executePipeline_submitted (cfg : Config.t) (w : World)
    (o : Opportunity.t) (s s' : t) (c : Js.completion ExecutionResult) :
  executePipeline cfg w o s = (c, s') ->
  submitted s' = submitted s \/
  (walletReady s = true /\
   listeners w execution_started = None /\
   (exists ai, predictOpportunity w o = Js.Return ai /\
               Js.lt (Prediction.confidence ai)
                 (Config.predictionConfidenceThreshold cfg) = false) /\
   exists a k,
     isValid (validateOpportunity cfg w o) = true /\
     adjustedOpportunity (validateOpportunity cfg w o) = Some a /\
     fst (checkBalancesAndApprovals w a
            (logEvent (ExecutionStarted (Opportunity.id o)) s))
       = Js.Return tt /\
     submitted s' = submitted s ++ firstn k (Opportunity.executionPath a)).
Proof.
  unfold executePipeline. unfold bind at 1.
  set (started := ExecutionStarted (Opportunity.id o)).
  pose proof (emit_state w started s) as Hs0.
  destruct (emit w started s) as [[[] | e] s0] eqn:EE; simpl in Hs0;
    subst s0; [| intros H; injection H as <- <-; left; reflexivity].
  apply emit_returns in EE.
  unfold bind at 1. unfold call at 1.
  destruct (predictOpportunity w o) as [ai | e] eqn:EA;
    [| intros H; injection H as <- <-; left; reflexivity].
  destruct (Js.lt _ _) eqn:EL;
    [intros H; injection H as <- <-; left; reflexivity |].
  cbv zeta.
  destruct (isValid (validateOpportunity cfg w o)) eqn:EV; cbn [negb];
    [| intros H; injection H as <- <-; left; reflexivity].
  assert (Hadj : exists vo,
            adjustedOpportunity (validateOpportunity cfg w o) = Some vo).
  { destruct (validateOpportunity_valid cfg w o EV)
      as (? & ? & ? & ? & ? & ? & _ & _ & _ & _ & _ & _ & _ & Hval).
    rewrite Hval. eexists. reflexivity. }
  destruct Hadj as [vo Hadj].
  set (vo' := match adjustedOpportunity (validateOpportunity cfg w o) with
              | Some adjusted => adjusted
              | None => o
              end).
  assert (Hvo : vo' = vo) by (unfold vo'; rewrite Hadj; reflexivity).
  clearbody vo'. subst vo'.
  unfold bind at 1.
  pose proof (checkBalancesAndApprovals_state w vo (logEvent started s))
    as Hc.
  destruct (checkBalancesAndApprovals w vo (logEvent started s))
    as [[[] | e] s1] eqn:EC; simpl in Hc; subst s1;
    [| intros H; injection H as <- <-; left; reflexivity].
  assert (Hready : walletReady s = true).
  { apply (checkBalancesAndApprovals_wallet w vo (logEvent started s)).
    rewrite EC. reflexivity. }
  unfold bind at 1.
  destruct (EngineFacts.executeTrades_submitted w vo (logEvent started s))
    as (k & Hk & _).
  assert (Hdone : forall s2, submitted s2
                    = submitted (logEvent started s)
                        ++ firstn k (Opportunity.executionPath vo) ->
            walletReady s = true /\
            listeners w execution_started = None /\
            (exists ai, predictOpportunity w o = Js.Return ai /\
               Js.lt (Prediction.confidence ai)
                 (Config.predictionConfidenceThreshold cfg) = false) /\
            exists a k,
              isValid (validateOpportunity cfg w o) = true /\
              adjustedOpportunity (validateOpportunity cfg w o) = Some a /\
              fst (checkBalancesAndApprovals w a (logEvent started s))
                = Js.Return tt /\
              submitted s2
                = submitted s ++ firstn k (Opportunity.executionPath a)).
  { intros s2 H2. split; [exact Hready |]. split; [exact EE |].
    split; [exists ai; auto |]. exists vo, k. rewrite EC. auto. }
  destruct (executeTrades w vo (logEvent started s)) as [[r | e] s2];
    simpl in Hk;
    [| intros H; injection H as <- <-; right;
       pose proof (Hdone _ Hk) as Hd; rewrite EA, EV in Hd; exact Hd].
  unfold bind at 1. unfold modify at 1. unfold bind at 1.
  match goal with
  | |- context [(if success r then ?a else ?b) ?st] =>
      replace ((if success r then a else b) st)
        with (emit w (if success r then ExecutionSuccess r
                      else ExecutionFailed r) st)
        by (destruct (success r); reflexivity)
  end.
  match goal with
  | |- context [emit w ?ev ?st] =>
      pose proof (emit_state w ev st) as Hs3;
      destruct (emit w ev st) as [[[] | e] s3]
  end; simpl in Hs3; subst s3;
    intros H; injection H as <- <-; right;
    pose proof (Hdone _ Hk) as Hd; rewrite EA, EV in Hd; exact Hd.
Qed.

(** A call that is refused leaves the engine as it was. *)
Lemma executeOpportunity_refused (cfg : Config.t) (w : World)
    (o : Opportunity.t) (s : t) :
  isExecuting s = true \/ Config.tradingEnabled cfg = false ->
  snd (executeOpportunity cfg w o s) = s.
Proof.
  unfold executeOpportunity. intros [H | H]; rewrite H.
  - reflexivity.
  - destruct (isExecuting s); reflexivity.
Qed.

(** A call that is admitted submits what its pipeline submits. *)
Lemma executeOpportunity_admitted (cfg : Config.t) (w : World)
    (o : Opportunity.t) (s : t) :
  isExecuting s = false -> Config.tradingEnabled cfg = true ->
  submitted (snd (executeOpportunity cfg w o s))
  = submitted (snd (executePipeline cfg w o (setExecuting true s))).
Proof.
  intros Hidle Hon. unfold executeOpportunity. rewrite Hidle, Hon.
  cbn [negb]. unfold bind at 1. unfold modify at 1.
  unfold tryFinally, tryCatch.
  destruct (executePipeline cfg w o (setExecuting true s))
    as [[r | e] s1]; [reflexivity |].
  unfold bind at 1. unfold modify at 1. unfold bind at 1.
  pose proof (emit_state w (ExecutionFailed (failedResult w e))
                (pushHistory (failedResult w e) s1)) as Hs.
  destruct (emit w _ _) as [[[] | e'] s2]; simpl in Hs; subst s2;
    reflexivity.
Qed.

(** X22 (executeOpportunity).  Whatever the listeners do, a call hands a
    leg to a venue only if the engine was idle with trading enabled and a
    wallet, the listeners of [execution-started] returned, the prediction
    came back with a confidence not below the threshold, the revalidation
    passed and the balance check returned; the legs handed over are then a
    prefix of the path of the revalidated copy, not of the opportunity
    that was passed in. *)
Theorem submission_requires_checks (cfg : Config.t) (w : World)
    (o : Opportunity.t) (s : t) :
  submitted (snd (executeOpportunity cfg w o s)) <> submitted s ->
  isExecuting s = false /\
  Config.tradingEnabled cfg = true /\
  walletReady s = true /\
  listeners w execution_started = None /\
  (exists ai, predictOpportunity w o = Js.Return ai /\
              Js.lt (Prediction.confidence ai)
                (Config.predictionConfidenceThreshold cfg) = false) /\
  exists a k,
    isValid (validateOpportunity cfg w o) = true /\
    adjustedOpportunity (validateOpportunity cfg w o) = Some a /\
    fst (checkBalancesAndApprovals w a
           (logEvent (ExecutionStarted (Opportunity.id o))
              (setExecuting true s))) = Js.Return tt /\
    submitted (snd (executeOpportunity cfg w o s))
      = submitted s ++ firstn k (Opportunity.executionPath a).
Proof.
  intros Hne.
  destruct (isExecuting s) eqn:Hidle.
  { destruct Hne. rewrite executeOpportunity_refused; auto. }
  destruct (Config.tradingEnabled cfg) eqn:Hon.
  2: { destruct Hne. rewrite executeOpportunity_refused; auto. }
  rewrite (executeOpportunity_admitted cfg w o s Hidle Hon) in Hne |- *.
  destruct (executePipeline cfg w o (setExecuting true s)) as [c s1] eqn:EP.
  destruct (executePipeline_submitted cfg w o _ _ _ EP)
    as [Hsame | (Hw & Hl & Hai & a & k & Hv & Ha & Hc & Hk)];
    [contradiction |].
  repeat split; auto. exists a, k. auto.
Qed.

Lemma submission_requires_checks_witness :
  walletReady Sample.idleEngine = true /\
  exists a k,
    adjustedOpportunity
      (validateOpportunity Sample.cfg (Sample.world Sample.confident)
         Sample.detected) = Some a /\
    submitted (snd (executeOpportunity Sample.cfg
                      (Sample.world Sample.confident) Sample.detected
                      Sample.idleEngine))
      = firstn k (Opportunity.executionPath a).
Proof.
  destruct (submission_requires_checks Sample.cfg
              (Sample.world Sample.confident) Sample.detected
              Sample.idleEngine)
    as (_ & _ & Hw & _ & _ & a & k & _ & Ha & _ & Hk).
  - vm_compute. discriminate.
  - split; [exact Hw |]. exists a, k. split; [exact Ha | exact Hk].
Defined.

(** *** The result of the trades *)

(** The loop either confirms every leg, or stops with fewer hashes than
    legs and at most one submitted leg without a hash. *)
Lemma executeSteps_outcome (w : World) (chainId : Z)
    (steps : list TradeStep.t) :
  forall (acc : LoopState) (s : t),
  raised acc = None ->
  match raised (fst (executeSteps w chainId steps acc s)) with
  | None =>
      length (hashes (fst (executeSteps w chainId steps acc s)))
        = (length (hashes acc) + length steps)%nat /\
      submitted (snd (executeSteps w chainId steps acc s))
        = submitted s ++ steps /\
      Forall (fun step => confirmedSuccess w chainId step = true) steps
  | Some _ =>
      (length (hashes acc)
       <= length (hashes (fst (executeSteps w chainId steps acc s)))
       < length (hashes acc) + length steps)%nat /\
      (length (submitted (snd (executeSteps w chainId steps acc s)))
       + length (hashes acc)
       <= length (submitted s)
          + length (hashes (fst (executeSteps w chainId steps acc s)))
          + 1)%nat
  end.
Proof.
  induction steps as [| step rest IH]; intros acc s Hacc.
  - simpl. rewrite Hacc, app_nil_r, Nat.add_0_r. auto.
  - cbn [executeSteps].
    destruct (protocolManager w (TradeStep.protocol step) chainId)
      as [venue |] eqn:EP; [| simpl; lia].
    destruct (Protocol.executeTrade venue step "0x") as [txHash | e] eqn:EX;
      [| simpl; rewrite length_app; simpl; lia].
    destruct (waitForTransaction w txHash) as [[receipt |] | e] eqn:EW;
      try (simpl; rewrite length_app; simpl; lia).
    destruct (bool_decide (status receipt = Some 1)) eqn:EB; cbn [negb];
      [| simpl; rewrite length_app; simpl; lia].
    specialize (IH (mkLoop None (hashes acc ++ [txHash])
                      (totalGasUsed acc + receiptGasUsed receipt))
                   (logSubmission step s) eq_refl).
    destruct (raised (fst (executeSteps w chainId rest _ _))).
    + cbn [hashes] in IH. rewrite length_app in IH. simpl in IH.
      simpl. rewrite length_app in IH. simpl in IH. lia.
    + destruct IH as (Hlen & Hsub & Hall). cbn [hashes] in Hlen.
      rewrite length_app in Hlen. simpl in Hlen.
      split; [simpl; lia |]. split.
      * rewrite Hsub. simpl. rewrite <- app_assoc. reflexivity.
      * constructor; [| exact Hall].
        unfold confirmedSuccess. rewrite EP, EX, EW. exact EB.
Qed.

(** X23 (executeTrades).  A result of [executeTrades] reports success
    only if every leg of the path was handed to its venue and confirmed
    with status 1; it then has one hash per leg and no error.  A failed
    result carries an error message and a profit of zero, has at most one
    hash per leg, and at most one leg was handed over beyond those that
    have a hash. *)
Theorem trade_result_invariant (w : World) (o : Opportunity.t) (s s' : t)
    (r : ExecutionResult) :
  executeTrades w o s = (Js.Return r, s') ->
  (success r = true ->
   error r = None /\
   length (transactionHashes r) = length (Opportunity.executionPath o) /\
   submitted s' = submitted s ++ Opportunity.executionPath o /\
   Forall (fun step =>
             confirmedSuccess w (Token.chainId (Opportunity.tokenA o)) step
             = true) (Opportunity.executionPath o)) /\
  (success r = false ->
   (exists message, error r = Some message) /\
   actualProfit r = 0 /\
   (length (transactionHashes r)
    <= length (Opportunity.executionPath o))%nat /\
   (length (submitted s')
    <= length (submitted s) + length (transactionHashes r) + 1)%nat).
Proof.
  unfold executeTrades.
  destruct (negb (walletReady s)); [discriminate |].
  destruct (walletGetAddress w) as [walletAddress | e].
  2: { intros H. injection H as <- <-. split; [discriminate |].
       intros _. simpl. repeat split; eauto; lia. }
  pose proof (executeSteps_outcome w (Token.chainId (Opportunity.tokenA o))
                (Opportunity.executionPath o) (mkLoop None [] 0) s eq_refl)
    as Hout.
  destruct (executeSteps w _ _ _ s) as [acc s1]. cbn [fst snd] in Hout.
  destruct (raised acc) as [e |].
  { intros H. injection H as <- <-. split; [discriminate |].
    intros _. simpl in *. repeat split; eauto; lia. }
  destruct Hout as (Hlen & Hsub & Hall). simpl in Hlen.
  assert (Hs : snd (getTokenBalance w (Token.address (Opportunity.tokenA o))
                      walletAddress s1) = s1).
  { unfold getTokenBalance, ret, call. repeat case_match; reflexivity. }
  destruct (getTokenBalance w _ walletAddress s1) as [[finalBalance | e] s2];
    simpl in Hs; subst s2; intros H; injection H as <- <-; simpl.
  - split; [| discriminate]. intros _. auto.
  - split; [discriminate |]. intros _. rewrite Hsub, length_app.
    repeat split; eauto; lia.
Qed.

Lemma trade_result_invariant_witness :
  submitted (snd (executeTrades Fixture.settledWorld Sample.detected
                    Sample.idleEngine))
  = Opportunity.executionPath Sample.detected.
Proof.
  destruct (executeTrades Fixture.settledWorld Sample.detected
              Sample.idleEngine) as [c s'] eqn:E.
  assert (Hc : c = Js.Return (mkResult true ["0xleg1"; "0xleg2"]%string
                                1000000 200000 5000 None)).
  { apply (f_equal fst) in E. vm_compute in E. symmetry. exact E. }
  subst c.
  destruct (trade_result_invariant _ _ _ _ _ E) as [Hok _].
  destruct (Hok eq_refl) as (_ & _ & Hsub & _). exact Hsub.
Defined.

(** *** Gas costs *)

Lemma sumGasEstimates_unregistered (pm : ProtocolManager) (chainId : Z)
    (steps : list TradeStep.t) (total : Z) :
  (forall step, In step steps ->
                pm (TradeStep.protocol step) chainId = None) ->
  EngineReports.sumGasEstimates pm chainId steps total = Js.Return total.
Proof.
  revert total. induction steps as [| step rest IH]; intros total Hnone;
    [reflexivity |].
  cbn [EngineReports.sumGasEstimates].
  rewrite (Hnone step) by (left; reflexivity).
  apply IH. intros st Hst. apply Hnone. right. exact Hst.
Qed.

Lemma sumGasEstimates_grows (pm : ProtocolManager) (chainId : Z)
    (steps : list TradeStep.t) :
  (forall step venue gas,
     In step steps -> pm (TradeStep.protocol step) chainId = Some venue ->
     Protocol.estimateGas venue step = Js.Return gas -> 0 <= gas) ->
  forall total sum,
    EngineReports.sumGasEstimates pm chainId steps total = Js.Return sum ->
    total <= sum.
Proof.
  induction steps as [| step rest IH]; intros Hpos total sum H.
  - injection H as <-. lia.
  - cbn [EngineReports.sumGasEstimates] in H.
    assert (Hrest : forall step venue gas,
              In step rest ->
              pm (TradeStep.protocol step) chainId = Some venue ->
              Protocol.estimateGas venue step = Js.Return gas -> 0 <= gas).
    { intros st v g Hin. apply Hpos. right. exact Hin. }
    destruct (pm (TradeStep.protocol step) chainId) as [venue |] eqn:EP.
    + destruct (Protocol.estimateGas venue step) as [gas | e] eqn:EG;
        [| discriminate].
      cbn [ArbitrageDetector.bind] in H.
      pose proof (Hpos step venue gas (or_introl eq_refl) EP EG).
      pose proof (IH Hrest _ _ H). lia.
    + apply (IH Hrest _ _ H).
Qed.

(** X24 (estimateGasCosts).  When the venues' estimates are not negative
    and the call returns, the engine is left as it was; the reported
    estimate is the sum of the registered venues' estimates plus the 20 %
    buffer, truncated: at least the sum, at most 1.2 times the sum and
    less than one unit below that; the cost is the estimate times a price
    that is either the configured maximum gas price or a non-zero price
    reported by the provider; and the opportunity counts as still
    profitable exactly when its profit amount exceeds that cost. *)
Theorem gas_costs_buffer_and_verdict (cfg : Config.t) (w : World)
    (getFeeData : Js.completion (option Z)) (o : Opportunity.t) (s s' : t)
    (costs : EngineReports.GasCosts) :
  (forall step venue gas,
     In step (Opportunity.executionPath o) ->
     protocolManager w (TradeStep.protocol step)
       (Token.chainId (Opportunity.tokenA o)) = Some venue ->
     Protocol.estimateGas venue step = Js.Return gas -> 0 <= gas) ->
  EngineReports.estimateGasCosts cfg w getFeeData o s
    = (Js.Return costs, s') ->
  s' = s /\
  (exists sum,
     EngineReports.sumGasEstimates (protocolManager w)
       (Token.chainId (Opportunity.tokenA o))
       (Opportunity.executionPath o) 0 = Js.Return sum /\
     0 <= sum <= EngineReports.totalGasEstimate costs /\
     5 * EngineReports.totalGasEstimate costs <= 6 * sum /\
     6 * sum < 5 * EngineReports.totalGasEstimate costs + 5) /\
  (exists price,
     EngineReports.totalGasCost costs
       = EngineReports.totalGasEstimate costs * price /\
     (price = Config.maxGasPrice cfg \/
      (price <> 0 /\ walletReady s = true /\
       getFeeData = Js.Return (Some price)))) /\
  EngineReports.profitAfterGas costs
    = Opportunity.profitAmount o - EngineReports.totalGasCost costs /\
  (EngineReports.isStillProfitable costs = true <->
   EngineReports.totalGasCost costs < Opportunity.profitAmount o).
Proof.
  intros Hpos. unfold EngineReports.estimateGasCosts.
  destruct (EngineReports.sumGasEstimates _ _ _ 0) as [sum | e] eqn:ES;
    [| discriminate].
  pose proof (sumGasEstimates_grows _ _ _ Hpos _ _ ES) as Hsum.
  assert (Hprice : forall price : Z,
            (if walletReady s
             then ArbitrageDetector.bind getFeeData (fun gasPrice =>
                    Js.Return (EngineReports.gasPriceOr
                                 (Config.maxGasPrice cfg) gasPrice))
             else Js.Return (Config.maxGasPrice cfg)) = Js.Return price ->
            price = Config.maxGasPrice cfg \/
            (price <> 0 /\ walletReady s = true /\
             getFeeData = Js.Return (Some price))).
  { intros price. destruct (walletReady s).
    - destruct getFeeData as [[p |] | e]; cbn; try discriminate.
      + destruct (p =? 0) eqn:E0; intros H; injection H as <-;
          [left; reflexivity |].
        right. apply Z.eqb_neq in E0. auto.
      + intros H; injection H as <-. left. reflexivity.
    - intros H; injection H as <-. left. reflexivity. }
  destruct (if walletReady s then _ else _) as [price | e];
    [| discriminate].
  intros H. injection H as <- <-. cbn.
  split; [reflexivity |]. split.
  - exists sum. split; [reflexivity |].
    rewrite Z.quot_div_nonneg by lia.
    pose proof (Z.mul_div_le (sum * 120) 100 ltac:(lia)).
    pose proof (Z.mul_succ_div_gt (sum * 120) 100 ltac:(lia)).
    assert (sum <= sum * 120 / 100).
    { apply Z.div_le_lower_bound; lia. }
    lia.
  - split; [exists price; split; [reflexivity | apply Hprice; reflexivity] |].
    split; [reflexivity |].
    rewrite Z.ltb_lt. lia.
Qed.

Lemma gas_costs_buffer_and_verdict_witness :
  exists costs,
    EngineReports.estimateGasCosts Sample.cfg
      (Sample.world Sample.confident) (Js.Return (Some 3)) Sample.detected
      Sample.idleEngine = (Js.Return costs, Sample.idleEngine) /\
    EngineReports.totalGasEstimate costs = 372000 /\
    (EngineReports.isStillProfitable costs = true <->
     EngineReports.totalGasCost costs
       < Opportunity.profitAmount Sample.detected).
Proof.
  assert (Hrun : EngineReports.estimateGasCosts Sample.cfg
            (Sample.world Sample.confident) (Js.Return (Some 3))
            Sample.detected Sample.idleEngine
          = (Js.Return (EngineReports.mkGasCosts 372000 1116000 (-1104997)
                          false), Sample.idleEngine))
    by (vm_compute; reflexivity).
  assert (Hpos : forall step venue gas,
            In step (Opportunity.executionPath Sample.detected) ->
            protocolManager (Sample.world Sample.confident)
              (TradeStep.protocol step)
              (Token.chainId (Opportunity.tokenA Sample.detected))
              = Some venue ->
            Protocol.estimateGas venue step = Js.Return gas -> 0 <= gas).
  { intros step venue gas Hin. vm_compute in Hin.
    destruct Hin as [<- | [<- | []]]; vm_compute;
      intros Hv; injection Hv as <-; intros Hg; injection Hg as <-;
      discriminate. }
  eexists. split; [exact Hrun |]. split; [reflexivity |].
  destruct (gas_costs_buffer_and_verdict _ _ _ _ _ _ _ Hpos Hrun)
    as (_ & _ & _ & _ & Hv).
  exact Hv.
Defined.

(** X25 (estimateGasCosts).  Legs whose venue is not registered are
    passed over without an error: when none of the legs' venues is
    registered (and the gas price can be read, or there is no wallet) the
    estimate and the cost are zero and the opportunity counts as still
    profitable exactly when its profit amount is positive. *)
Theorem unregistered_venues_cost_nothing (cfg : Config.t) (w : World)
    (getFeeData : Js.completion (option Z)) (o : Opportunity.t) (s : t) :
  (forall step, In step (Opportunity.executionPath o) ->
     protocolManager w (TradeStep.protocol step)
       (Token.chainId (Opportunity.tokenA o)) = None) ->
  walletReady s = false \/ (exists p, getFeeData = Js.Return p) ->
  EngineReports.estimateGasCosts cfg w getFeeData o s
  = (Js.Return
       (EngineReports.mkGasCosts 0 0 (Opportunity.profitAmount o)
          (0 <? Opportunity.profitAmount o)), s).
Proof.
  intros Hnone Hprice. unfold EngineReports.estimateGasCosts.
  rewrite sumGasEstimates_unregistered by exact Hnone.
  change (Z.quot (0 * 120) 100) with 0.
  destruct Hprice as [Hw | [p Hp]].
  - rewrite Hw. cbn. rewrite Z.sub_0_r. reflexivity.
  - rewrite Hp. destruct (walletReady s); cbn; rewrite Z.sub_0_r;
      reflexivity.
Qed.

Lemma unregistered_venues_cost_nothing_witness :
  EngineReports.isStillProfitable
    (match fst (EngineReports.estimateGasCosts Sample.cfg
                  (Fixture.worldWith (fun _ _ => None) Sample.confident)
                  (Js.Return None) Sample.detected Sample.idleEngine) with
     | Js.Return costs => costs
     | Js.Throw _ => EngineReports.mkGasCosts 0 0 0 false
     end) = true.
Proof.
  rewrite (unregistered_venues_cost_nothing Sample.cfg
             (Fixture.worldWith (fun _ _ => None) Sample.confident)
             (Js.Return None) Sample.detected Sample.idleEngine).
  - reflexivity.
  - intros step _. reflexivity.
  - right. exists None. reflexivity.
Defined.

(** *** Reports *)

(** X26 (getExecutionHistory).  For a positive limit the answer is the
    tail of the history holding its last [limit] records, or all of them
    when there are fewer.  A limit of zero does not give an empty answer
    but the whole history. *)
Theorem execution_history_window (limit : Z) (s : t) :
  (0 < limit ->
   (exists older,
      executionHistory s = older ++ EngineReports.getExecutionHistory limit s)
   /\ length (EngineReports.getExecutionHistory limit s)
      = Nat.min (Z.to_nat limit) (length (executionHistory s))) /\
  EngineReports.getExecutionHistory 0 s = executionHistory s.
Proof.
  split.
  - intros Hpos.
    unfold EngineReports.getExecutionHistory, EngineReports.sliceFrom.
    replace (- limit <? 0) with true by (symmetry; apply Z.ltb_lt; lia).
    split.
    + eexists. symmetry. apply firstn_skipn.
    + rewrite length_skipn. lia.
  - unfold EngineReports.getExecutionHistory, EngineReports.sliceFrom.
    cbn [Z.opp Z.ltb Z.compare].
    rewrite Z.min_l by lia. reflexivity.
Qed.

Lemma execution_history_window_witness :
  length (EngineReports.getExecutionHistory 1
            (snd (executeOpportunity Sample.cfg
                    (Sample.world Sample.hesitant) Sample.detected
                    (snd (executeOpportunity Sample.cfg
                            (Sample.world Sample.confident) Sample.detected
                            Sample.idleEngine))))) = 1%nat.
Proof.
  destruct (execution_history_window 1
              (snd (executeOpportunity Sample.cfg
                    (Sample.world Sample.hesitant) Sample.detected
                    (snd (executeOpportunity Sample.cfg
                            (Sample.world Sample.confident) Sample.detected
                            Sample.idleEngine))))) as [H _].
  destruct (H ltac:(lia)) as [_ Hlen]. rewrite Hlen. reflexivity.
Defined.

Lemma sumZ_app (xs ys : list Z) :
  EngineReports.sumZ (xs ++ ys)
  = EngineReports.sumZ xs + EngineReports.sumZ ys.
Proof.
  unfold EngineReports.sumZ. rewrite fold_left_app.
  generalize (fold_left Z.add xs 0). induction ys as [| y rest IH];
    intros z; simpl; [lia |].
  rewrite IH. rewrite (IH (0 + y)). lia.
Qed.

(** X27 (getExecutionStats after executeOpportunity).  Under listeners
    that return, every admitted call raises the number of executions by
    one; it raises the number of successful ones and adds the result's
    actual profit to the total profit when the result is a success, and
    raises the number of failed ones otherwise; the engine reports itself
    idle. *)
Theorem stats_follow_calls (cfg : Config.t) (w : World) (o : Opportunity.t)
    (s : t) :
  isExecuting s = false ->
  Config.tradingEnabled cfg = true ->
  (forall n, listeners w n = None) ->
  exists r s',
    executeOpportunity cfg w o s = (Js.Return r, s') /\
    let before := EngineReports.getExecutionStats s in
    let after := EngineReports.getExecutionStats s' in
    EngineReports.totalExecutions after
      = EngineReports.totalExecutions before + 1 /\
    EngineReports.successfulExecutions after
      = EngineReports.successfulExecutions before
        + (if success r then 1 else 0) /\
    EngineReports.failedExecutions after
      = EngineReports.failedExecutions before
        + (if success r then 0 else 1) /\
    EngineReports.totalProfit after
      = EngineReports.totalProfit before
        + (if success r then actualProfit r else 0) /\
    EngineReports.isCurrentlyExecuting after = false.
Proof.
  intros Hidle Hon Hq.
  destruct (executeOpportunity_books cfg w o s Hidle Hon Hq)
    as (r & s' & Hr & Hh & _ & Hx & _).
  exists r, s'. split; [exact Hr |].
  unfold EngineReports.getExecutionStats. cbn.
  rewrite Hh, Hx, List.filter_app, map_app, !length_app, sumZ_app.
  cbn [List.filter]. destruct (success r); cbn; repeat split; lia.
Qed.

Lemma stats_follow_calls_witness :
  exists r s',
    executeOpportunity Sample.cfg (Sample.world Sample.confident)
      Sample.detected Sample.idleEngine = (Js.Return r, s') /\
    EngineReports.totalExecutions (EngineReports.getExecutionStats s') = 1 /\
    EngineReports.failedExecutions (EngineReports.getExecutionStats s') = 1.
Proof.
  destruct (stats_follow_calls Sample.cfg (Sample.world Sample.confident)
              Sample.detected Sample.idleEngine eq_refl eq_refl
              (fun _ => eq_refl))
    as (r & s' & Hr & Ht & _ & Hf & _).
  exists r, s'. split; [exact Hr |]. cbv zeta in Ht, Hf.
  rewrite Ht, Hf. vm_compute in Hr. injection Hr as <- _.
  split; reflexivity.
Defined.

End OrchestratorFacts.

(** ** The opportunity handler of the trader *)

Module TraderFacts.
Import TradingExecutionEngine.

Lemma onEngineEvent_frame (w : World) (events : list Event) :
  forall tr : Trader.t,
  Trader.recentOpportunities (fold_left (Trader.onEngineEvent w) events tr)
    = Trader.recentOpportunities tr /\
  Trader.executionEngine (fold_left (Trader.onEngineEvent w) events tr)
    = Trader.executionEngine tr.
Proof.
  induction events as [| ev rest IH]; intros tr; [auto |].
  cbn [fold_left]. destruct (IH (Trader.onEngineEvent w tr ev)) as [H1 H2].
  rewrite H1, H2. destruct ev; auto.
Qed.

(** X28 (handleOpportunityFound).  Whatever happens to an opportunity, it
    is stored at the head of the recent opportunities, possibly with its
    input amount adjusted, in front of the 999 most recent earlier ones:
    the buffer never holds more than 1000 entries. *)
Theorem recent_opportunities_bounded (cfg : Config.t) (w : World)
    (getFeeData : Js.completion (option Z)) (now : Z) (o : Opportunity.t)
    (tr : Trader.t) :
  let tr' := Trader.handleOpportunityFound cfg w getFeeData now o tr in
  (length (Trader.recentOpportunities tr') <= 1000)%nat /\
  exists newest,
    Trader.recentOpportunities tr'
      = newest :: firstn 999 (Trader.recentOpportunities tr) /\
    (newest = o \/
     exists amount, newest = Trader.withInputAmount amount o).
Proof.
  cbv zeta.
  assert (Hstore : forall x : Opportunity.t,
            (length (firstn 1000 (x :: Trader.recentOpportunities tr))
             <= 1000)%nat /\
            firstn 1000 (x :: Trader.recentOpportunities tr)
              = x :: firstn 999 (Trader.recentOpportunities tr)).
  { intros x. split; [rewrite length_firstn; lia | reflexivity]. }
  assert (Hsame : forall x, x = o ->
            (length (firstn 1000 (x :: Trader.recentOpportunities tr))
             <= 1000)%nat /\
            exists newest,
              firstn 1000 (x :: Trader.recentOpportunities tr)
                = newest :: firstn 999 (Trader.recentOpportunities tr) /\
              (newest = o \/
               exists amount, newest = Trader.withInputAmount amount o)).
  { intros x ->. destruct (Hstore o) as [Hl He]. split; [exact Hl |].
    exists o. split; [exact He | left; reflexivity]. }
  unfold Trader.handleOpportunityFound.
  destruct (negb (Config.tradingEnabled cfg)); [apply Hsame; reflexivity |].
  destruct (predictOpportunity w o) as [ai | e];
    [| apply Hsame; reflexivity].
  destruct (RiskManager.assessRisk cfg now (Trader.riskManager tr) o
              (Some ai)) as [ra rm].
  destruct (negb (RiskManager.shouldExecute ra));
    [apply Hsame; reflexivity |].
  destruct (EngineReports.estimateGasCosts cfg w getFeeData o
              (Trader.executionEngine tr)) as [[costs | e] s1];
    [| apply Hsame; reflexivity].
  destruct (negb (EngineReports.isStillProfitable costs));
    [apply Hsame; reflexivity |].
  match goal with
  | |- context [executeOpportunity cfg w ?o' ?s] =>
      set (o2 := o'); destruct (executeOpportunity cfg w o2 s) as [c engine]
  end.
  match goal with
  | |- context [fold_left ?f ?evs ?t0] =>
      destruct (onEngineEvent_frame w evs t0) as [Hr _]
  end.
  rewrite Hr. cbn [Trader.recentOpportunities].
  destruct (Hstore o2) as [Hl He]. split; [exact Hl |].
  exists o2. split; [exact He |].
  unfold o2. destruct (negb _); [right; eexists; reflexivity | left; reflexivity].
Qed.

(** X29 (handleOpportunityFound).  The handler reaches the execution
    engine, or records a trade, only when trading is enabled, the
    prediction came back, the risk assessment (made with that prediction)
    said to execute, and the gas estimate came back still profitable. *)
Theorem engine_reached_only_through_gates (cfg : Config.t) (w : World)
    (getFeeData : Js.completion (option Z)) (now : Z) (o : Opportunity.t)
    (tr : Trader.t) :
  let tr' := Trader.handleOpportunityFound cfg w getFeeData now o tr in
  Trader.executionEngine tr' <> Trader.executionEngine tr \/
  Trader.recentTrades tr' <> Trader.recentTrades tr ->
  Config.tradingEnabled cfg = true /\
  exists ai costs,
    predictOpportunity w o = Js.Return ai /\
    RiskManager.shouldExecute
      (fst (RiskManager.assessRisk cfg now (Trader.riskManager tr) o
              (Some ai))) = true /\
    fst (EngineReports.estimateGasCosts cfg w getFeeData o
           (Trader.executionEngine tr)) = Js.Return costs /\
    EngineReports.isStillProfitable costs = true.
Proof.
  cbv zeta. unfold Trader.handleOpportunityFound.
  destruct (Config.tradingEnabled cfg); cbn [negb];
    [| intros H; exfalso; destruct H as [H | H]; apply H; reflexivity].
  destruct (predictOpportunity w o) as [ai | e];
    [| intros H; exfalso; destruct H as [H | H]; apply H; reflexivity].
  destruct (RiskManager.assessRisk cfg now (Trader.riskManager tr) o
              (Some ai)) as [ra rm] eqn:EA.
  destruct (RiskManager.shouldExecute ra) eqn:ER; cbn [negb];
    [| intros H; exfalso; destruct H as [H | H]; apply H; reflexivity].
  destruct (EngineReports.estimateGasCosts cfg w getFeeData o
              (Trader.executionEngine tr)) as [[costs | e] s1];
    [| intros H; exfalso; destruct H as [H | H]; apply H; reflexivity].
  destruct (EngineReports.isStillProfitable costs) eqn:EP; cbn [negb];
    [| intros H; exfalso; destruct H as [H | H]; apply H; reflexivity].
  intros _. split; [reflexivity |]. exists ai, costs. rewrite EA.
  cbn [fst]. repeat split; first [reflexivity | assumption].
Qed.

Lemma engine_reached_only_through_gates_witness :
  exists ai,
    predictOpportunity (Sample.world Sample.confident) Sample.stablePair
      = Js.Return ai /\
    RiskManager.shouldExecute
      (fst (RiskManager.assessRisk Sample.cfg 10 Sample.ledger
              Sample.stablePair (Some ai))) = true.
Proof.
  destruct (engine_reached_only_through_gates Sample.cfg
              (Sample.world Sample.confident) (Js.Return (Some 3)) 10
              Sample.stablePair Fixture.trader)
    as (_ & ai & costs & Ha & Hr & _).
  - left. vm_compute. discriminate.
  - exists ai. split; [exact Ha | exact Hr].
Defined.

Lemma newEvents_app (before after : t) (events : list Event) :
  emitted after = emitted before ++ events ->
  Trader.newEvents before after = events.
Proof.
  intros H. unfold Trader.newEvents. rewrite H.
  rewrite skipn_app, skipn_all, Nat.sub_diag. reflexivity.
Qed.

(** X30 (handleOpportunityFound with the engine listeners).  When every
    gate is passed, the engine is idle and the listeners return, one
    handled opportunity leaves exactly one new record, the engine's
    result, at the head of the recent trades and at the end of the
    engine's history; on the ledger the number of active trades is back
    at its value before the call, the day's trade count is one higher
    than after the assessment, the last trade time is the start of the
    call, and the daily volume has grown by the result's actual profit
    when the trade succeeded and not at all otherwise. *)
Theorem handled_trade_books (cfg : Config.t) (w : World)
    (getFeeData : Js.completion (option Z)) (now : Z) (o : Opportunity.t)
    (tr : Trader.t) (ai : Prediction.t) (costs : EngineReports.GasCosts) :
  Config.tradingEnabled cfg = true ->
  (forall n, listeners w n = None) ->
  isExecuting (Trader.executionEngine tr) = false ->
  0 <= RiskManager.activeTrades (Trader.riskManager tr) ->
  predictOpportunity w o = Js.Return ai ->
  RiskManager.shouldExecute
    (fst (RiskManager.assessRisk cfg now (Trader.riskManager tr) o
            (Some ai))) = true ->
  fst (EngineReports.estimateGasCosts cfg w getFeeData o
         (Trader.executionEngine tr)) = Js.Return costs ->
  EngineReports.isStillProfitable costs = true ->
  let tr' := Trader.handleOpportunityFound cfg w getFeeData now o tr in
  let assessed :=
    snd (RiskManager.assessRisk cfg now (Trader.riskManager tr) o
           (Some ai)) in
  exists r,
    Trader.recentTrades tr' = (r, endTime w) :: Trader.recentTrades tr /\
    executionHistory (Trader.executionEngine tr')
      = executionHistory (Trader.executionEngine tr) ++ [r] /\
    isExecuting (Trader.executionEngine tr') = false /\
    RiskManager.activeTrades (Trader.riskManager tr')
      = RiskManager.activeTrades (Trader.riskManager tr) /\
    RiskManager.dailyTrades (Trader.riskManager tr')
      = RiskManager.dailyTrades assessed + 1 /\
    RiskManager.lastTradeTime (Trader.riskManager tr') = startTime w /\
    RiskManager.dailyVolume (Trader.riskManager tr')
      = RiskManager.dailyVolume assessed
        + (if success r then actualProfit r else 0).
Proof.
  intros Hon Hq Hidle Hactive Hai Hrisk Hgas Hprofit. cbv zeta.
  unfold Trader.handleOpportunityFound.
  rewrite Hon, Hai. cbn [negb].
  pose proof (RiskFacts.assessRisk_ledger cfg now (Trader.riskManager tr) o
                (Some ai)) as Hledger.
  destruct (RiskManager.assessRisk cfg now (Trader.riskManager tr) o
              (Some ai)) as [ra rm].
  cbn [fst snd] in *. rewrite Hrisk. cbn [negb].
  destruct (EngineReports.estimateGasCosts cfg w getFeeData o
              (Trader.executionEngine tr)) as [c s1].
  cbn [fst] in Hgas. subst c. rewrite Hprofit. cbn [negb].
  match goal with
  | |- context [executeOpportunity cfg w ?o' ?s] => set (o2 := o')
  end.
  destruct (OrchestratorFacts.executeOpportunity_books cfg w o2
              (Trader.executionEngine tr) Hidle Hon Hq)
    as (r & engine & Hrun & Hhist & Hev & Hx & _).
  rewrite Hrun.
  rewrite (newEvents_app _ _ _ Hev).
  exists r. cbn [fold_left Trader.onEngineEvent].
  assert (Hact : RiskManager.activeTrades rm
                 = RiskManager.activeTrades (Trader.riskManager tr)).
  { rewrite Hledger. apply RiskFacts.rolled_activeTrades. }
  destruct (success r); cbn; rewrite ?Hact;
    repeat split; auto; lia.
Qed.

Lemma handled_trade_books_witness :
  exists r,
    Trader.recentTrades
      (Trader.handleOpportunityFound Sample.cfg Fixture.settledWorld
         (Js.Return (Some 3)) 10 Sample.detected Fixture.trader)
      = [(r, 9000)] /\
    success r = true /\
    RiskManager.dailyVolume
      (Trader.riskManager
         (Trader.handleOpportunityFound Sample.cfg Fixture.settledWorld
            (Js.Return (Some 3)) 10 Sample.detected Fixture.trader))
      = actualProfit r.
Proof.
  destruct (handled_trade_books Sample.cfg Fixture.settledWorld
              (Js.Return (Some 3)) 10 Sample.detected Fixture.trader
              Sample.confident (EngineReports.mkGasCosts 0 0 11003 true))
    as (r & Hr & _ & _ & _ & _ & _ & Hv);
    try (vm_compute; reflexivity).
  - vm_compute. discriminate.
  - assert (Hs : success r = true).
    { apply (f_equal (fun l => match l with
                               | (x, _) :: _ => success x
                               | [] => false
                               end)) in Hr.
      vm_compute in Hr. symmetry. exact Hr. }
    exists r. split; [exact Hr |]. split; [exact Hs |].
    rewrite Hv, Hs. reflexivity.
Defined.

End TraderFacts.
